(** * The device-communication core of homebridge-create-ceiling-fan

    A shallow embedding of [src/mutex.ts] (class [Mutex]) and of the
    communication core of [src/platformAccessory.ts] (class
    [CreateCeilingFanAccessory]): the slider quantisation, the debounce
    timer of the rotation-speed set handler, the status poller, the command
    dispatcher and its timeout wrapper.

    JavaScript runs the accessory on one thread.  A function body runs
    without interruption up to its next [await]; the continuation of an
    [await] and the callback of a timer are separate turns of the event
    loop.  The embedding follows this: every turn is one total Rocq
    function on the fields of the object, and the order of the turns is
    the list of events fed to the machine. *)

From Stdlib Require Import ZArith NArith QArith List String Lia Bool.
From Stdlib Require Import Sorted Qabs Lqa.
From stdpp Require Import base option list.
Import ListNotations.

Set Default Proof Using "Type".

(* ================================================================== *)
(** * Part I: definitions *)
(* ================================================================== *)

(** ** JavaScript numbers

    A [number] is a double: a finite value, one of the two infinities, or
    NaN.  Finite doubles are rationals, and the code below only compares
    numbers with integer literals, so a finite number is kept as a
    rational ([-0] and [0] are the same number for [===] and [<]). *)
Module JS.

Inductive number : Type :=
| NaN
| Infinity
| NegInfinity
| Num (q : Q).

Definition Qlt_bool (x y : Q) : bool := negb (Qle_bool y x).

(** [a === b] on numbers. *)
Definition strict_eq (a b : number) : bool :=
  match a, b with
  | Num x, Num y => Qeq_bool x y
  | Infinity, Infinity => true
  | NegInfinity, NegInfinity => true
  | _, _ => false
  end.

(** [a < b] on numbers: false as soon as one side is NaN. *)
Definition lt (a b : number) : bool :=
  match a, b with
  | NaN, _ | _, NaN => false
  | _, NegInfinity => false
  | NegInfinity, _ => true
  | Infinity, _ => false
  | Num _, Infinity => true
  | Num x, Num y => Qlt_bool x y
  end.

(** [arr.indexOf(x)]: the first index whose element is [=== x], or -1. *)
Fixpoint indexOf_from (i : Z) (arr : list number) (x : number) : Z :=
  match arr with
  | [] => (-1)%Z
  | y :: rest => if strict_eq y x then i else indexOf_from (i + 1)%Z rest x
  end.

Definition indexOf (arr : list number) (x : number) : Z :=
  indexOf_from 0%Z arr x.

End JS.

Import JS.

(** ** Values written to a data point of the device
    ([string | number | boolean] in [setDeviceValue]). *)
Inductive DPSValue : Type :=
| VBool (b : bool)
| VNumber (n : Z)
| VString (s : string).

(** ** Constants of [CreateCeilingFanAccessory] (milliseconds) *)
Definition fanSetSpeedDebouncePeriod : N := 500%N.
Definition getDeviceStatusFastRetryPeriod : N := 1000%N.
Definition getDeviceStatusPeriod : N := 10000%N.
Definition getDeviceStatusConnectTimeout : N := 3000%N.
Definition getDeviceStatusReadTimeout : N := 1000%N.
Definition setDeviceStatusTimeout : N := 2500%N.

Definition fanRotationSpeedNormalized : list number :=
  [Num 10; Num 30; Num 50; Num 70; Num 90; Num 100].

(** [this.fanRotationSpeedNormalized[i]] for a literal index [i].  The six
    literal indices of [adjustInputRotationSpeed] are in range; the default
    of [nth] stands for [undefined] and is never returned there. *)
Definition normalizedAt (i : nat) : number :=
  nth i fanRotationSpeedNormalized NaN.

(** [adjustInputRotationSpeed(value)] *)
Definition adjustInputRotationSpeed (value : number) : number :=
  if strict_eq value (Num 0) then Num 0
  else if lt value (Num 20) then normalizedAt 0
  else if lt value (Num 40) then normalizedAt 1
  else if lt value (Num 60) then normalizedAt 2
  else if lt value (Num 80) then normalizedAt 3
  else if lt value (Num 95) then normalizedAt 4
  else normalizedAt 5.

(** The data point value computed in the debounce callback:
    [this.fanRotationSpeedNormalized.indexOf(adjustedValue) + 1]. *)
Definition dpsRotationSpeed (adjustedValue : number) : Z :=
  (indexOf fanRotationSpeedNormalized adjustedValue + 1)%Z.

(** The command the debounce callback sends for a slider input, if any. *)
Definition speed_command (value : number) : list (Z * DPSValue) :=
  if strict_eq (adjustInputRotationSpeed value) (Num 0) then []
  else [(62%Z, VNumber (dpsRotationSpeed (adjustInputRotationSpeed value)))].

(** ** The debounce timer of [handleFanRotationSpeedSet]

    The part of the accessory the rotation-speed set handler works on, with
    a clock in milliseconds.  [timeouts] holds the pending timers created by
    the handler: handle, expiry time and the [adjustedValue] captured by the
    callback.  [dispatched] lists the calls
    [setDeviceValueWithTimeout(dps, value)] made so far, oldest first. *)
Module Slider.

Record t : Type := mk {
  clock : N;
  fanSetSpeedDebounceTimer : option nat;
  timeouts : list (nat * (N * number));
  nextHandle : nat;
  RotationSpeed : option number;
  dispatched : list (Z * DPSValue);
}.

Definition init : t := mk 0%N None [] 0 None [].

(** [clearTimeout(h)]: a handle that is not pending is ignored. *)
Definition clearTimeout (h : nat) (ts : list (nat * (N * number)))
  : list (nat * (N * number)) :=
  filter (fun x => fst x <> h) ts.

(** [handleFanRotationSpeedSet(value)], with [value] already through
    [Number(value)]. *)
Definition handleFanRotationSpeedSet (value : number) (s : t) : t :=
  let adjustedValue := adjustInputRotationSpeed value in
  let ts := match fanSetSpeedDebounceTimer s with
            | Some h => clearTimeout h (timeouts s)
            | None => timeouts s
            end in
  if negb (strict_eq adjustedValue (Num 0)) then
    mk (clock s)
       (Some (nextHandle s))
       (ts ++ [(nextHandle s, ((clock s + fanSetSpeedDebouncePeriod)%N, adjustedValue))])
       (S (nextHandle s))
       (Some adjustedValue)
       (dispatched s)
  else
    mk (clock s) (fanSetSpeedDebounceTimer s) ts (nextHandle s)
       (RotationSpeed s) (dispatched s).

(** The callback of a debounce timer. *)
Definition callback (x : nat * (N * number)) : Z * DPSValue :=
  (62%Z, VNumber (dpsRotationSpeed (snd (snd x)))).

Definition due (now : N) (x : nat * (N * number)) : bool :=
  (fst (snd x) <=? now)%N.

(** [dt] milliseconds pass: every pending timer whose expiry time is
    reached runs its callback. *)
Definition advance (dt : N) (s : t) : t :=
  let now := (clock s + dt)%N in
  mk now
     (fanSetSpeedDebounceTimer s)
     (List.filter (fun x => negb (due now x)) (timeouts s))
     (nextHandle s)
     (RotationSpeed s)
     (dispatched s ++ map callback (List.filter (due now) (timeouts s))).

(** A slider input arriving [gap] milliseconds after the previous turn. *)
Definition input (x : N * number) (s : t) : t :=
  handleFanRotationSpeedSet (snd x) (advance (fst x) s).

Definition burst (xs : list (N * number)) (s : t) : t :=
  fold_left (fun s x => input x s) xs s.

(** At most one timer is pending, and it is the one the handle names. *)
Definition wf (s : t) : Prop :=
  timeouts s = [] \/
  exists h d v, fanSetSpeedDebounceTimer s = Some h /\ timeouts s = [(h, (d, v))].

(** The state right after the handler ran on [value]: nothing was
    dispatched by the handler, and the only timer that can be pending is
    the one just created for the adjusted value. *)
Definition armed_for (value : number) (D : list (Z * DPSValue)) (s : t) : Prop :=
  dispatched s = D /\
  ((strict_eq (adjustInputRotationSpeed value) (Num 0) = true /\ timeouts s = []) \/
   (strict_eq (adjustInputRotationSpeed value) (Num 0) = false /\
    exists h, fanSetSpeedDebounceTimer s = Some h /\
              timeouts s = [(h, ((clock s + fanSetSpeedDebouncePeriod)%N,
                                 adjustInputRotationSpeed value))])).

(** The value the handler saw last, for a burst that began with
    [value]. *)
Definition last_input (value : number) (rest : list (N * number)) : number :=
  List.last (map snd rest) value.

End Slider.


(** ** [class Mutex] ([src/mutex.ts])

    [waitingQueue] holds the [acquireLock] closures of the suspended
    [lock()] calls; a closure is identified by the number of the call that
    created it.  The functions return the new fields together with the call
    whose promise they resolve, if any. *)
Module Mutex.

Record t : Type := mk {
  isLocked : bool;
  waitingQueue : list nat;
}.

Definition new : t := mk false [].

(** The closure [acquireLock] of the call [c]:
    [this.isLocked = true; resolve(() => this.unlock())]. *)
Definition acquireLock (c : nat) (m : t) : t * option nat :=
  (mk true (waitingQueue m), Some c).

(** [lock()], issued as call number [c]. *)
Definition lock (c : nat) (m : t) : t * option nat :=
  if negb (isLocked m) then acquireLock c m
  else (mk (isLocked m) (waitingQueue m ++ [c]), None).

(** [unlock()] *)
Definition unlock (m : t) : t * option nat :=
  match waitingQueue m with
  | nextPending :: rest => acquireLock nextPending (mk (isLocked m) rest)
  | [] => (mk false (waitingQueue m), None)
  end.

Definition resolved (r : option nat) : list nat :=
  match r with Some c => [c] | None => [] end.

(** *** Clients of one mutex

    [Lock] is a call of [lock()]; the calls are numbered 0, 1, 2, ... in
    the order they are issued.  [Release c] is the call of the function
    that the promise of call [c] was resolved with.  [holders] are the
    calls whose promise is resolved and whose release function has not
    been called yet; [granted] records the order in which promises were
    resolved. *)
Inductive call : Type :=
| Lock
| Release (c : nat).

Record clients : Type := mkClients {
  mutex : t;
  issued : nat;
  holders : list nat;
  granted : list nat;
  released : nat;
}.

Definition start : clients := mkClients new 0 [] [] 0.

(** One call.  [Release c] is only defined for a holder: the release
    function is handed to the holder alone and is to be called once. *)
Definition exec (e : call) (s : clients) : option clients :=
  match e with
  | Lock =>
      let '(m, r) := lock (issued s) (mutex s) in
      Some (mkClients m (S (issued s)) (holders s ++ resolved r)
                      (granted s ++ resolved r) (released s))
  | Release c =>
      if bool_decide (c ∈ holders s) then
        let '(m, r) := unlock (mutex s) in
        Some (mkClients m (issued s)
                        (filter (fun x => x <> c) (holders s) ++ resolved r)
                        (granted s ++ resolved r) (S (released s)))
      else None
  end.

Fixpoint run (es : list call) (s : clients) : option clients :=
  match es with
  | [] => Some s
  | e :: rest => match exec e s with
                 | Some s' => run rest s'
                 | None => None
                 end
  end.

(** What holds of the clients of a mutex after any run: the state is
    fixed by the number of calls issued and the number of releases.  The
    calls 0 .. [released - 1] have held the mutex and given it back, call
    number [released] holds it if it was issued, and the calls after it
    wait in the order they were issued. *)
Record invariant (s : clients) : Prop := {
  inv_released : released s <= issued s;
  inv_locked : isLocked (mutex s) = (released s <? issued s);
  inv_queue : waitingQueue (mutex s) = seq (S (released s)) (issued s - S (released s));
  inv_holders : holders s = if released s <? issued s then [released s] else [];
  inv_granted : granted s = seq 0 (Nat.min (S (released s)) (issued s));
}.

End Mutex.

(** ** Promises and the timeout wrapper *)

Inductive HAPStatus : Type :=
| SERVICE_COMMUNICATION_FAILURE.

Inductive error : Type :=
| TransportError
| TimeoutError (ms : N)
| HapStatusError (status : HAPStatus).

Inductive settlement (A : Type) : Type :=
| Fulfilled (a : A)
| RejectedWith (e : error).
Arguments Fulfilled {A} a.
Arguments RejectedWith {A} e.

(** A promise that is raced against a timer: either it settles before the
    timer fires, or the timer fires while it is still pending. *)
Inductive raced (A : Type) : Type :=
| PromiseFirst (s : settlement A)
| TimerFirst.
Arguments PromiseFirst {A} s.
Arguments TimerFirst {A}.

(** [waitForPromiseWithTimeout(promise, ms)]:
    [Promise.race([promise, timeout])] settles as the first of the two. *)
Definition waitForPromiseWithTimeout {A : Type} (promise : raced A) (ms : N)
  : settlement A :=
  match promise with
  | PromiseFirst s => s
  | TimerFirst => RejectedWith (TimeoutError ms)
  end.

(** The [try]/[catch] of [setDeviceValueWithTimeout] around the wrapped
    promise: any error becomes the HAP status error. *)
Definition setDeviceValueWithTimeout_settle (promise : raced unit) : settlement unit :=
  match waitForPromiseWithTimeout promise setDeviceStatusTimeout with
  | Fulfilled _ => Fulfilled tt
  | RejectedWith _ => RejectedWith (HapStatusError SERVICE_COMMUNICATION_FAILURE)
  end.

(** ** The device state cache and its projections *)

Record DeviceState : Type := mkState {
  fanOn : bool;
  fanSpeed : Z;
  fanRotationClockwise : bool;
  lightOn : bool;
  isValid : bool;
}.

(** The data points read from the device ([status.dps]). *)
Record DPSObject : Type := mkDPS {
  dps20 : bool;
  dps60 : bool;
  dps62 : Z;
  dps63 : string;
}.

Definition updateDeviceState (status : DPSObject) (st : DeviceState) : DeviceState :=
  mkState (dps60 status)
          (dps62 status)
          (if String.eqb (dps63 status) "forward" then false else true)
          (dps20 status)
          (isValid st).

Definition set_isValid (b : bool) (st : DeviceState) : DeviceState :=
  mkState (fanOn st) (fanSpeed st) (fanRotationClockwise st) (lightOn st) b.

Inductive CharacteristicValue : Type :=
| ACTIVE
| INACTIVE
| CLOCKWISE
| COUNTER_CLOCKWISE
| CNumber (n : number)
| CBoolean (b : bool)
| CUndefined.

Definition fanActiveValueToCharacteristicValue (st : DeviceState) : CharacteristicValue :=
  if fanOn st then ACTIVE else INACTIVE.

(** [this.fanRotationSpeedNormalized[this.state.fanSpeed - 1]] *)
Definition fanRotationSpeedValueToCharacteristicValue (st : DeviceState) : CharacteristicValue :=
  if (fanSpeed st - 1 <? 0)%Z then CUndefined
  else match nth_error fanRotationSpeedNormalized (Z.to_nat (fanSpeed st - 1)) with
       | Some n => CNumber n
       | None => CUndefined
       end.

Definition fanRotationDirectionValueToCharacteristicValue (st : DeviceState) : CharacteristicValue :=
  if fanRotationClockwise st then CLOCKWISE else COUNTER_CLOCKWISE.

Definition lightOnValueToCharacteristicValue (st : DeviceState) : CharacteristicValue :=
  CBoolean (lightOn st).

(** [throwErrorIfDeviceUnresponsive()]: the error thrown, if any. *)
Definition throwErrorIfDeviceUnresponsive (st : DeviceState) : option error :=
  if negb (isValid st) then Some (HapStatusError SERVICE_COMMUNICATION_FAILURE)
  else None.

(** ** The accessory as a machine of event-loop turns *)

(** Calls on the device communicator (the TuyAPI object). *)
Inductive request : Type :=
| Connect
| Get
| Set_ (dps : Z) (value : DPSValue)
| Disconnect.

(** Where a suspended call of [getDeviceStatus] waits. *)
Inductive poll_pc : Type :=
| PollLock       (* await this.mutex.lock() *)
| PollConnect    (* await waitForPromiseWithTimeout(connect(), ...) *)
| PollRead       (* await waitForPromiseWithTimeout(get(...), ...) *)
| PollDone.

(** Where a suspended call of [setDeviceValue] waits. *)
Inductive send_pc : Type :=
| SendLock       (* await this.mutex.lock() *)
| SendConnect    (* await this.deviceCommunicator.connect() *)
| SendWrite      (* await this.deviceCommunicator.set(...) *)
| SendDone.

(** A call in progress.  [SetDeviceValue] is a call of [setDeviceValue]
    made by [setDeviceValueWithTimeout]; [caller] is the settlement of the
    promise [setDeviceValueWithTimeout] returned, [None] while pending. *)
Inductive task : Type :=
| GetDeviceStatus (pc : poll_pc)
| SetDeviceValue (dps : Z) (value : DPSValue) (pc : send_pc)
                 (caller : option (settlement unit)).

Record Accessory : Type := mkAccessory {
  state : DeviceState;
  mutex : Mutex.t;
  isGetStatusInProgress : bool;
  getDeviceStatusTimer : nat;
  deviceCommunicator : nat;
  (* the event loop and the device around the object *)
  timers : list (nat * N);     (* pending poll timers: handle, delay *)
  nextTimer : nat;
  wire : list (nat * request); (* calls made on communicator objects, oldest first *)
  tasks : list task;           (* calls in progress, by number *)
  owners : list nat;           (* tasks holding a release function not yet called *)
  abandoned : list nat;        (* positions in [wire] of operations that lost their race *)
}.

(** The fields after the constructor: the communicator is object 0 and the
    first poll timer is pending. *)
Definition constructed : Accessory :=
  mkAccessory (mkState false 1 false false false) Mutex.new false
              0 0 [(0, getDeviceStatusPeriod)] 1 [] [] [] [].

Definition with_state (f : DeviceState -> DeviceState) (a : Accessory) : Accessory :=
  mkAccessory (f (state a)) (mutex a) (isGetStatusInProgress a)
              (getDeviceStatusTimer a) (deviceCommunicator a) (timers a)
              (nextTimer a) (wire a) (tasks a) (owners a) (abandoned a).

Definition with_inProgress (b : bool) (a : Accessory) : Accessory :=
  mkAccessory (state a) (mutex a) b
              (getDeviceStatusTimer a) (deviceCommunicator a) (timers a)
              (nextTimer a) (wire a) (tasks a) (owners a) (abandoned a).

Definition with_tasks (f : list task -> list task) (a : Accessory) : Accessory :=
  mkAccessory (state a) (mutex a) (isGetStatusInProgress a)
              (getDeviceStatusTimer a) (deviceCommunicator a) (timers a)
              (nextTimer a) (wire a) (f (tasks a)) (owners a) (abandoned a).

Definition with_abandoned (f : list nat -> list nat) (a : Accessory) : Accessory :=
  mkAccessory (state a) (mutex a) (isGetStatusInProgress a)
              (getDeviceStatusTimer a) (deviceCommunicator a) (timers a)
              (nextTimer a) (wire a) (tasks a) (owners a) (f (abandoned a)).

(** [clearTimeout(h)] *)
Definition clearTimeout (h : nat) (a : Accessory) : Accessory :=
  mkAccessory (state a) (mutex a) (isGetStatusInProgress a)
              (getDeviceStatusTimer a) (deviceCommunicator a)
              (filter (fun x => fst x <> h) (timers a))
              (nextTimer a) (wire a) (tasks a) (owners a) (abandoned a).

(** [this.getDeviceStatusTimer = setTimeout(() => this.getDeviceStatus(), ms)] *)
Definition setTimeout (ms : N) (a : Accessory) : Accessory :=
  mkAccessory (state a) (mutex a) (isGetStatusInProgress a)
              (nextTimer a) (deviceCommunicator a)
              (timers a ++ [(nextTimer a, ms)])
              (S (nextTimer a)) (wire a) (tasks a) (owners a) (abandoned a).

(** A call on [this.deviceCommunicator]. *)
Definition call (r : request) (a : Accessory) : Accessory :=
  mkAccessory (state a) (mutex a) (isGetStatusInProgress a)
              (getDeviceStatusTimer a) (deviceCommunicator a) (timers a)
              (nextTimer a) (wire a ++ [(deviceCommunicator a, r)])
              (tasks a) (owners a) (abandoned a).

(** [this.mutex.lock()] called by task [t]. *)
Definition lock (t : nat) (a : Accessory) : Accessory :=
  let mr := Mutex.lock t (mutex a) in
  mkAccessory (state a) (fst mr) (isGetStatusInProgress a)
              (getDeviceStatusTimer a) (deviceCommunicator a) (timers a)
              (nextTimer a) (wire a) (tasks a)
              (owners a ++ Mutex.resolved (snd mr)) (abandoned a).

(** [releaseMutex()] called by task [t]. *)
Definition releaseMutex (t : nat) (a : Accessory) : Accessory :=
  let mr := Mutex.unlock (mutex a) in
  mkAccessory (state a) (fst mr) (isGetStatusInProgress a)
              (getDeviceStatusTimer a) (deviceCommunicator a) (timers a)
              (nextTimer a) (wire a) (tasks a)
              (filter (fun x => x <> t) (owners a) ++ Mutex.resolved (snd mr))
              (abandoned a).

(** The operation started last lost its race against the timer: it stays
    in flight with nobody waiting for it. *)
Definition abandon {A : Type} (r : raced A) (a : Accessory) : Accessory :=
  match r with
  | TimerFirst => with_abandoned (fun l => l ++ [pred (length (wire a))]) a
  | PromiseFirst _ => a
  end.

(** *** [getDeviceStatus], turn by turn *)

(** The end of [getDeviceStatus], after the [if]. *)
Definition getDeviceStatus_reschedule (isCommunicationError : bool) (a : Accessory)
  : Accessory :=
  let nextGetStatusPeriod :=
    if isCommunicationError then getDeviceStatusFastRetryPeriod
    else getDeviceStatusPeriod in
  setTimeout nextGetStatusPeriod a.

(** First turn: up to [await this.mutex.lock()], or to the end when a read
    is in progress. *)
Definition getDeviceStatus (a : Accessory) : Accessory :=
  let a := clearTimeout (getDeviceStatusTimer a) a in
  if negb (isGetStatusInProgress a) then
    let t := length (tasks a) in
    with_tasks (fun l => l ++ [GetDeviceStatus PollLock])
               (lock t (with_inProgress true a))
  else
    getDeviceStatus_reschedule false a.

(** The mutex is granted: [connect()] is called and raced. *)
Definition getDeviceStatus_granted (t : nat) (a : Accessory) : Accessory :=
  with_tasks (fun l => <[t := GetDeviceStatus PollConnect]> l) (call Connect a).

(** [catch], [finally] and the end of the function. *)
Definition getDeviceStatus_catch (t : nat) (a : Accessory) : Accessory :=
  let a := call Disconnect a in
  let a := with_state (set_isValid false) a in
  let a := with_inProgress false a in
  let a := releaseMutex t a in
  let a := with_tasks (fun l => <[t := GetDeviceStatus PollDone]> l) a in
  getDeviceStatus_reschedule true a.

(** The raced [connect()] has settled. *)
Definition getDeviceStatus_connected (t : nat) (r : raced unit) (a : Accessory)
  : Accessory :=
  match waitForPromiseWithTimeout r getDeviceStatusConnectTimeout with
  | Fulfilled _ =>
      with_tasks (fun l => <[t := GetDeviceStatus PollRead]> l) (call Get a)
  | RejectedWith _ => getDeviceStatus_catch t (abandon r a)
  end.

(** The raced [get({ schema: true })] has settled.  [updateAccessoryState()]
    only pushes the projections of the cache to HomeKit and changes no
    field of the accessory; it has no counterpart here. *)
Definition getDeviceStatus_read (t : nat) (r : raced DPSObject) (a : Accessory)
  : Accessory :=
  match waitForPromiseWithTimeout r getDeviceStatusReadTimeout with
  | Fulfilled status =>
      let a := with_state (updateDeviceState status) a in
      let a := with_state (set_isValid true) a in
      let a := with_inProgress false a in
      let a := releaseMutex t a in
      let a := with_tasks (fun l => <[t := GetDeviceStatus PollDone]> l) a in
      getDeviceStatus_reschedule false a
  | RejectedWith _ => getDeviceStatus_catch t (abandon r a)
  end.

(** *** [setDeviceValue] inside [setDeviceValueWithTimeout] *)

(** The promise of [setDeviceValueWithTimeout] settles as the first of the
    wrapped call and the timer; a later settlement changes nothing. *)
Definition settle_caller (caller : option (settlement unit)) (r : raced unit)
  : option (settlement unit) :=
  match caller with
  | Some s => Some s
  | None => Some (setDeviceValueWithTimeout_settle r)
  end.

(** First turn of [setDeviceValueWithTimeout(dps, value)]: [setDeviceValue]
    runs up to [await this.mutex.lock()], then the timer is started. *)
Definition setDeviceValueWithTimeout (dps : Z) (value : DPSValue) (a : Accessory)
  : Accessory :=
  let t := length (tasks a) in
  with_tasks (fun l => l ++ [SetDeviceValue dps value SendLock None]) (lock t a).

Definition setDeviceValue_granted (t : nat) (dps : Z) (value : DPSValue)
  (caller : option (settlement unit)) (a : Accessory) : Accessory :=
  with_tasks (fun l => <[t := SetDeviceValue dps value SendConnect caller]> l)
             (call Connect a).

(** [finally] and the end of [setDeviceValue]: its promise is fulfilled. *)
Definition setDeviceValue_finally (t : nat) (dps : Z) (value : DPSValue)
  (caller : option (settlement unit)) (a : Accessory) : Accessory :=
  let a := releaseMutex t a in
  with_tasks (fun l => <[t := SetDeviceValue dps value SendDone
                                  (settle_caller caller (PromiseFirst (Fulfilled tt)))]> l) a.

Definition setDeviceValue_connected (t : nat) (dps : Z) (value : DPSValue)
  (caller : option (settlement unit)) (r : settlement unit) (a : Accessory)
  : Accessory :=
  match r with
  | Fulfilled _ =>
      with_tasks (fun l => <[t := SetDeviceValue dps value SendWrite caller]> l)
                 (call (Set_ dps value) a)
  | RejectedWith _ => setDeviceValue_finally t dps value caller (call Disconnect a)
  end.

Definition setDeviceValue_written (t : nat) (dps : Z) (value : DPSValue)
  (caller : option (settlement unit)) (r : settlement unit) (a : Accessory)
  : Accessory :=
  match r with
  | Fulfilled _ => setDeviceValue_finally t dps value caller a
  | RejectedWith _ => setDeviceValue_finally t dps value caller (call Disconnect a)
  end.

(** *** The get handlers *)

Definition handleFanActiveStateGet (a : Accessory)
  : Accessory * settlement CharacteristicValue :=
  let a := getDeviceStatus a in
  match throwErrorIfDeviceUnresponsive (state a) with
  | Some e => (a, RejectedWith e)
  | None => (a, Fulfilled (fanActiveValueToCharacteristicValue (state a)))
  end.

Definition handleFanRotationSpeedGet (a : Accessory)
  : Accessory * settlement CharacteristicValue :=
  let a := getDeviceStatus a in
  match throwErrorIfDeviceUnresponsive (state a) with
  | Some e => (a, RejectedWith e)
  | None => (a, Fulfilled (fanRotationSpeedValueToCharacteristicValue (state a)))
  end.

Definition handleFanRotationDirectionGet (a : Accessory)
  : Accessory * settlement CharacteristicValue :=
  let a := getDeviceStatus a in
  match throwErrorIfDeviceUnresponsive (state a) with
  | Some e => (a, RejectedWith e)
  | None => (a, Fulfilled (fanRotationDirectionValueToCharacteristicValue (state a)))
  end.

Definition handleLightOnGet (a : Accessory)
  : Accessory * settlement CharacteristicValue :=
  let a := getDeviceStatus a in
  match throwErrorIfDeviceUnresponsive (state a) with
  | Some e => (a, RejectedWith e)
  | None => (a, Fulfilled (lightOnValueToCharacteristicValue (state a)))
  end.

Inductive getter : Type :=
| FanActive
| FanRotationSpeed
| FanRotationDirection
| LightOn.

Definition handleGet (g : getter) : Accessory -> Accessory * settlement CharacteristicValue :=
  match g with
  | FanActive => handleFanActiveStateGet
  | FanRotationSpeed => handleFanRotationSpeedGet
  | FanRotationDirection => handleFanRotationDirectionGet
  | LightOn => handleLightOnGet
  end.

Definition projection (g : getter) : DeviceState -> CharacteristicValue :=
  match g with
  | FanActive => fanActiveValueToCharacteristicValue
  | FanRotationSpeed => fanRotationSpeedValueToCharacteristicValue
  | FanRotationDirection => fanRotationDirectionValueToCharacteristicValue
  | LightOn => lightOnValueToCharacteristicValue
  end.

(** *** Turns of the event loop

    [TimerFires h]: the pending poll timer [h] runs [getDeviceStatus()].
    [HomeKitGet g]: HomeKit calls a get handler.
    [Dispatch dps v]: a set handler, or the debounce callback, calls
    [setDeviceValueWithTimeout(dps, v)].
    [Granted t]: the continuation of [await this.mutex.lock()] of task [t].
    [Connected], [Read]: an [await] of [getDeviceStatus] settles.
    [SendConnected], [SendWritten]: an [await] of [setDeviceValue] settles.
    [SendTimeout t]: the timer racing the [setDeviceValue] call [t] fires.
    [LateSettle k]: the operation at position [k] of [wire], abandoned by a
    race, settles; no continuation is attached to it. *)
Inductive event : Type :=
| TimerFires (h : nat)
| HomeKitGet (g : getter)
| Dispatch (dps : Z) (value : DPSValue)
| Granted (t : nat)
| Connected (t : nat) (r : raced unit)
| Read (t : nat) (r : raced DPSObject)
| SendConnected (t : nat) (r : settlement unit)
| SendWritten (t : nat) (r : settlement unit)
| SendTimeout (t : nat)
| LateSettle (k : nat).

(** One turn; [None] when the turn cannot happen in this state.  A timer
    that fires is no longer pending when its callback runs. *)
Definition step (e : event) (a : Accessory) : option Accessory :=
  match e with
  | TimerFires h =>
      if bool_decide (h ∈ map fst (timers a)) then
        Some (getDeviceStatus (clearTimeout h a))
      else None
  | HomeKitGet g => Some (fst (handleGet g a))
  | Dispatch dps value => Some (setDeviceValueWithTimeout dps value a)
  | Granted t =>
      if bool_decide (t ∈ owners a) then
        match tasks a !! t with
        | Some (GetDeviceStatus PollLock) => Some (getDeviceStatus_granted t a)
        | Some (SetDeviceValue dps value SendLock caller) =>
            Some (setDeviceValue_granted t dps value caller a)
        | _ => None
        end
      else None
  | Connected t r =>
      match tasks a !! t with
      | Some (GetDeviceStatus PollConnect) => Some (getDeviceStatus_connected t r a)
      | _ => None
      end
  | Read t r =>
      match tasks a !! t with
      | Some (GetDeviceStatus PollRead) => Some (getDeviceStatus_read t r a)
      | _ => None
      end
  | SendConnected t r =>
      match tasks a !! t with
      | Some (SetDeviceValue dps value SendConnect caller) =>
          Some (setDeviceValue_connected t dps value caller r a)
      | _ => None
      end
  | SendWritten t r =>
      match tasks a !! t with
      | Some (SetDeviceValue dps value SendWrite caller) =>
          Some (setDeviceValue_written t dps value caller r a)
      | _ => None
      end
  | SendTimeout t =>
      match tasks a !! t with
      | Some (SetDeviceValue dps value pc caller) =>
          Some (with_tasks
                  (fun l => <[t := SetDeviceValue dps value pc
                                     (settle_caller caller TimerFirst)]> l) a)
      | _ => None
      end
  | LateSettle k =>
      if bool_decide (k ∈ abandoned a) then
        Some (with_abandoned (filter (fun x => x <> k)) a)
      else None
  end.

Fixpoint run (es : list event) (a : Accessory) : option Accessory :=
  match es with
  | [] => Some a
  | e :: rest => match step e a with
                 | Some a' => run rest a'
                 | None => None
                 end
  end.

(** A call of [getDeviceStatus] between its [lock()] and its [finally]. *)
Definition polling (x : task) : Prop :=
  match x with
  | GetDeviceStatus PollDone => False
  | GetDeviceStatus _ => True
  | SetDeviceValue _ _ _ _ => False
  end.

(** A call that has not come to its end. *)
Definition live (x : task) : Prop :=
  match x with
  | GetDeviceStatus PollDone => False
  | SetDeviceValue _ _ SendDone _ => False
  | _ => True
  end.

(** A call waiting for the mutex. *)
Definition awaiting_lock (x : task) : Prop :=
  match x with
  | GetDeviceStatus PollLock => True
  | SetDeviceValue _ _ SendLock _ => True
  | _ => False
  end.

(** A call between the grant of the mutex and its [finally]. *)
Definition in_critical_section (x : task) : Prop :=
  match x with
  | GetDeviceStatus PollConnect | GetDeviceStatus PollRead => True
  | SetDeviceValue _ _ SendConnect _ | SetDeviceValue _ _ SendWrite _ => True
  | _ => False
  end.

(** The consistency of the poller flag, the mutex and the calls in
    progress. *)
Record consistent (a : Accessory) : Prop := {
  one_poll : forall t1 t2 x1 x2,
      tasks a !! t1 = Some x1 -> polling x1 ->
      tasks a !! t2 = Some x2 -> polling x2 -> t1 = t2;
  flag_clear : isGetStatusInProgress a = false ->
      forall t x, tasks a !! t = Some x -> ~ polling x;
  flag_set : isGetStatusInProgress a = true ->
      exists t x, tasks a !! t = Some x /\ polling x;
  owner_live : forall t, t ∈ owners a ->
      exists x, tasks a !! t = Some x /\ (awaiting_lock x \/ in_critical_section x);
  critical_owner : forall t x,
      tasks a !! t = Some x -> in_critical_section x -> t ∈ owners a;
  queue_waits : forall t, t ∈ Mutex.waitingQueue (mutex a) ->
      (exists x, tasks a !! t = Some x /\ awaiting_lock x) /\ t ∉ owners a;
  queue_nodup : NoDup (Mutex.waitingQueue (mutex a));
  one_owner : owners a = [] \/ exists t, owners a = [t];
  locked_owner : Mutex.isLocked (mutex a) = negb (bool_decide (owners a = []));
  free_no_waiter : Mutex.isLocked (mutex a) = false ->
      Mutex.waitingQueue (mutex a) = [];
}.

(** [n] poll cycles in a row that fail: the timer fires, the mutex is
    granted, and the raced [connect()] settles as [r]. *)
Definition failed_cycle (r : raced unit) (a : Accessory) : option Accessory :=
  run [TimerFires (getDeviceStatusTimer a);
       Granted (length (tasks a));
       Connected (length (tasks a)) r] a.

Fixpoint failed_cycles (n : nat) (r : raced unit) (a : Accessory) : option Accessory :=
  match n with
  | O => Some a
  | S k => match failed_cycle r a with
           | Some a' => failed_cycles k r a'
           | None => None
           end
  end.

(** The poller is at rest: no read in progress, the mutex free, and the
    timer named by [getDeviceStatusTimer] pending. *)
Record quiet (a : Accessory) : Prop := {
  quiet_flag : isGetStatusInProgress a = false;
  quiet_mutex : mutex a = Mutex.new;
  quiet_owners : owners a = [];
  quiet_timer : getDeviceStatusTimer a ∈ map fst (timers a);
}.

(** Between [a] and [a'] the end of [getDeviceStatus] has set a new timer
    of [ms] milliseconds and stored its handle. *)
Definition scheduled (ms : N) (a a' : Accessory) : Prop :=
  timers a' = timers a ++ [(nextTimer a, ms)] /\
  getDeviceStatusTimer a' = nextTimer a.

(** The promise of [setDeviceValueWithTimeout] for call [t] has been
    rejected by the timer while [setDeviceValue] is still running. *)
Definition timed_out (a : Accessory) (t : nat) : Prop :=
  exists dps value pc,
    pc <> SendDone /\
    tasks a !! t = Some (SetDeviceValue dps value pc
                           (Some (RejectedWith (HapStatusError SERVICE_COMMUNICATION_FAILURE)))).

(** The turns that happen out of band: a turn of a [setDeviceValue] call
    whose wrapper has timed out, and the settlement of a [connect()] or
    [get()] that lost its race. *)
Definition out_of_band (a : Accessory) (e : event) : Prop :=
  match e with
  | Granted t | SendConnected t _ | SendWritten t _ => timed_out a t
  | LateSettle k => k ∈ abandoned a
  | _ => False
  end.

(** The turn [e] is the one in which the [setDeviceValue] call [t] runs its
    [finally] and returns. *)
Definition returns (a : Accessory) (e : event) (t : nat) : Prop :=
  match e with
  | SendConnected t' (RejectedWith _) =>
      t' = t /\ exists dps value caller,
        tasks a !! t = Some (SetDeviceValue dps value SendConnect caller)
  | SendWritten t' _ =>
      t' = t /\ exists dps value caller,
        tasks a !! t = Some (SetDeviceValue dps value SendWrite caller)
  | _ => False
  end.

(** The turn [e] ends a poll attempt in state [a]: [Some true] when it
    ends with a communication error ([isCommunicationError]), [Some false]
    when the read went through. *)
Definition completes_poll (e : event) (a : Accessory) : option bool :=
  match e with
  | Connected t r =>
      match tasks a !! t, waitForPromiseWithTimeout r getDeviceStatusConnectTimeout with
      | Some (GetDeviceStatus PollConnect), RejectedWith _ => Some true
      | _, _ => None
      end
  | Read t r =>
      match tasks a !! t, waitForPromiseWithTimeout r getDeviceStatusReadTimeout with
      | Some (GetDeviceStatus PollRead), RejectedWith _ => Some true
      | Some (GetDeviceStatus PollRead), Fulfilled _ => Some false
      | _, _ => None
      end
  | _ => None
  end.

(** A sample state: [setDeviceValueWithTimeout(62, 3)] was called on the
    new accessory and its [setDeviceValue] has been granted the mutex. *)
Definition sending : Accessory :=
  setDeviceValue_granted 0 62 (VNumber 3) None
    (setDeviceValueWithTimeout 62 (VNumber 3) constructed).

(** A sample state: the first poll timer of the new accessory has fired
    and [getDeviceStatus] has been granted the mutex. *)
Definition polling_connect : Accessory :=
  getDeviceStatus_granted 0 (getDeviceStatus (clearTimeout 0 constructed)).

(** A sample state: in [polling_connect] the [connect()] has gone through
    and [getDeviceStatus] waits for [get()]. *)
Definition polling_read : Accessory :=
  getDeviceStatus_connected 0 (PromiseFirst (Fulfilled tt)) polling_connect.

(** A sample state: the timer of the wrapper fires in [sending], while
    [setDeviceValue] waits for [connect()]; and the state after that
    [connect()] is rejected later on. *)
Definition sending_timed_out : Accessory :=
  with_tasks
    (fun l => <[0 := SetDeviceValue 62 (VNumber 3) SendConnect
                       (settle_caller None TimerFirst)]> l)
    sending.

Definition returned_late : Accessory :=
  setDeviceValue_connected 0 62 (VNumber 3) (settle_caller None TimerFirst)
    (RejectedWith TransportError) sending_timed_out.

(** ** What a turn does to the calls and the mutex

    Every turn is of one of four kinds: it leaves the calls and the mutex
    alone; it moves one call on without touching the mutex, and never into
    the wait for the mutex; it makes a new call that calls [lock()]; or it
    ends a call of the critical section, which calls [releaseMutex()]. *)
Inductive transition (a a' : Accessory) : Prop :=
| trans_frame :
    tasks a' = tasks a -> owners a' = owners a -> mutex a' = mutex a ->
    transition a a'
| trans_update (t : nat) (x x' : task) :
    tasks a !! t = Some x ->
    tasks a' = <[t := x']> (tasks a) ->
    owners a' = owners a -> mutex a' = mutex a ->
    (awaiting_lock x' -> awaiting_lock x) ->
    transition a a'
| trans_spawn (x : task) :
    awaiting_lock x ->
    tasks a' = tasks a ++ [x] ->
    mutex a' = fst (Mutex.lock (length (tasks a)) (mutex a)) ->
    owners a' = owners a ++ Mutex.resolved (snd (Mutex.lock (length (tasks a)) (mutex a))) ->
    transition a a'
| trans_finish (t : nat) (x x' : task) :
    tasks a !! t = Some x ->
    in_critical_section x ->
    ~ live x' ->
    tasks a' = <[t := x']> (tasks a) ->
    mutex a' = fst (Mutex.unlock (mutex a)) ->
    owners a' = filter (fun i => i <> t) (owners a)
                  ++ Mutex.resolved (snd (Mutex.unlock (mutex a))) ->
    transition a a'.

(** A request that needs an open connection. *)
Definition is_operation (r : request) : Prop :=
  match r with
  | Get | Set_ _ _ => True
  | Connect | Disconnect => False
  end.

(** A call that has called [connect()] and waits for it. *)
Definition at_connect (x : task) : Prop :=
  match x with
  | GetDeviceStatus PollConnect => True
  | SetDeviceValue _ _ SendConnect _ => True
  | _ => False
  end.

(** The calls that wait for the mutex are known to it, and they are served
    in the order of their call numbers: the owner called [lock()] before
    every call in the queue, and the queue is in call order. *)
Record fair (a : Accessory) : Prop := {
  waiting_known : forall t x,
      tasks a !! t = Some x -> awaiting_lock x ->
      t ∈ owners a \/ t ∈ Mutex.waitingQueue (mutex a);
  call_order : StronglySorted Nat.lt (owners a ++ Mutex.waitingQueue (mutex a));
}.

(** A sample state: while the first poll waits for [connect()], three
    dispatches are made. *)
Definition queued_dispatches : Accessory :=
  setDeviceValueWithTimeout 62 (VNumber 2)
    (setDeviceValueWithTimeout 20 (VBool false)
       (setDeviceValueWithTimeout 60 (VBool true) polling_connect)).

(** Every request that needs an open connection comes right after a
    [connect()] on the same connection object. *)
Definition well_sequenced (w : list (nat * request)) : Prop :=
  forall i c r,
    w !! i = Some (c, r) -> is_operation r ->
    exists j, i = S j /\ w !! j = Some (c, Connect).

(** The wire as the calls in progress expect it: well sequenced, and
    ending in the [connect()] a call waits for. *)
Record wired (a : Accessory) : Prop := {
  wire_sequenced : well_sequenced (wire a);
  wire_connecting : forall t x,
      tasks a !! t = Some x -> at_connect x ->
      exists w, wire a = w ++ [(deviceCommunicator a, Connect)];
}.

(** A sample state: the first poll connects and reads while a dispatch
    waits for the mutex; the dispatch then connects and writes. *)
Definition written_after_poll : Accessory :=
  setDeviceValue_connected 1 60 (VBool true) None (Fulfilled tt)
    (setDeviceValue_granted 1 60 (VBool true) None
       (getDeviceStatus_read 0 (PromiseFirst (Fulfilled (mkDPS false true 3 "forward")))
          (getDeviceStatus_connected 0 (PromiseFirst (Fulfilled tt))
             (setDeviceValueWithTimeout 60 (VBool true) polling_connect)))).

(** The slider levels of the six device speeds, as rationals. *)
Definition levels : list Q := [10; 30; 50; 70; 90; 100]%Q.

(** ** The set handlers

    A value as HomeKit hands it to a set handler ([CharacteristicValue]). *)
Inductive jsvalue : Type :=
| JNumber (n : number)
| JBoolean (b : bool)
| JString (s : string)
| JUndefined.

(** [a === b] *)
Definition js_strict_eq (a b : jsvalue) : bool :=
  match a, b with
  | JNumber x, JNumber y => strict_eq x y
  | JBoolean x, JBoolean y => Bool.eqb x y
  | JString x, JString y => String.eqb x y
  | JUndefined, JUndefined => true
  | _, _ => false
  end.

(** The numeric constants of [this.platform.Characteristic] that the
    accessory uses.  They are defined by the HAP library, outside this
    repository, and are taken as given. *)
Record Characteristic : Type := mkCharacteristic {
  Active_ACTIVE : Z;
  Active_INACTIVE : Z;
  RotationDirection_CLOCKWISE : Z;
  RotationDirection_COUNTER_CLOCKWISE : Z;
}.

Definition hapConstant (z : Z) : jsvalue := JNumber (Num (inject_Z z)).

(** The JavaScript value a get handler returns for a projection. *)
Definition characteristicValue (C : Characteristic) (c : CharacteristicValue) : jsvalue :=
  match c with
  | ACTIVE => hapConstant (Active_ACTIVE C)
  | INACTIVE => hapConstant (Active_INACTIVE C)
  | CLOCKWISE => hapConstant (RotationDirection_CLOCKWISE C)
  | COUNTER_CLOCKWISE => hapConstant (RotationDirection_COUNTER_CLOCKWISE C)
  | CNumber n => JNumber n
  | CBoolean b => JBoolean b
  | CUndefined => JUndefined
  end.

(** [handleFanActiveStateSet(value)], first turn. *)
Definition handleFanActiveStateSet (C : Characteristic) (value : jsvalue) (a : Accessory)
  : Accessory :=
  setDeviceValueWithTimeout 60
    (VBool (if js_strict_eq value (hapConstant (Active_ACTIVE C)) then true else false)) a.

(** [handleFanRotationDirectionSet(value)], first turn. *)
Definition handleFanRotationDirectionSet (C : Characteristic) (value : jsvalue)
  (a : Accessory) : Accessory :=
  setDeviceValueWithTimeout 63
    (VString (if js_strict_eq value (hapConstant (RotationDirection_COUNTER_CLOCKWISE C))
              then "forward" else "reverse")) a.

(** [handleLightOnSet(value)], first turn; the value of the On
    characteristic is a boolean ([value as boolean]). *)
Definition handleLightOnSet (value : bool) (a : Accessory) : Accessory :=
  setDeviceValueWithTimeout 20 (VBool value) a.

(** A sample of the constants, for the examples. *)
Definition sampleCharacteristic : Characteristic := mkCharacteristic 1 0 0 1.

(** ** The platform ([src/platform.ts])

    [accessories] is the JavaScript [Map] from UUID to accessory, kept in
    insertion order.  [calls] records, oldest first, the calls made on the
    Homebridge API and the accessory handlers constructed.  The function
    [api.hap.uuid.generate] belongs to the HAP library and is a parameter
    of [discoverDevices]. *)
Module Platform.

(** An entry of [config.devices]. *)
Record Device : Type := mkDevice {
  device_id : string;
  device_name : string;
  device_key : string;
  device_ip : string;
  device_protocolVersion : string;
  device_hasLight : jsvalue;
}.

Record PlatformAccessory : Type := mkAccessory {
  UUID : string;
  displayName : string;
  context_device : Device;
}.

(** [Map.prototype.get] *)
Fixpoint get (uuid : string) (m : list (string * PlatformAccessory))
  : option PlatformAccessory :=
  match m with
  | [] => None
  | (k, v) :: rest => if String.eqb k uuid then Some v else get uuid rest
  end.

(** [Map.prototype.set]: the value of an existing key is replaced in
    place, a new key goes to the end. *)
Fixpoint set (uuid : string) (acc : PlatformAccessory)
  (m : list (string * PlatformAccessory)) : list (string * PlatformAccessory) :=
  match m with
  | [] => [(uuid, acc)]
  | (k, v) :: rest =>
      if String.eqb k uuid then (k, acc) :: rest else (k, v) :: set uuid acc rest
  end.

(** [Array.prototype.includes] on strings. *)
Definition includes (l : list string) (x : string) : bool :=
  existsb (String.eqb x) l.

Inductive api_call : Type :=
| updatePlatformAccessories (acc : PlatformAccessory)
| registerPlatformAccessories (acc : PlatformAccessory)
| unregisterPlatformAccessories (acc : PlatformAccessory)
| newCreateCeilingFanAccessory (acc : PlatformAccessory).

Record t : Type := mk {
  accessories : list (string * PlatformAccessory);
  discoveredCacheUUIDs : list string;
  calls : list api_call;
}.

Definition new : t := mk [] [] [].

(** [configureAccessory(accessory)] *)
Definition configureAccessory (p : t) (accessory : PlatformAccessory) : t :=
  mk (set (UUID accessory) accessory (accessories p))
     (discoveredCacheUUIDs p) (calls p).

(** The body of the first loop of [discoverDevices].  The assignment
    [existingAccessory.context.device = device] changes the object that
    the map holds. *)
Definition discoverDevice (generate : string -> string) (p : t) (device : Device) : t :=
  let uuid := generate (device_id device) in
  match get uuid (accessories p) with
  | Some existingAccessory =>
      let existingAccessory :=
        mkAccessory (UUID existingAccessory) (displayName existingAccessory) device in
      mk (set uuid existingAccessory (accessories p))
         (discoveredCacheUUIDs p ++ [uuid])
         (calls p ++ [updatePlatformAccessories existingAccessory;
                      newCreateCeilingFanAccessory existingAccessory])
  | None =>
      let accessory := mkAccessory uuid (device_name device) device in
      mk (accessories p)
         (discoveredCacheUUIDs p ++ [uuid])
         (calls p ++ [newCreateCeilingFanAccessory accessory;
                      registerPlatformAccessories accessory])
  end.

(** The body of the second loop. *)
Definition removeStale (discovered : list string) (cs : list api_call)
  (entry : string * PlatformAccessory) : list api_call :=
  if negb (includes discovered (fst entry))
  then cs ++ [unregisterPlatformAccessories (snd entry)]
  else cs.

(** [discoverDevices()] for [config.devices = devices]. *)
Definition discoverDevices (generate : string -> string) (devices : list Device)
  (p : t) : t :=
  let p := fold_left (discoverDevice generate) devices p in
  mk (accessories p) (discoveredCacheUUIDs p)
     (fold_left (removeStale (discoveredCacheUUIDs p)) (accessories p) (calls p)).

(** Start of the plugin: Homebridge restores the cached accessories, then
    [didFinishLaunching] runs [discoverDevices]. *)
Definition launch (generate : string -> string)
  (cached : list PlatformAccessory) (devices : list Device) : t :=
  discoverDevices generate devices (fold_left configureAccessory cached new).

(** The accessories handed to each kind of call, in call order. *)
Definition updated (cs : list api_call) : list PlatformAccessory :=
  flat_map (fun c => match c with updatePlatformAccessories x => [x] | _ => [] end) cs.
Definition registered (cs : list api_call) : list PlatformAccessory :=
  flat_map (fun c => match c with registerPlatformAccessories x => [x] | _ => [] end) cs.
Definition unregistered (cs : list api_call) : list PlatformAccessory :=
  flat_map (fun c => match c with unregisterPlatformAccessories x => [x] | _ => [] end) cs.
Definition handled (cs : list api_call) : list PlatformAccessory :=
  flat_map (fun c => match c with newCreateCeilingFanAccessory x => [x] | _ => [] end) cs.

(** What the first loop does for one device, told from the map as it was
    before the loop. *)
Definition plan (generate : string -> string)
  (m0 : list (string * PlatformAccessory)) (device : Device) : list api_call :=
  match get (generate (device_id device)) m0 with
  | Some cached =>
      let restored := mkAccessory (UUID cached) (displayName cached) device in
      [updatePlatformAccessories restored; newCreateCeilingFanAccessory restored]
  | None =>
      let accessory :=
        mkAccessory (generate (device_id device)) (device_name device) device in
      [newCreateCeilingFanAccessory accessory; registerPlatformAccessories accessory]
  end.

(** An entry of the map during the first loop, against the entry it was
    before: same key and identity, and untouched unless a device with its
    UUID has been seen. *)
Definition same_entry (seen : list string)
  (e e0 : string * PlatformAccessory) : Prop :=
  fst e = fst e0 /\ UUID (snd e) = UUID (snd e0) /\
  displayName (snd e) = displayName (snd e0) /\
  (~ In (fst e0) seen -> e = e0).

(** Every accessory is stored under its own UUID. *)
Definition keyed (m : list (string * PlatformAccessory)) : Prop :=
  Forall (fun e => UUID (snd e) = fst e) m.

End Platform.

(** ** The light service in the constructor, and [updateAccessoryState]

    [cachedLightbulb] tells whether the accessory restored from the cache
    already has a Lightbulb service ([getService] finds one). *)
Inductive log_line : Type :=
| info_stale_light_service_removed
| error_invalid_hasLight
| warn_deprecated_hasLight.

Record LightSetup : Type := mkLightSetup {
  lightService : bool;       (* [this.lightService] is set *)
  lightbulbAttached : bool;  (* the accessory has a Lightbulb service *)
  lightHandlers : bool;      (* [onGet]/[onSet] of the On characteristic are registered *)
  setupLog : list log_line;
}.

(** The part of the constructor that depends on
    [accessory.context.device.hasLight]. *)
Definition setupLight (hasLight : jsvalue) (cachedLightbulb : bool) : LightSetup :=
  let r :=
    if js_strict_eq hasLight (JBoolean false) || js_strict_eq hasLight (JString "no")
    then
      if cachedLightbulb
      then mkLightSetup true false false [info_stale_light_service_removed]
      else mkLightSetup false false false []
    else if js_strict_eq hasLight (JBoolean true)
            || js_strict_eq hasLight (JString "notDimmable")
    then mkLightSetup true true true []
    else mkLightSetup false cachedLightbulb false [error_invalid_hasLight] in
  if js_strict_eq hasLight (JBoolean true) || js_strict_eq hasLight (JBoolean false)
  then mkLightSetup (lightService r) (lightbulbAttached r) (lightHandlers r)
                    (setupLog r ++ [warn_deprecated_hasLight])
  else r.

(** [updateAccessoryState()]: the characteristic updates it makes, in
    order. *)
Definition updateAccessoryState (r : LightSetup) (st : DeviceState)
  : list (getter * CharacteristicValue) :=
  [(FanActive, fanActiveValueToCharacteristicValue st);
   (FanRotationSpeed, fanRotationSpeedValueToCharacteristicValue st);
   (FanRotationDirection, fanRotationDirectionValueToCharacteristicValue st)]
  ++ (if lightService r then [(LightOn, lightOnValueToCharacteristicValue st)] else []).

(** The two ways to configure a light, and the two ways to configure
    none. *)
Definition light_configured (hasLight : jsvalue) : Prop :=
  hasLight = JBoolean true \/ hasLight = JString "notDimmable".
Definition light_disabled (hasLight : jsvalue) : Prop :=
  hasLight = JBoolean false \/ hasLight = JString "no".

(** ** Proof steps for lookups in the list of calls *)

Ltac same_slot Hx Hx' t t' :=
  destruct (decide (t' = t)) as [-> | ?];
  [ rewrite Hx in Hx'; inversion Hx'; subst;
    eexists; apply list_lookup_insert_eq; eapply lookup_lt_Some, Hx
  | eexists; rewrite list_lookup_insert_ne by assumption; exact Hx ].

Ltac other_slot Hx Hx' t t' :=
  destruct (decide (t' = t)) as [-> | ?];
  [ rewrite Hx in Hx'; discriminate Hx'
  | eexists; rewrite list_lookup_insert_ne by assumption; exact Hx ].

(* ================================================================== *)
(** * Part II: properties *)
(* ================================================================== *)

(** ** Slider quantisation *)

Lemma adjustInputRotationSpeed_range (value : number) :
  adjustInputRotationSpeed value = Num 0 \/
  In (adjustInputRotationSpeed value) fanRotationSpeedNormalized.
Proof.
  unfold adjustInputRotationSpeed.
  destruct (strict_eq value (Num 0)); [left; reflexivity | right].
  repeat match goal with
         | |- context [if ?b then _ else _] => destruct b
         end; cbn; tauto.
Qed.

Lemma adjustInputRotationSpeed_fixed :
  Forall (fun x => adjustInputRotationSpeed x = x) (Num 0 :: fanRotationSpeedNormalized).
Proof. repeat constructor. Qed.

(** C10. [adjustInputRotationSpeed] is idempotent on every number (finite,
    infinite or NaN); an output is 0 or a member of the table
    [10, 30, 50, 70, 90, 100]; every member of the table is a fixed point;
    so a snapped value that is echoed back gives the same level and the
    same device speed. *)
Theorem adjustInputRotationSpeed_idempotent :
  (forall v : number,
      adjustInputRotationSpeed (adjustInputRotationSpeed v) = adjustInputRotationSpeed v) /\
  (forall v : number,
      adjustInputRotationSpeed v = Num 0 \/
      In (adjustInputRotationSpeed v) fanRotationSpeedNormalized) /\
  Forall (fun x => adjustInputRotationSpeed x = x) fanRotationSpeedNormalized /\
  (forall v : number,
      dpsRotationSpeed (adjustInputRotationSpeed (adjustInputRotationSpeed v))
      = dpsRotationSpeed (adjustInputRotationSpeed v)).
Proof.
  assert (Hidem : forall v : number,
             adjustInputRotationSpeed (adjustInputRotationSpeed v)
             = adjustInputRotationSpeed v).
  { intros v. pose proof adjustInputRotationSpeed_fixed as Hfix.
    rewrite Forall_forall in Hfix. apply Hfix.
    destruct (adjustInputRotationSpeed_range v) as [-> | Hin].
    - left.
    - right. apply list_elem_of_In, Hin. }
  split; [exact Hidem |].
  split; [exact adjustInputRotationSpeed_range |].
  split.
  - pose proof adjustInputRotationSpeed_fixed as Hfix.
    inversion Hfix; assumption.
  - intros v. rewrite Hidem. reflexivity.
Qed.

(** ** The debounce timer *)

Section Debounce.
Import Slider.

Lemma clearTimeout_wf (s : t) :
  wf s ->
  match fanSetSpeedDebounceTimer s with
  | Some h => clearTimeout h (timeouts s)
  | None => timeouts s
  end = [].
Proof.
  intros [Hnil | (h & d & v & Hh & Hts)].
  - rewrite Hnil. destruct (fanSetSpeedDebounceTimer s); reflexivity.
  - rewrite Hh, Hts. unfold clearTimeout. cbn.
    destruct (decide (h <> h)) as [Hne | _]; [congruence | reflexivity].
Qed.

Lemma handleFanRotationSpeedSet_armed (value : number) (s : t) :
  wf s -> armed_for value (dispatched s) (handleFanRotationSpeedSet value s).
Proof.
  intros Hwf. pose proof (clearTimeout_wf s Hwf) as Hclr.
  unfold armed_for, handleFanRotationSpeedSet.
  destruct (strict_eq (adjustInputRotationSpeed value) (Num 0)) eqn:Hz; cbn.
  - split; [reflexivity | left; split; [reflexivity | exact Hclr]].
  - split; [reflexivity | right; split; [reflexivity |]].
    exists (nextHandle s). rewrite Hclr. split; reflexivity.
Qed.

Lemma armed_for_wf (value : number) (D : list (Z * DPSValue)) (s : t) :
  armed_for value D s -> wf s.
Proof.
  intros [_ [[_ Hnil] | [_ (h & Hh & Hts)]]]; [left; exact Hnil | right].
  eauto.
Qed.

Lemma advance_wf (dt : N) (s : t) : wf s -> wf (advance dt s).
Proof.
  intros [Hnil | (h & d & v & Hh & Hts)]; unfold wf, advance; cbn.
  - rewrite Hnil. left; reflexivity.
  - rewrite Hts. cbn. destruct (due (clock s + dt) (h, (d, v))); cbn.
    + left; reflexivity.
    + right. eauto.
Qed.

Lemma input_wf (x : N * number) (s : t) : wf s -> wf (input x s).
Proof.
  intros Hwf. unfold input.
  eapply armed_for_wf, handleFanRotationSpeedSet_armed, advance_wf, Hwf.
Qed.

Lemma burst_wf (xs : list (N * number)) (s : t) : wf s -> wf (burst xs s).
Proof.
  revert s. induction xs as [| x xs IH]; intros s Hwf; cbn; [exact Hwf |].
  apply IH, input_wf, Hwf.
Qed.

(** Before the debounce period is over, time changes nothing but the
    clock. *)
Lemma advance_early (value : number) (D : list (Z * DPSValue)) (dt : N) (s : t) :
  armed_for value D s -> (dt < fanSetSpeedDebouncePeriod)%N ->
  dispatched (advance dt s) = D /\ wf (advance dt s).
Proof.
  intros Harm Hdt. split; [| eapply advance_wf, armed_for_wf, Harm].
  destruct Harm as [HD [[_ Hnil] | [_ (h & Hh & Hts)]]];
    unfold advance; cbn; rewrite <- HD.
  - rewrite Hnil. cbn. apply app_nil_r.
  - rewrite Hts. cbn. unfold due; cbn.
    destruct (N.leb_spec (clock s + fanSetSpeedDebouncePeriod) (clock s + dt));
      [lia | cbn; apply app_nil_r].
Qed.

(** Once the debounce period is over, the pending timer has fired. *)
Lemma advance_late (value : number) (D : list (Z * DPSValue)) (dt : N) (s : t) :
  armed_for value D s -> (fanSetSpeedDebouncePeriod <= dt)%N ->
  dispatched (advance dt s)
  = D ++ (if strict_eq (adjustInputRotationSpeed value) (Num 0) then []
          else [(62%Z, VNumber (dpsRotationSpeed (adjustInputRotationSpeed value)))]).
Proof.
  intros [HD [[Hz Hnil] | [Hz (h & Hh & Hts)]]] Hdt;
    unfold advance; cbn; rewrite <- HD, Hz.
  - rewrite Hnil. reflexivity.
  - rewrite Hts. cbn. unfold due; cbn.
    destruct (N.leb_spec (clock s + fanSetSpeedDebouncePeriod) (clock s + dt));
      [reflexivity | lia].
Qed.

Lemma last_input_cons (value : number) (x : N * number) (rest : list (N * number)) :
  last_input value (x :: rest) = last_input (snd x) rest.
Proof.
  unfold last_input. revert value x.
  induction rest as [| y rest IH]; intros value x; [reflexivity |].
  change (List.last (map snd (x :: y :: rest)) value)
    with (List.last (map snd (y :: rest)) value).
  rewrite (IH value y). symmetry. apply (IH (snd x) y).
Qed.

Lemma burst_armed (rest : list (N * number)) :
  forall (value : number) (D : list (Z * DPSValue)) (s : t),
    armed_for value D s ->
    Forall (fun x => (fst x < fanSetSpeedDebouncePeriod)%N) rest ->
    armed_for (last_input value rest) D (burst rest s).
Proof.
  induction rest as [| x rest IH]; intros value D s Harm Hgaps; [exact Harm |].
  inversion Hgaps as [| ? ? Hx Hrest]; subst.
  rewrite last_input_cons. cbn. apply IH; [| exact Hrest].
  destruct (advance_early value D (fst x) s Harm Hx) as [HD Hwf].
  unfold input. rewrite <- HD.
  apply handleFanRotationSpeedSet_armed, Hwf.
Qed.

End Debounce.

(** C5. The boundary table: 19 gives level 10 and device speed 1, 20 gives
    30 and 2, 94 gives 90 and 5, 95 gives 100 and 6; 0 gives level 0, and
    in every state the slider can be in the handler called with 0 leaves no
    timer pending, so that no speed command is dispatched however long one
    waits afterwards. *)
Theorem quantization_boundaries :
  (adjustInputRotationSpeed (Num 19) = Num 10 /\
   speed_command (Num 19) = [(62%Z, VNumber 1)]) /\
  (adjustInputRotationSpeed (Num 20) = Num 30 /\
   speed_command (Num 20) = [(62%Z, VNumber 2)]) /\
  (adjustInputRotationSpeed (Num 94) = Num 90 /\
   speed_command (Num 94) = [(62%Z, VNumber 5)]) /\
  (adjustInputRotationSpeed (Num 95) = Num 100 /\
   speed_command (Num 95) = [(62%Z, VNumber 6)]) /\
  adjustInputRotationSpeed (Num 0) = Num 0 /\
  speed_command (Num 0) = [] /\
  (forall (xs : list (N * number)) (gap dt : N),
      let s := Slider.advance gap (Slider.burst xs Slider.init) in
      let s' := Slider.handleFanRotationSpeedSet (Num 0) s in
      Slider.timeouts s' = [] /\
      Slider.dispatched (Slider.advance dt s') = Slider.dispatched s).
Proof.
  do 4 (split; [split; reflexivity |]).
  split; [reflexivity |]. split; [reflexivity |].
  intros xs gap dt s s'.
  assert (Hwf : Slider.wf s).
  { apply advance_wf, burst_wf. left; reflexivity. }
  pose proof (handleFanRotationSpeedSet_armed (Num 0) s Hwf) as Harm.
  fold s' in Harm.
  destruct Harm as [HD [[_ Hnil] | [Hz _]]]; [| discriminate Hz].
  split; [exact Hnil |].
  unfold Slider.advance; cbn. rewrite Hnil, HD. cbn. apply app_nil_r.
Qed.

(** C6, as the code has it.  A burst starts with [value] in a state with at
    most one pending debounce timer and goes on with inputs that each
    arrive less than the debounce period after the one before.  Whatever
    time [wait] passes after the last input, the commands dispatched since
    the burst began are: nothing while [wait] is shorter than the debounce
    period; afterwards the single command for the quantised last input when
    that input is not 0, and nothing when it is 0. *)
Theorem debounce_last_input_only
  (s : Slider.t) (value : number) (rest : list (N * number)) (wait : N) :
  Slider.wf s ->
  Forall (fun x => (fst x < fanSetSpeedDebouncePeriod)%N) rest ->
  Slider.dispatched
    (Slider.advance wait
       (Slider.burst rest (Slider.handleFanRotationSpeedSet value s)))
  = Slider.dispatched s ++
    (if (fanSetSpeedDebouncePeriod <=? wait)%N
     then speed_command (Slider.last_input value rest)
     else []).
Proof.
  intros Hwf Hgaps.
  pose proof (burst_armed rest value _ _
                (handleFanRotationSpeedSet_armed value s Hwf) Hgaps) as Harm.
  destruct (N.leb_spec fanSetSpeedDebouncePeriod wait) as [Hle | Hlt].
  - apply (advance_late _ _ _ _ Harm Hle).
  - rewrite app_nil_r. apply (advance_early _ _ _ _ Harm Hlt).
Qed.

(** Witness of C6: the burst 42, 45, 58 with gaps of 100 ms, then one
    second of rest, dispatches the one command for device speed 3. *)
Lemma debounce_last_input_only_witness :
  Slider.dispatched
    (Slider.advance 1000
       (Slider.burst [(100%N, Num 45); (100%N, Num 58)]
          (Slider.handleFanRotationSpeedSet (Num 42) Slider.init)))
  = [(62%Z, VNumber 3)].
Proof.
  apply (debounce_last_input_only Slider.init (Num 42)
           [(100%N, Num 45); (100%N, Num 58)] 1000%N).
  - left; reflexivity.
  - repeat constructor.
Defined.

(** C6 as stated fails when the burst ends on 0: 42 followed 100 ms later by
    0 dispatches no command at all, not one. *)
Lemma debounce_burst_ending_in_zero :
  Forall (fun x => (fst x < fanSetSpeedDebouncePeriod)%N)
         [(0%N, Num 42); (100%N, Num 0)] /\
  forall wait : N,
    length (Slider.dispatched
              (Slider.advance wait
                 (Slider.burst [(0%N, Num 42); (100%N, Num 0)] Slider.init)))
    <> 1.
Proof.
  split; [repeat constructor |].
  intros wait.
  assert (Harm : Slider.armed_for (Num 0) []
                   (Slider.burst [(0%N, Num 42); (100%N, Num 0)] Slider.init)).
  { apply (burst_armed [(100%N, Num 0)] (Num 42) [] (Slider.input (0%N, Num 42) Slider.init)).
    - apply (handleFanRotationSpeedSet_armed (Num 42) Slider.init). left; reflexivity.
    - repeat constructor. }
  destruct (N.leb_spec fanSetSpeedDebouncePeriod wait) as [Hle | Hlt].
  - rewrite (advance_late _ _ _ _ Harm Hle). cbn. discriminate.
  - destruct (advance_early _ _ _ _ Harm Hlt) as [-> _]. cbn. discriminate.
Qed.

(** ** The mutex *)

Section MutexClients.
Import Mutex.

Lemma start_invariant : invariant start.
Proof. split; reflexivity || (cbn; lia). Qed.

Lemma seq_snoc (a n : nat) : seq a n ++ [a + n] = seq a (S n).
Proof. symmetry. apply seq_S. Qed.

Lemma exec_Lock_invariant (s s' : clients) :
  invariant s -> exec Lock s = Some s' -> invariant s'.
Proof.
  intros [Hle Hlk Hq Hh Hg] Hexec.
  unfold exec, lock, acquireLock in Hexec. rewrite Hlk in Hexec.
  destruct (Nat.ltb_spec (released s) (issued s)) as [Hlt | Hge];
    cbn in Hexec; injection Hexec as <-; split;
    cbn [released issued mutex holders granted isLocked waitingQueue resolved].
  - lia.
  - symmetry. apply Nat.ltb_lt. lia.
  - rewrite Hq.
    replace (S (issued s) - S (released s)) with (S (issued s - S (released s)))
      by lia.
    rewrite <- seq_snoc. do 2 f_equal. lia.
  - rewrite Hh, app_nil_r.
    destruct (Nat.ltb_spec (released s) (S (issued s))); [reflexivity | lia].
  - rewrite Hg, app_nil_r. f_equal. lia.
  - lia.
  - symmetry. apply Nat.ltb_lt. lia.
  - rewrite Hq. replace (issued s - S (released s)) with 0 by lia.
    replace (S (issued s) - S (released s)) with 0 by lia. reflexivity.
  - rewrite Hh. cbn [app].
    destruct (Nat.ltb_spec (released s) (S (issued s))); [| lia].
    f_equal. lia.
  - rewrite Hg.
    replace (Nat.min (S (released s)) (issued s)) with (issued s) by lia.
    replace (Nat.min (S (released s)) (S (issued s))) with (S (issued s)) by lia.
    apply (seq_snoc 0).
Qed.

Lemma exec_Release_invariant (c : nat) (s s' : clients) :
  invariant s -> exec (Release c) s = Some s' -> invariant s'.
Proof.
  intros [Hle Hlk Hq Hh Hg] Hexec.
  unfold exec in Hexec.
  destruct (bool_decide (c ∈ holders s)) eqn:Hc; [| discriminate].
  apply bool_decide_eq_true in Hc. rewrite Hh in Hc.
  destruct (Nat.ltb_spec (released s) (issued s)) as [Hlt | Hge];
    [| inversion Hc].
  apply list_elem_of_singleton in Hc. subst c.
  assert (Hfilter : filter (fun x => x <> released s) (holders s) = []).
  { rewrite Hh. cbn. destruct (decide (released s <> released s)); congruence. }
  unfold unlock, acquireLock in Hexec. rewrite Hq, Hfilter in Hexec.
  destruct (issued s - S (released s)) as [| k] eqn:Hk;
    cbn in Hexec; injection Hexec as <-; split;
    cbn [released issued mutex holders granted isLocked waitingQueue resolved].
  - lia.
  - symmetry. apply Nat.ltb_ge. lia.
  - replace (issued s - S (S (released s))) with 0 by lia. reflexivity.
  - destruct (Nat.ltb_spec (S (released s)) (issued s)); [lia | reflexivity].
  - rewrite Hg, app_nil_r. f_equal. lia.
  - lia.
  - symmetry. apply Nat.ltb_lt. lia.
  - f_equal. lia.
  - destruct (Nat.ltb_spec (S (released s)) (issued s)); [reflexivity | lia].
  - rewrite Hg.
    replace (Nat.min (S (released s)) (issued s)) with (S (released s)) by lia.
    replace (Nat.min (S (S (released s))) (issued s)) with (S (S (released s)))
      by lia.
    apply (seq_snoc 0).
Qed.

Lemma exec_invariant (e : call) (s s' : clients) :
  invariant s -> exec e s = Some s' -> invariant s'.
Proof.
  destruct e; [apply exec_Lock_invariant | apply exec_Release_invariant].
Qed.

Lemma run_invariant (es : list call) :
  forall s s', invariant s -> run es s = Some s' -> invariant s'.
Proof.
  induction es as [| e es IH]; intros s s' Hinv Hrun; cbn in Hrun.
  - injection Hrun as <-. exact Hinv.
  - destruct (exec e s) as [s1 |] eqn:He; [| discriminate].
    eapply IH; [eapply exec_invariant; eassumption | exact Hrun].
Qed.

(** Every point of a run is the end of a run. *)
Lemma run_prefix (es es' : list call) :
  forall s s', run (es ++ es') s = Some s' ->
               exists s1, run es s = Some s1 /\ run es' s1 = Some s'.
Proof.
  induction es as [| e es IH]; intros s s' Hrun; cbn in *.
  - eauto.
  - destruct (exec e s) as [s1 |]; [apply IH, Hrun | discriminate].
Qed.

End MutexClients.

(** C1. Take any run of [lock()] calls and releases in which a release
    function is called by the holder it was handed to, and any point of
    that run.  The promises resolved so far are those of the calls
    0, 1, 2, ... in the order the calls were issued, one more than there
    were releases (or all of them); the calls still waiting are the
    following ones, in issue order; and the holders are at most one call,
    the one numbered by the count of releases. *)
Theorem mutex_fifo_single_holder
  (es es' : list Mutex.call) (s : Mutex.clients) :
  Mutex.run (es ++ es') Mutex.start = Some s ->
  exists s1,
    Mutex.run es Mutex.start = Some s1 /\
    Mutex.granted s1
    = seq 0 (Nat.min (S (Mutex.released s1)) (Mutex.issued s1)) /\
    Mutex.waitingQueue (Mutex.mutex s1)
    = seq (S (Mutex.released s1)) (Mutex.issued s1 - S (Mutex.released s1)) /\
    Mutex.holders s1
    = (if Mutex.released s1 <? Mutex.issued s1 then [Mutex.released s1] else []) /\
    length (Mutex.holders s1) <= 1.
Proof.
  intros Hrun.
  destruct (run_prefix es es' _ _ Hrun) as (s1 & Hs1 & _).
  exists s1. split; [exact Hs1 |].
  destruct (run_invariant es _ _ start_invariant Hs1) as [_ _ Hq Hh Hg].
  repeat split; try assumption.
  rewrite Hh. destruct (Mutex.released s1 <? Mutex.issued s1); cbn; lia.
Qed.

(** Witness of C1: three calls of [lock()], then the three holders release
    in turn; the promises were resolved in the order 0, 1, 2. *)
Lemma mutex_fifo_single_holder_witness :
  exists s1,
    Mutex.run [Mutex.Lock; Mutex.Lock; Mutex.Lock;
               Mutex.Release 0; Mutex.Release 1; Mutex.Release 2]
              Mutex.start = Some s1 /\
    Mutex.granted s1
    = seq 0 (Nat.min (S (Mutex.released s1)) (Mutex.issued s1)) /\
    Mutex.waitingQueue (Mutex.mutex s1)
    = seq (S (Mutex.released s1)) (Mutex.issued s1 - S (Mutex.released s1)) /\
    Mutex.holders s1
    = (if Mutex.released s1 <? Mutex.issued s1 then [Mutex.released s1] else []) /\
    length (Mutex.holders s1) <= 1.
Proof.
  apply (mutex_fifo_single_holder
           [Mutex.Lock; Mutex.Lock; Mutex.Lock;
            Mutex.Release 0; Mutex.Release 1; Mutex.Release 2]
           []
           (Mutex.mkClients Mutex.new 3 [] [0; 1; 2] 3)).
  vm_compute. reflexivity.
Defined.

(** ** The accessory: consistency of flag, mutex and calls in progress *)

Section Consistency.

Lemma constructed_consistent : consistent constructed.
Proof.
  split; cbn.
  - intros t1 t2 x1 x2 H. inversion H.
  - intros _ t x H. inversion H.
  - discriminate.
  - intros t H. inversion H.
  - intros t x H. inversion H.
  - intros t H. inversion H.
  - constructor.
  - left; reflexivity.
  - reflexivity.
  - reflexivity.
Qed.

Lemma free_no_owner (a : Accessory) :
  consistent a -> Mutex.isLocked (mutex a) = false -> owners a = [].
Proof.
  intros Hc Hf. rewrite (locked_owner a Hc) in Hf.
  apply negb_false_iff, bool_decide_eq_true in Hf. exact Hf.
Qed.

(** A turn that leaves the four fields alone keeps the state consistent. *)
Lemma consistent_frame (a a' : Accessory) :
  tasks a' = tasks a -> owners a' = owners a -> mutex a' = mutex a ->
  isGetStatusInProgress a' = isGetStatusInProgress a ->
  consistent a -> consistent a'.
Proof.
  intros Ht Ho Hm Hf [H1 H2 H3 H4 H5 H6 H7 H8 H9 H10].
  split; rewrite ?Ht, ?Ho, ?Hm, ?Hf; assumption.
Qed.

Lemma lookup_update_old (l : list task) (t i : nat) (x x' y : task) :
  l !! t = Some x -> <[t := x']> l !! i = Some y ->
  (i = t /\ y = x') \/ (i <> t /\ l !! i = Some y).
Proof.
  intros Hx Hy. apply list_lookup_insert_Some in Hy.
  destruct Hy as [(-> & -> & _) | (Hne & Hy)]; [left | right]; auto.
Qed.

Lemma lookup_update_new (l : list task) (t i : nat) (x x' y : task) :
  l !! t = Some x -> l !! i = Some y ->
  exists y', <[t := x']> l !! i = Some y' /\
             ((i = t /\ y = x /\ y' = x') \/ (i <> t /\ y' = y)).
Proof.
  intros Hx Hy. destruct (decide (i = t)) as [-> | Hne].
  - exists x'. split.
    + apply list_lookup_insert_eq. eapply lookup_lt_Some, Hx.
    + left. split; [reflexivity | split; [congruence | reflexivity]].
  - exists y. split; [rewrite list_lookup_insert_ne; auto | right; auto].
Qed.

Lemma polling_dec (x : task) : polling x \/ ~ polling x.
Proof. destruct x as [[]|? ? []]; cbn; tauto. Qed.

Lemma awaiting_not_critical (x : task) :
  awaiting_lock x -> in_critical_section x -> False.
Proof. destruct x as [[]|? ? []]; cbn; tauto. Qed.

(** A call moves on, inside the critical section or into it, staying the
    same call for the poller flag. *)
Lemma consistent_update (a a' : Accessory) (t : nat) (x x' : task) :
  tasks a !! t = Some x ->
  (polling x <-> polling x') ->
  (in_critical_section x' -> t ∈ owners a) ->
  (t ∈ owners a -> awaiting_lock x' \/ in_critical_section x') ->
  (t ∈ Mutex.waitingQueue (mutex a) -> awaiting_lock x') ->
  tasks a' = <[t := x']> (tasks a) ->
  owners a' = owners a -> mutex a' = mutex a ->
  isGetStatusInProgress a' = isGetStatusInProgress a ->
  consistent a -> consistent a'.
Proof.
  intros Hx Hp Hcs Hown Hq Ht Ho Hm Hf [H1 H2 H3 H4 H5 H6 H7 H8 H9 H10].
  split; rewrite ?Ht, ?Ho, ?Hm, ?Hf; try assumption.
  - intros t1 t2 x1 x2 L1 P1 L2 P2.
    destruct (lookup_update_old _ _ _ _ _ _ Hx L1) as [[-> ->] | [N1 O1]];
      destruct (lookup_update_old _ _ _ _ _ _ Hx L2) as [[-> ->] | [N2 O2]];
      [reflexivity | | |].
    + apply (H1 t t2 x x2); tauto.
    + apply (H1 t1 t x1 x); tauto.
    + apply (H1 t1 t2 x1 x2); tauto.
  - intros Hflag i y L P.
    destruct (lookup_update_old _ _ _ _ _ _ Hx L) as [[-> ->] | [N O]].
    + apply (H2 Hflag t x); tauto.
    + apply (H2 Hflag i y); tauto.
  - intros Hflag. destruct (H3 Hflag) as (i & y & L & P).
    destruct (lookup_update_new _ t i x x' y Hx L) as (y' & L' & Hcase).
    exists i, y'. split; [exact L' |].
    destruct Hcase as [(-> & -> & ->) | (N & ->)]; tauto.
  - intros i Hi. destruct (H4 i Hi) as (y & L & P).
    destruct (lookup_update_new _ t i x x' y Hx L) as (y' & L' & Hcase).
    exists y'. split; [exact L' |].
    destruct Hcase as [(-> & -> & ->) | (N & ->)]; tauto.
  - intros i y L P.
    destruct (lookup_update_old _ _ _ _ _ _ Hx L) as [[-> ->] | [N O]].
    + tauto.
    + apply (H5 i y); tauto.
  - intros i Hi. destruct (H6 i Hi) as [(y & L & P) Hno]. split; [| exact Hno].
    destruct (lookup_update_new _ t i x x' y Hx L) as (y' & L' & Hcase).
    exists y'. split; [exact L' |].
    destruct Hcase as [(-> & -> & ->) | (N & ->)]; tauto.
Qed.

Lemma Mutex_lock_cases (t : nat) (m : Mutex.t) :
  (Mutex.isLocked m = false /\
   Mutex.lock t m = (Mutex.mk true (Mutex.waitingQueue m), Some t)) \/
  (Mutex.isLocked m = true /\
   Mutex.lock t m = (Mutex.mk true (Mutex.waitingQueue m ++ [t]), None)).
Proof.
  unfold Mutex.lock, Mutex.acquireLock.
  destruct (Mutex.isLocked m); cbn; [right | left]; split; reflexivity.
Qed.

Lemma Mutex_unlock_cases (m : Mutex.t) :
  (Mutex.waitingQueue m = [] /\ Mutex.unlock m = (Mutex.mk false [], None)) \/
  (exists n rest, Mutex.waitingQueue m = n :: rest /\
                  Mutex.unlock m = (Mutex.mk true rest, Some n)).
Proof.
  unfold Mutex.unlock, Mutex.acquireLock.
  destruct (Mutex.waitingQueue m) as [| n rest]; cbn; [left | right]; eauto.
Qed.

Lemma lookup_snoc_old (l : list task) (x y : task) (i : nat) :
  (l ++ [x]) !! i = Some y ->
  (i < length l /\ l !! i = Some y) \/ (i = length l /\ y = x).
Proof.
  intros H. apply lookup_snoc_Some in H. destruct H as [[? ?] | [-> ->]]; auto.
Qed.

Lemma lookup_snoc_new (l : list task) (x y : task) (i : nat) :
  l !! i = Some y -> (l ++ [x]) !! i = Some y /\ i <> length l.
Proof.
  intros H. pose proof (lookup_lt_Some _ _ _ H).
  split; [apply lookup_app_l_Some, H | lia].
Qed.

(** A new call is made and calls [lock()]. *)
Lemma consistent_spawn (a a' : Accessory) (x : task) :
  awaiting_lock x ->
  tasks a' = tasks a ++ [x] ->
  mutex a' = fst (Mutex.lock (length (tasks a)) (mutex a)) ->
  owners a' = owners a ++ Mutex.resolved (snd (Mutex.lock (length (tasks a)) (mutex a))) ->
  (polling x -> isGetStatusInProgress a = false /\ isGetStatusInProgress a' = true) ->
  (~ polling x -> isGetStatusInProgress a' = isGetStatusInProgress a) ->
  consistent a -> consistent a'.
Proof.
  intros Hw Ht Hm Ho Hpoll Hnopoll Hc.
  pose proof Hc as [H1 H2 H3 H4 H5 H6 H7 H8 H9 H10].
  assert (Hfresh_own : length (tasks a) ∉ owners a).
  { intros Hin. destruct (H4 _ Hin) as (y & L & _).
    apply lookup_lt_Some in L. lia. }
  assert (Hfresh_q : length (tasks a) ∉ Mutex.waitingQueue (mutex a)).
  { intros Hin. destruct (H6 _ Hin) as [(y & L & _) _].
    apply lookup_lt_Some in L. lia. }
  assert (Hlock :
            (mutex a' = Mutex.mk true (Mutex.waitingQueue (mutex a)) /\
             owners a' = [length (tasks a)] /\ owners a = []) \/
            (mutex a' = Mutex.mk true (Mutex.waitingQueue (mutex a) ++ [length (tasks a)]) /\
             owners a' = owners a /\ Mutex.isLocked (mutex a) = true)).
  { destruct (Mutex_lock_cases (length (tasks a)) (mutex a)) as [[Hf E] | [Hl E]];
      rewrite E in Hm, Ho; cbn in Hm, Ho; [left | right].
    - rewrite (free_no_owner a Hc Hf) in *. auto.
    - rewrite app_nil_r in Ho. auto. }
  split; rewrite ?Ht.
  - intros t1 t2 x1 x2 L1 P1 L2 P2.
    destruct (lookup_snoc_old _ _ _ _ L1) as [[_ O1] | [-> ->]];
      destruct (lookup_snoc_old _ _ _ _ L2) as [[_ O2] | [-> ->]].
    + eapply H1; eassumption.
    + destruct (Hpoll P2) as [Hfl _]. destruct (H2 Hfl _ _ O1 P1).
    + destruct (Hpoll P1) as [Hfl _]. destruct (H2 Hfl _ _ O2 P2).
    + reflexivity.
  - intros Hflag i y L P.
    destruct (lookup_snoc_old _ _ _ _ L) as [[_ O] | [-> ->]].
    + assert (Hnp : ~ polling x).
      { intros Px. destruct (Hpoll Px) as [_ Htrue]. congruence. }
      rewrite (Hnopoll Hnp) in Hflag. apply (H2 Hflag i y O P).
    + destruct (Hpoll P) as [_ Htrue]. congruence.
  - intros Hflag.
    destruct (polling_dec x) as [Px | Hnp].
    + exists (length (tasks a)), x. split; [apply lookup_snoc_Some; auto | exact Px].
    + rewrite (Hnopoll Hnp) in Hflag. destruct (H3 Hflag) as (i & y & L & P).
      exists i, y. split; [apply lookup_snoc_new, L | exact P].
  - intros i Hi.
    destruct Hlock as [(_ & Ho' & _) | (_ & Ho' & _)]; rewrite Ho' in Hi.
    + apply list_elem_of_singleton in Hi. subst i.
      exists x. split; [apply lookup_snoc_Some; auto | auto].
    + destruct (H4 i Hi) as (y & L & P).
      exists y. split; [apply lookup_snoc_new, L | exact P].
  - intros i y L P.
    destruct (lookup_snoc_old _ _ _ _ L) as [[_ O] | [-> ->]].
    + pose proof (H5 i y O P) as Hin.
      destruct Hlock as [(_ & _ & Hnil) | (_ & Ho' & _)].
      * rewrite Hnil in Hin. inversion Hin.
      * rewrite Ho'. exact Hin.
    + destruct (awaiting_not_critical x Hw P).
  - intros i Hi.
    destruct Hlock as [(Hm' & Ho' & _) | (Hm' & Ho' & _)];
      rewrite Hm' in Hi; rewrite Ho'; cbn in Hi.
    + destruct (H6 i Hi) as [(y & L & P) Hno]. split.
      * exists y. split; [apply lookup_snoc_new, L | exact P].
      * intros Hin. apply list_elem_of_singleton in Hin. subst i.
        apply lookup_lt_Some in L. lia.
    + apply elem_of_app in Hi. destruct Hi as [Hi | Hi].
      * destruct (H6 i Hi) as [(y & L & P) Hno]. split; [| exact Hno].
        exists y. split; [apply lookup_snoc_new, L | exact P].
      * apply list_elem_of_singleton in Hi. subst i. split; [| exact Hfresh_own].
        exists x. split; [apply lookup_snoc_Some; auto | exact Hw].
  - destruct Hlock as [(Hm' & _) | (Hm' & _)]; rewrite Hm'; cbn; [exact H7 |].
    apply NoDup_app. split; [exact H7 | split].
    + intros i Hi Hi'. apply list_elem_of_singleton in Hi'. subst i. auto.
    + apply NoDup_singleton.
  - destruct Hlock as [(_ & Ho' & _) | (_ & Ho' & _)]; rewrite Ho'; eauto.
  - destruct Hlock as [(Hm' & Ho' & _) | (Hm' & Ho' & Hl)]; rewrite Hm', Ho'; cbn.
    + reflexivity.
    + rewrite <- Hl. exact H9.
  - destruct Hlock as [(Hm' & _) | (Hm' & _)]; rewrite Hm'; cbn; discriminate.
Qed.

(** A call in the critical section runs its [finally] and ends. *)
Lemma consistent_finish (a a' : Accessory) (t : nat) (x x' : task) :
  tasks a !! t = Some x ->
  in_critical_section x ->
  ~ live x' ->
  tasks a' = <[t := x']> (tasks a) ->
  mutex a' = fst (Mutex.unlock (mutex a)) ->
  owners a' = filter (fun i => i <> t) (owners a)
                ++ Mutex.resolved (snd (Mutex.unlock (mutex a))) ->
  (polling x -> isGetStatusInProgress a' = false) ->
  (~ polling x -> isGetStatusInProgress a' = isGetStatusInProgress a) ->
  consistent a -> consistent a'.
Proof.
  intros Hx Hcs Hdead Ht Hm Ho Hpoll Hnopoll Hc.
  pose proof Hc as [H1 H2 H3 H4 H5 H6 H7 H8 H9 H10].
  assert (Hnp' : ~ polling x') by (destruct x' as [[]|? ? []]; cbn in *; tauto).
  assert (Hnw' : ~ awaiting_lock x') by (destruct x' as [[]|? ? []]; cbn in *; tauto).
  assert (Hnc' : ~ in_critical_section x')
    by (destruct x' as [[]|? ? []]; cbn in *; tauto).
  assert (Hown : owners a = [t]).
  { pose proof (H5 t x Hx Hcs) as Hin.
    destruct H8 as [Hnil | [t' Hone]]; rewrite ?Hnil, ?Hone in Hin.
    - inversion Hin.
    - apply list_elem_of_singleton in Hin. congruence. }
  assert (Hfilter : filter (fun i => i <> t) (owners a) = []).
  { rewrite Hown. cbn. destruct (decide (t <> t)); congruence. }
  rewrite Hfilter in Ho. cbn in Ho.
  assert (Hunlock :
            (Mutex.waitingQueue (mutex a) = [] /\
             mutex a' = Mutex.mk false [] /\ owners a' = []) \/
            (exists n rest, Mutex.waitingQueue (mutex a) = n :: rest /\
                            mutex a' = Mutex.mk true rest /\ owners a' = [n])).
  { destruct (Mutex_unlock_cases (mutex a)) as [[Hq E] | (n & rest & Hq & E)];
      rewrite E in Hm, Ho; cbn in Hm, Ho; [left | right]; eauto. }
  assert (Hother : forall i y, <[t := x']> (tasks a) !! i = Some y ->
                               polling y \/ awaiting_lock y \/ in_critical_section y ->
                               i <> t /\ tasks a !! i = Some y).
  { intros i y L P.
    destruct (lookup_update_old _ _ _ _ _ _ Hx L) as [[-> ->] | [N O]]; tauto. }
  assert (Hkeep : forall i y, tasks a !! i = Some y -> i <> t ->
                              <[t := x']> (tasks a) !! i = Some y).
  { intros i y L N. rewrite list_lookup_insert_ne; auto. }
  split; rewrite ?Ht.
  - intros t1 t2 x1 x2 L1 P1 L2 P2.
    destruct (Hother _ _ L1 (or_introl P1)) as [_ O1].
    destruct (Hother _ _ L2 (or_introl P2)) as [_ O2].
    eapply H1; eassumption.
  - intros Hflag i y L P.
    destruct (Hother _ _ L (or_introl P)) as [N O].
    destruct (polling_dec x) as [Px | Hnp].
    + apply N. apply (H1 i t y x O P Hx Px).
    + rewrite (Hnopoll Hnp) in Hflag. apply (H2 Hflag i y O P).
  - intros Hflag.
    assert (Hnp : ~ polling x).
    { intros Px. rewrite (Hpoll Px) in Hflag. discriminate. }
    rewrite (Hnopoll Hnp) in Hflag. destruct (H3 Hflag) as (i & y & L & P).
    exists i, y. split; [| exact P]. apply Hkeep; [exact L |].
    intros ->. congruence.
  - intros i Hi.
    destruct Hunlock as [(_ & _ & Ho') | (n & rest & Hq & _ & Ho')];
      rewrite Ho' in Hi; [inversion Hi |].
    apply list_elem_of_singleton in Hi. subst i.
    destruct (H6 n) as [(y & L & P) Hno]; [rewrite Hq; left |].
    exists y. split; [| auto]. apply Hkeep; [exact L |].
    intros ->. apply Hno. rewrite Hown. left.
  - intros i y L P.
    destruct (Hother _ _ L (or_intror (or_intror P))) as [N O].
    pose proof (H5 i y O P) as Hin. rewrite Hown in Hin.
    apply list_elem_of_singleton in Hin. contradiction.
  - intros i Hi.
    destruct Hunlock as [(_ & Hm' & _) | (n & rest & Hq & Hm' & Ho')];
      rewrite Hm' in Hi; cbn in Hi; [inversion Hi |].
    rewrite Hq in H6, H7.
    destruct (H6 i) as [(y & L & P) Hno]; [right; exact Hi |].
    split.
    + exists y. split; [| exact P]. apply Hkeep; [exact L |].
      intros ->. apply Hno. rewrite Hown. left.
    + rewrite Ho'. intros Hin. apply list_elem_of_singleton in Hin. subst i.
      apply NoDup_cons in H7. tauto.
  - destruct Hunlock as [(_ & Hm' & _) | (n & rest & Hq & Hm' & _)];
      rewrite Hm'; cbn; [constructor |].
    rewrite Hq in H7. apply NoDup_cons in H7. tauto.
  - destruct Hunlock as [(_ & _ & Ho') | (n & rest & _ & _ & Ho')];
      rewrite Ho'; eauto.
  - destruct Hunlock as [(_ & Hm' & Ho') | (n & rest & _ & Hm' & Ho')];
      rewrite Hm', Ho'; reflexivity.
  - destruct Hunlock as [(_ & Hm' & _) | (n & rest & _ & Hm' & _)];
      rewrite Hm'; cbn; [reflexivity | discriminate].
Qed.

Lemma getDeviceStatus_consistent (a : Accessory) :
  consistent a -> consistent (getDeviceStatus a).
Proof.
  intros Hc. unfold getDeviceStatus.
  change (isGetStatusInProgress (clearTimeout (getDeviceStatusTimer a) a))
    with (isGetStatusInProgress a).
  destruct (isGetStatusInProgress a) eqn:Hflag; cbn [negb].
  - eapply consistent_frame; [.. | exact Hc]; reflexivity.
  - eapply (consistent_spawn a _ (GetDeviceStatus PollLock));
      [exact I | reflexivity | reflexivity | reflexivity | | | exact Hc].
    + intros _. split; [exact Hflag | reflexivity].
    + intros Hnp. destruct (Hnp I).
Qed.

Lemma handleGet_state (g : getter) (a : Accessory) :
  fst (handleGet g a) = getDeviceStatus a.
Proof.
  destruct g; cbn;
    unfold handleFanActiveStateGet, handleFanRotationSpeedGet,
      handleFanRotationDirectionGet, handleLightOnGet;
    destruct (throwErrorIfDeviceUnresponsive (state (getDeviceStatus a)));
    reflexivity.
Qed.

Lemma getDeviceStatus_catch_consistent (t : nat) (a0 a : Accessory) :
  tasks a0 = tasks a -> owners a0 = owners a -> mutex a0 = mutex a ->
  isGetStatusInProgress a0 = isGetStatusInProgress a ->
  forall x, tasks a !! t = Some (GetDeviceStatus x) ->
            in_critical_section (GetDeviceStatus x) ->
            consistent a -> consistent (getDeviceStatus_catch t a0).
Proof.
  intros Ht Ho Hm Hf x Hx Hcs Hc.
  eapply (consistent_finish a _ t (GetDeviceStatus x) (GetDeviceStatus PollDone));
    [exact Hx | exact Hcs | cbn; tauto | cbn; rewrite Ht; reflexivity
    | cbn; rewrite Hm; reflexivity | cbn; rewrite Ho, Hm; reflexivity
    | reflexivity | | exact Hc].
  intros Hnp. destruct x; cbn in *; tauto.
Qed.

Lemma abandon_frame {A : Type} (r : raced A) (a : Accessory) :
  tasks (abandon r a) = tasks a /\ owners (abandon r a) = owners a /\
  mutex (abandon r a) = mutex a /\
  isGetStatusInProgress (abandon r a) = isGetStatusInProgress a /\
  state (abandon r a) = state a /\
  deviceCommunicator (abandon r a) = deviceCommunicator a.
Proof. destruct r; cbn; auto 10. Qed.

(** Every turn keeps the state consistent. *)
Lemma step_consistent (e : event) (a a' : Accessory) :
  consistent a -> step e a = Some a' -> consistent a'.
Proof.
  intros Hc Hstep. destruct e; cbn in Hstep.
  - (* TimerFires *)
    destruct (bool_decide _); [| discriminate]. injection Hstep as <-.
    apply getDeviceStatus_consistent.
    eapply consistent_frame; [.. | exact Hc]; reflexivity.
  - (* HomeKitGet *)
    injection Hstep as <-. rewrite handleGet_state.
    apply getDeviceStatus_consistent, Hc.
  - (* Dispatch *)
    injection Hstep as <-.
    eapply (consistent_spawn a _ (SetDeviceValue dps value SendLock None));
      [exact I | reflexivity | reflexivity | reflexivity | | | exact Hc].
    + intros [].
    + reflexivity.
  - (* Granted *)
    destruct (bool_decide (t ∈ owners a)) eqn:Hown; [| discriminate].
    apply bool_decide_eq_true in Hown.
    destruct (tasks a !! t) as [[[] | dps value [] caller] |] eqn:Hx;
      try discriminate; injection Hstep as <-.
    + eapply (consistent_update a _ t _ (GetDeviceStatus PollConnect));
        [exact Hx | cbn; tauto | auto | cbn; auto | | reflexivity ..
        | exact Hc].
      intros Hq. destruct (queue_waits a Hc t Hq) as [_ Hno]. contradiction.
    + eapply (consistent_update a _ t _ (SetDeviceValue dps value SendConnect caller));
        [exact Hx | cbn; tauto | auto | cbn; auto | | reflexivity ..
        | exact Hc].
      intros Hq. destruct (queue_waits a Hc t Hq) as [_ Hno]. contradiction.
  - (* Connected *)
    destruct (tasks a !! t) as [[[] | ] |] eqn:Hx; try discriminate.
    injection Hstep as <-. unfold getDeviceStatus_connected.
    pose proof (critical_owner a Hc t _ Hx I) as Hown.
    destruct (waitForPromiseWithTimeout r getDeviceStatusConnectTimeout).
    + eapply (consistent_update a _ t _ (GetDeviceStatus PollRead));
        [exact Hx | cbn; tauto | auto | cbn; auto | | reflexivity ..
        | exact Hc].
      intros Hq. destruct (queue_waits a Hc t Hq) as [_ Hno]. contradiction.
    + destruct (abandon_frame r a) as (Ht & Ho & Hm & Hf & _).
      eapply (getDeviceStatus_catch_consistent t _ a Ht Ho Hm Hf _ Hx I Hc).
  - (* Read *)
    destruct (tasks a !! t) as [[[] | ] |] eqn:Hx; try discriminate.
    injection Hstep as <-. unfold getDeviceStatus_read.
    destruct (waitForPromiseWithTimeout r getDeviceStatusReadTimeout).
    + eapply (consistent_finish a _ t _ (GetDeviceStatus PollDone));
        [exact Hx | exact I | cbn; tauto | reflexivity | reflexivity
        | reflexivity | reflexivity | | exact Hc].
      intros Hnp. destruct (Hnp I).
    + destruct (abandon_frame r a) as (Ht & Ho & Hm & Hf & _).
      eapply (getDeviceStatus_catch_consistent t _ a Ht Ho Hm Hf _ Hx I Hc).
  - (* SendConnected *)
    destruct (tasks a !! t) as [[| dps value [] caller] |] eqn:Hx;
      try discriminate.
    injection Hstep as <-. unfold setDeviceValue_connected.
    pose proof (critical_owner a Hc t _ Hx I) as Hown.
    destruct r.
    + eapply (consistent_update a _ t _ (SetDeviceValue dps value SendWrite caller));
        [exact Hx | cbn; tauto | auto | cbn; auto | | reflexivity ..
        | exact Hc].
      intros Hq. destruct (queue_waits a Hc t Hq) as [_ Hno]. contradiction.
    + eapply (consistent_finish a _ t _ (SetDeviceValue dps value SendDone _));
        [exact Hx | exact I | cbn; tauto | reflexivity | reflexivity
        | reflexivity | intros [] | reflexivity | exact Hc].
  - (* SendWritten *)
    destruct (tasks a !! t) as [[| dps value [] caller] |] eqn:Hx;
      try discriminate.
    injection Hstep as <-. unfold setDeviceValue_written.
    destruct r;
      eapply (consistent_finish a _ t _ (SetDeviceValue dps value SendDone _));
      [exact Hx | exact I | cbn; tauto | reflexivity | reflexivity
      | reflexivity | intros [] | reflexivity | exact Hc
      | exact Hx | exact I | cbn; tauto | reflexivity | reflexivity
      | reflexivity | intros [] | reflexivity | exact Hc].
  - (* SendTimeout *)
    destruct (tasks a !! t) as [[| dps value pc caller] |] eqn:Hx;
      try discriminate.
    injection Hstep as <-.
    eapply (consistent_update a _ t _
              (SetDeviceValue dps value pc (settle_caller caller TimerFirst)));
      [exact Hx | cbn; tauto | | | | reflexivity .. | exact Hc].
    + intros Hcs. apply (critical_owner a Hc t _ Hx).
      destruct pc; cbn in *; tauto.
    + intros Hown. destruct (owner_live a Hc t Hown) as (y & L & P).
      rewrite Hx in L. injection L as <-. destruct pc; cbn in *; tauto.
    + intros Hq. destruct (queue_waits a Hc t Hq) as [(y & L & P) _].
      rewrite Hx in L. injection L as <-. destruct pc; cbn in *; tauto.
  - (* LateSettle *)
    destruct (bool_decide _); [| discriminate]. injection Hstep as <-.
    eapply consistent_frame; [.. | exact Hc]; reflexivity.
Qed.

Lemma run_consistent (es : list event) :
  forall a a', consistent a -> run es a = Some a' -> consistent a'.
Proof.
  induction es as [| e es IH]; intros a a' Hc Hrun; cbn in Hrun.
  - injection Hrun as <-. exact Hc.
  - destruct (step e a) as [a1 |] eqn:He; [| discriminate].
    eapply IH; [eapply step_consistent; eassumption | exact Hrun].
Qed.

End Consistency.

(** ** The connection object *)

Section Communicator.

Lemma step_deviceCommunicator (e : event) (a a' : Accessory) :
  step e a = Some a' -> deviceCommunicator a' = deviceCommunicator a.
Proof.
  intros Hstep. destruct e; cbn in Hstep.
  - destruct (bool_decide _); [| discriminate]. injection Hstep as <-.
    unfold getDeviceStatus. destruct (negb _); reflexivity.
  - injection Hstep as <-. rewrite handleGet_state.
    unfold getDeviceStatus. destruct (negb _); reflexivity.
  - injection Hstep as <-. reflexivity.
  - destruct (bool_decide _); [| discriminate].
    destruct (tasks a !! t) as [[[] | ? ? [] ?] |]; try discriminate;
      injection Hstep as <-; reflexivity.
  - destruct (tasks a !! t) as [[[] | ] |]; try discriminate.
    injection Hstep as <-. unfold getDeviceStatus_connected.
    destruct (waitForPromiseWithTimeout _ _); [reflexivity |].
    cbn. apply (abandon_frame r a).
  - destruct (tasks a !! t) as [[[] | ] |]; try discriminate.
    injection Hstep as <-. unfold getDeviceStatus_read.
    destruct (waitForPromiseWithTimeout _ _); [reflexivity |].
    cbn. apply (abandon_frame r a).
  - destruct (tasks a !! t) as [[| ? ? [] ?] |]; try discriminate.
    injection Hstep as <-. destruct r; reflexivity.
  - destruct (tasks a !! t) as [[| ? ? [] ?] |]; try discriminate.
    injection Hstep as <-. destruct r; reflexivity.
  - destruct (tasks a !! t) as [[| ? ? ? ?] |]; try discriminate.
    injection Hstep as <-. reflexivity.
  - destruct (bool_decide _); [| discriminate]. injection Hstep as <-.
    reflexivity.
Qed.

Lemma run_deviceCommunicator (es : list event) :
  forall a a', run es a = Some a' -> deviceCommunicator a' = deviceCommunicator a.
Proof.
  induction es as [| e es IH]; intros a a' Hrun; cbn in Hrun.
  - injection Hrun as <-. reflexivity.
  - destruct (step e a) as [a1 |] eqn:He; [| discriminate].
    rewrite (IH _ _ Hrun). eapply step_deviceCommunicator, He.
Qed.

Lemma constructed_quiet : quiet constructed.
Proof. split; try reflexivity. cbn. left. Qed.

(** One failed cycle from rest: a connect and a disconnect on the same
    object, the cache marked invalid, and the poller at rest again. *)
Lemma failed_cycle_quiet (r : raced unit) (e : error) (a : Accessory) :
  waitForPromiseWithTimeout r getDeviceStatusConnectTimeout = RejectedWith e ->
  quiet a ->
  exists a',
    failed_cycle r a = Some a' /\ quiet a' /\
    deviceCommunicator a' = deviceCommunicator a /\
    isValid (state a') = false /\
    wire a' = wire a ++ [(deviceCommunicator a, Connect);
                         (deviceCommunicator a, Disconnect)].
Proof.
  intros Hr [Hflag Hmutex Hown Htimer].
  unfold failed_cycle, run.
  cbn [step]. rewrite (bool_decide_eq_true_2 _ Htimer).
  unfold getDeviceStatus.
  change (isGetStatusInProgress (clearTimeout _ (clearTimeout _ a)))
    with (isGetStatusInProgress a).
  rewrite Hflag. cbn [negb].
  set (a0 := clearTimeout _ (clearTimeout _ a)).
  set (t := length (tasks a)).
  assert (Ha1 : exists a1,
             with_tasks (fun l => l ++ [GetDeviceStatus PollLock])
                        (lock (length (tasks a0)) (with_inProgress true a0)) = a1 /\
             tasks a1 = tasks a ++ [GetDeviceStatus PollLock] /\
             owners a1 = [t] /\ mutex a1 = Mutex.mk true [] /\
             deviceCommunicator a1 = deviceCommunicator a /\
             wire a1 = wire a).
  { eexists. split; [reflexivity |]. cbn. rewrite Hmutex, Hown. cbn. auto. }
  destruct Ha1 as (a1 & -> & Ht1 & Ho1 & Hm1 & Hd1 & Hw1).
  cbn [step]. rewrite Ho1.
  rewrite bool_decide_eq_true_2 by left.
  assert (Hl1 : tasks a1 !! t = Some (GetDeviceStatus PollLock)).
  { rewrite Ht1. apply list_lookup_middle. reflexivity. }
  rewrite Hl1.
  cbn [step].
  assert (Hl2 : tasks (getDeviceStatus_granted t a1) !! t
                = Some (GetDeviceStatus PollConnect)).
  { cbn. apply list_lookup_insert_eq. eapply lookup_lt_Some, Hl1. }
  rewrite Hl2. unfold getDeviceStatus_connected. rewrite Hr.
  eexists. split; [reflexivity |].
  destruct (abandon_frame r (getDeviceStatus_granted t a1))
    as (Ht & Ho & Hm & Hf & Hs & Hd).
  assert (Hw : wire (abandon r (getDeviceStatus_granted t a1))
               = wire a ++ [(deviceCommunicator a, Connect)]).
  { destruct r; cbn; rewrite Hw1, Hd1; reflexivity. }
  split; [split |]; cbn.
  - reflexivity.
  - rewrite Hm. cbn. rewrite Hm1. reflexivity.
  - rewrite Ho, Hm. cbn. rewrite Ho1, Hm1. cbn.
    destruct (decide (t <> t)); [congruence | reflexivity].
  - rewrite map_app. apply elem_of_app. right. left.
  - rewrite Hd, Hw. cbn. rewrite Hd1, <- app_assoc. auto.
Qed.

Lemma failed_cycles_quiet (r : raced unit) (e : error) (n : nat) :
  waitForPromiseWithTimeout r getDeviceStatusConnectTimeout = RejectedWith e ->
  forall a, quiet a ->
    exists a',
      failed_cycles n r a = Some a' /\ quiet a' /\
      deviceCommunicator a' = deviceCommunicator a /\
      wire a' = wire a ++ concat (repeat [(deviceCommunicator a, Connect);
                                          (deviceCommunicator a, Disconnect)] n).
Proof.
  intros Hr. induction n as [| n IH]; intros a Hq;
    cbn [failed_cycles repeat concat].
  - exists a. rewrite app_nil_r. auto.
  - destruct (failed_cycle_quiet r e a Hr Hq) as (a1 & -> & Hq1 & Hd1 & _ & Hw1).
    destruct (IH a1 Hq1) as (a' & -> & Hq' & Hd' & Hw').
    exists a'. split; [reflexivity |]. split; [exact Hq' |].
    split; [congruence |].
    rewrite Hw', Hw1, Hd1, <- app_assoc. reflexivity.
Qed.

End Communicator.

(** The turn that ends a failed poll, whether [connect()] or [get()] was
    rejected or lost its race against the timer, calls [disconnect()] on
    the connection object in use and keeps that object. *)
Lemma failed_connect_disconnects (a : Accessory) (t : nat) (r : raced unit) (e : error) :
  tasks a !! t = Some (GetDeviceStatus PollConnect) ->
  waitForPromiseWithTimeout r getDeviceStatusConnectTimeout = RejectedWith e ->
  exists a',
    step (Connected t r) a = Some a' /\
    wire a' = wire a ++ [(deviceCommunicator a, Disconnect)] /\
    deviceCommunicator a' = deviceCommunicator a.
Proof.
  intros Hx Hr. cbn [step]. rewrite Hx. unfold getDeviceStatus_connected.
  rewrite Hr. eexists. split; [reflexivity |]. destruct r; cbn; auto.
Qed.

Lemma failed_read_disconnects (a : Accessory) (t : nat) (r : raced DPSObject) (e : error) :
  tasks a !! t = Some (GetDeviceStatus PollRead) ->
  waitForPromiseWithTimeout r getDeviceStatusReadTimeout = RejectedWith e ->
  exists a',
    step (Read t r) a = Some a' /\
    wire a' = wire a ++ [(deviceCommunicator a, Disconnect)] /\
    deviceCommunicator a' = deviceCommunicator a.
Proof.
  intros Hx Hr. cbn [step]. rewrite Hx. unfold getDeviceStatus_read.
  rewrite Hr. eexists. split; [reflexivity |]. destruct r; cbn; auto.
Qed.

(** C3, as the code has it.  However many poll cycles fail in a row, by
    time-out or by a rejected [connect()], each of them connects and
    disconnects the connection object the constructor created, and that
    object is still the one in use afterwards; in no reachable state has
    it been replaced.  In any state, the turn in which a poll fails, at
    [connect()] or at [get()], by rejection or by time-out, calls
    [disconnect()] on the connection object in use, makes no other call on
    it, and leaves that object in place. *)
Theorem communicator_never_replaced (n : nat) (r : raced unit) (e : error) :
  waitForPromiseWithTimeout r getDeviceStatusConnectTimeout = RejectedWith e ->
  (exists a,
      failed_cycles n r constructed = Some a /\
      deviceCommunicator a = deviceCommunicator constructed /\
      wire a = concat (repeat [(deviceCommunicator constructed, Connect);
                               (deviceCommunicator constructed, Disconnect)] n)) /\
  (forall es a, run es constructed = Some a ->
                deviceCommunicator a = deviceCommunicator constructed) /\
  (forall a t rc ec,
      tasks a !! t = Some (GetDeviceStatus PollConnect) ->
      waitForPromiseWithTimeout rc getDeviceStatusConnectTimeout = RejectedWith ec ->
      exists a',
        step (Connected t rc) a = Some a' /\
        wire a' = wire a ++ [(deviceCommunicator a, Disconnect)] /\
        deviceCommunicator a' = deviceCommunicator a) /\
  (forall a t (rg : raced DPSObject) eg,
      tasks a !! t = Some (GetDeviceStatus PollRead) ->
      waitForPromiseWithTimeout rg getDeviceStatusReadTimeout = RejectedWith eg ->
      exists a',
        step (Read t rg) a = Some a' /\
        wire a' = wire a ++ [(deviceCommunicator a, Disconnect)] /\
        deviceCommunicator a' = deviceCommunicator a) /\
  (forall ev a, completes_poll ev a = Some true ->
      exists a',
        step ev a = Some a' /\
        wire a' = wire a ++ [(deviceCommunicator a, Disconnect)] /\
        deviceCommunicator a' = deviceCommunicator a).
Proof.
  intros Hr. split; [| split; [| split; [| split]]].
  - destruct (failed_cycles_quiet r e n Hr constructed constructed_quiet)
      as (a & Hrun & _ & Hd & Hw).
    exists a. auto.
  - intros es a Hrun. apply (run_deviceCommunicator es _ _ Hrun).
  - intros a t rc ec. apply failed_connect_disconnects.
  - intros a t rg eg. apply failed_read_disconnects.
  - intros ev a Hdone. destruct ev; try discriminate; cbn in Hdone.
    + destruct (tasks a !! t) as [[[] | ] |] eqn:Hx; try discriminate.
      destruct (waitForPromiseWithTimeout r0 _) as [| e0] eqn:Hr0; [discriminate |].
      eapply failed_connect_disconnects; eassumption.
    + destruct (tasks a !! t) as [[[] | ] |] eqn:Hx; try discriminate.
      destruct (waitForPromiseWithTimeout r0 _) as [| e0] eqn:Hr0; [discriminate |].
      eapply failed_read_disconnects; eassumption.
Qed.

(** Witness of C3: five cycles that time out; and a first poll whose
    [connect()] succeeds and whose [get()] times out. *)
Lemma communicator_never_replaced_witness :
  (exists a,
      failed_cycles 5 TimerFirst constructed = Some a /\
      deviceCommunicator a = deviceCommunicator constructed /\
      wire a = concat (repeat [(deviceCommunicator constructed, Connect);
                               (deviceCommunicator constructed, Disconnect)] 5)) /\
  (exists a',
      step (Read 0 TimerFirst) polling_read = Some a' /\
      wire a' = [(0, Connect); (0, Get); (0, Disconnect)] /\
      deviceCommunicator a' = 0).
Proof.
  destruct (communicator_never_replaced 5 TimerFirst
              (TimeoutError getDeviceStatusConnectTimeout) eq_refl)
    as (Hcycles & _ & _ & Hread & _).
  split; [exact Hcycles |].
  exact (Hread polling_read 0 TimerFirst
           (TimeoutError getDeviceStatusReadTimeout) eq_refl eq_refl).
Defined.

(** C3 as stated fails: there is no number of consecutive failed polls
    after which the connection object is another one. *)
Lemma no_rebuild_threshold :
  ~ exists n : nat,
      forall a, failed_cycles n TimerFirst constructed = Some a ->
                deviceCommunicator a <> deviceCommunicator constructed.
Proof.
  intros [n Hn].
  destruct (failed_cycles_quiet TimerFirst _ n eq_refl constructed constructed_quiet)
    as (a & Hrun & _ & Hd & _).
  exact (Hn a Hrun Hd).
Qed.

(** ** The command dispatcher *)

Section Dispatcher.

Lemma getDeviceStatus_tasks (a : Accessory) :
  tasks (getDeviceStatus a)
  = tasks a ++ (if isGetStatusInProgress a then [] else [GetDeviceStatus PollLock]).
Proof.
  unfold getDeviceStatus.
  change (isGetStatusInProgress (clearTimeout _ a)) with (isGetStatusInProgress a).
  destruct (isGetStatusInProgress a); cbn; [rewrite app_nil_r |]; reflexivity.
Qed.

Lemma getDeviceStatus_state (a : Accessory) :
  state (getDeviceStatus a) = state a.
Proof. unfold getDeviceStatus. destruct (negb _); reflexivity. Qed.

(** Once the promise of [setDeviceValueWithTimeout] has settled, no turn
    changes its settlement. *)
Lemma step_caller_final (e : event) (a a' : Accessory) (t : nat)
      (dps : Z) (value : DPSValue) (pc : send_pc) (s : settlement unit) :
  tasks a !! t = Some (SetDeviceValue dps value pc (Some s)) ->
  step e a = Some a' ->
  exists pc', tasks a' !! t = Some (SetDeviceValue dps value pc' (Some s)).
Proof.
  intros Hx Hstep. destruct e; cbn in Hstep.
  - destruct (bool_decide _); [| discriminate]. injection Hstep as <-.
    rewrite getDeviceStatus_tasks. exists pc. apply lookup_app_l_Some, Hx.
  - injection Hstep as <-. rewrite handleGet_state, getDeviceStatus_tasks.
    exists pc. apply lookup_app_l_Some, Hx.
  - injection Hstep as <-. exists pc. cbn. apply lookup_app_l_Some, Hx.
  - destruct (bool_decide _); [| discriminate].
    destruct (tasks a !! t0) as [[[] | ? ? [] ?] |] eqn:Hx'; try discriminate;
      injection Hstep as <-; cbn.
    + other_slot Hx Hx' t t0.
    + same_slot Hx Hx' t t0.
  - destruct (tasks a !! t0) as [[[] | ] |] eqn:Hx'; try discriminate.
    injection Hstep as <-. unfold getDeviceStatus_connected.
    destruct (waitForPromiseWithTimeout _ _); cbn;
      rewrite ?(proj1 (abandon_frame r a)); other_slot Hx Hx' t t0.
  - destruct (tasks a !! t0) as [[[] | ] |] eqn:Hx'; try discriminate.
    injection Hstep as <-. unfold getDeviceStatus_read.
    destruct (waitForPromiseWithTimeout _ _); cbn;
      rewrite ?(proj1 (abandon_frame r a)); other_slot Hx Hx' t t0.
  - destruct (tasks a !! t0) as [[| ? ? [] ?] |] eqn:Hx'; try discriminate.
    injection Hstep as <-. destruct r; cbn; same_slot Hx Hx' t t0.
  - destruct (tasks a !! t0) as [[| ? ? [] ?] |] eqn:Hx'; try discriminate.
    injection Hstep as <-. destruct r; cbn; same_slot Hx Hx' t t0.
  - destruct (tasks a !! t0) as [[| ? ? ? ?] |] eqn:Hx'; try discriminate.
    injection Hstep as <-. cbn. same_slot Hx Hx' t t0.
  - destruct (bool_decide _); [| discriminate]. injection Hstep as <-.
    exists pc. exact Hx.
Qed.

Lemma run_caller_final (es : list event) :
  forall (a a' : Accessory) (t : nat) (dps : Z) (value : DPSValue)
         (pc : send_pc) (s : settlement unit),
    tasks a !! t = Some (SetDeviceValue dps value pc (Some s)) ->
    run es a = Some a' ->
    exists pc', tasks a' !! t = Some (SetDeviceValue dps value pc' (Some s)).
Proof.
  induction es as [| e es IH]; intros a a' t dps value pc s Hx Hrun; cbn in Hrun.
  - injection Hrun as <-. eauto.
  - destruct (step e a) as [a1 |] eqn:He; [| discriminate].
    destruct (step_caller_final e a a1 t dps value pc s Hx He) as [pc1 Hx1].
    eapply IH; eassumption.
Qed.

(** The timer of the wrapper fires while the promise is pending. *)
Lemma SendTimeout_pending (a : Accessory) (t : nat)
      (dps : Z) (value : DPSValue) (pc : send_pc) :
  tasks a !! t = Some (SetDeviceValue dps value pc None) ->
  exists a',
    step (SendTimeout t) a = Some a' /\
    tasks a' !! t
    = Some (SetDeviceValue dps value pc
              (Some (RejectedWith (HapStatusError SERVICE_COMMUNICATION_FAILURE)))).
Proof.
  intros Hx. cbn. rewrite Hx. eexists. split; [reflexivity |].
  cbn. apply list_lookup_insert_eq. eapply lookup_lt_Some, Hx.
Qed.

(** [connect()] is rejected while the promise is pending: the error is
    caught, [disconnect()] is called, [finally] calls the release function
    of the mutex, [setDeviceValue] returns, and the promise is fulfilled. *)
Lemma SendConnected_rejected (a : Accessory) (t : nat)
      (dps : Z) (value : DPSValue) (e : error) :
  tasks a !! t = Some (SetDeviceValue dps value SendConnect None) ->
  exists a',
    step (SendConnected t (RejectedWith e)) a = Some a' /\
    tasks a' !! t = Some (SetDeviceValue dps value SendDone (Some (Fulfilled tt))) /\
    wire a' = wire a ++ [(deviceCommunicator a, Disconnect)] /\
    mutex a' = fst (Mutex.unlock (mutex a)) /\
    owners a' = filter (fun i => i <> t) (owners a)
                  ++ Mutex.resolved (snd (Mutex.unlock (mutex a))).
Proof.
  intros Hx. cbn. rewrite Hx. eexists. split; [reflexivity |].
  cbn. split; [| auto].
  apply list_lookup_insert_eq. eapply lookup_lt_Some, Hx.
Qed.

(** The same for [set(...)]. *)
Lemma SendWritten_rejected (a : Accessory) (t : nat)
      (dps : Z) (value : DPSValue) (e : error) :
  tasks a !! t = Some (SetDeviceValue dps value SendWrite None) ->
  exists a',
    step (SendWritten t (RejectedWith e)) a = Some a' /\
    tasks a' !! t = Some (SetDeviceValue dps value SendDone (Some (Fulfilled tt))) /\
    wire a' = wire a ++ [(deviceCommunicator a, Disconnect)] /\
    mutex a' = fst (Mutex.unlock (mutex a)) /\
    owners a' = filter (fun i => i <> t) (owners a)
                  ++ Mutex.resolved (snd (Mutex.unlock (mutex a))).
Proof.
  intros Hx. cbn. rewrite Hx. eexists. split; [reflexivity |].
  cbn. split; [| auto].
  apply list_lookup_insert_eq. eapply lookup_lt_Some, Hx.
Qed.

(** In a consistent state the call in its critical section is the one
    holder of the mutex; when it calls its release function it holds
    nothing afterwards, and the mutex is free with nobody waiting, or
    handed to the call at the head of the queue. *)
Lemma release_in_critical_section (a a' : Accessory) (t : nat) (x : task) :
  consistent a ->
  tasks a !! t = Some x -> in_critical_section x ->
  mutex a' = fst (Mutex.unlock (mutex a)) ->
  owners a' = filter (fun i => i <> t) (owners a)
                ++ Mutex.resolved (snd (Mutex.unlock (mutex a))) ->
  (t ∈ owners a) /\ (t ∉ owners a') /\
  ((Mutex.isLocked (mutex a') = false /\ Mutex.waitingQueue (mutex a') = [] /\
    owners a' = []) \/
   (exists t', t' <> t /\ owners a' = [t'] /\ Mutex.isLocked (mutex a') = true /\
               Mutex.waitingQueue (mutex a) = t' :: Mutex.waitingQueue (mutex a'))).
Proof.
  intros Hc Hx Hcs Hm Ho.
  pose proof (critical_owner a Hc t x Hx Hcs) as Hown.
  assert (Hone : owners a = [t]).
  { destruct (one_owner a Hc) as [Hnil | [t0 Hone]]; rewrite ?Hnil, ?Hone in Hown.
    - inversion Hown.
    - apply list_elem_of_singleton in Hown. congruence. }
  rewrite Hone in Ho. cbn in Ho.
  destruct (decide (t <> t)) as [Hne | _]; [congruence |]. cbn in Ho.
  split; [exact Hown |].
  destruct (Mutex_unlock_cases (mutex a)) as [[Hq E] | (n & rest & Hq & E)];
    rewrite E in Hm, Ho; cbn in Hm, Ho.
  - split; [rewrite Ho; apply not_elem_of_nil |].
    left. rewrite Hm, Ho. auto.
  - destruct (queue_waits a Hc n) as [_ Hno]; [rewrite Hq; left |].
    assert (Hne : n <> t).
    { intros ->. apply Hno. rewrite Hone. left. }
    split.
    + rewrite Ho. intros Hin. apply list_elem_of_singleton in Hin. congruence.
    + right. exists n. rewrite Hm, Hq. auto.
Qed.

End Dispatcher.

(** C2, as the code has it.  Take a call of [setDeviceValueWithTimeout]
    whose promise is pending.  If the timer of the wrapper fires now, the
    promise is rejected with the HAP status SERVICE_COMMUNICATION_FAILURE,
    whatever happens later.  If instead [connect()] or [set(...)] is
    rejected now, [setDeviceValue] catches the error, calls
    [disconnect()], calls the release function of the mutex and returns,
    and the promise is fulfilled: the caller gets no error, also not when
    the timer fires afterwards.  In a reachable state that release means:
    the call held the mutex and holds nothing afterwards, and the mutex is
    free with nobody waiting, or handed to the call that waited first. *)
Theorem setDeviceValueWithTimeout_signals_timeout_only
  (a : Accessory) (t : nat) (dps : Z) (value : DPSValue) (pc : send_pc) :
  tasks a !! t = Some (SetDeviceValue dps value pc None) ->
  (exists a1,
      step (SendTimeout t) a = Some a1 /\
      forall es a2, run es a1 = Some a2 ->
        exists pc', tasks a2 !! t
                    = Some (SetDeviceValue dps value pc'
                              (Some (RejectedWith
                                       (HapStatusError SERVICE_COMMUNICATION_FAILURE))))) /\
  (pc = SendConnect -> forall e, exists a1,
      step (SendConnected t (RejectedWith e)) a = Some a1 /\
      wire a1 = wire a ++ [(deviceCommunicator a, Disconnect)] /\
      mutex a1 = fst (Mutex.unlock (mutex a)) /\
      owners a1 = filter (fun i => i <> t) (owners a)
                    ++ Mutex.resolved (snd (Mutex.unlock (mutex a))) /\
      (forall es0, run es0 constructed = Some a ->
         (t ∈ owners a) /\ (t ∉ owners a1) /\
         ((Mutex.isLocked (mutex a1) = false /\ Mutex.waitingQueue (mutex a1) = [] /\
           owners a1 = []) \/
          (exists t', t' <> t /\ owners a1 = [t'] /\
                      Mutex.isLocked (mutex a1) = true /\
                      Mutex.waitingQueue (mutex a)
                      = t' :: Mutex.waitingQueue (mutex a1)))) /\
      forall es a2, run es a1 = Some a2 ->
        exists pc', tasks a2 !! t
                    = Some (SetDeviceValue dps value pc' (Some (Fulfilled tt)))) /\
  (pc = SendWrite -> forall e, exists a1,
      step (SendWritten t (RejectedWith e)) a = Some a1 /\
      wire a1 = wire a ++ [(deviceCommunicator a, Disconnect)] /\
      mutex a1 = fst (Mutex.unlock (mutex a)) /\
      owners a1 = filter (fun i => i <> t) (owners a)
                    ++ Mutex.resolved (snd (Mutex.unlock (mutex a))) /\
      (forall es0, run es0 constructed = Some a ->
         (t ∈ owners a) /\ (t ∉ owners a1) /\
         ((Mutex.isLocked (mutex a1) = false /\ Mutex.waitingQueue (mutex a1) = [] /\
           owners a1 = []) \/
          (exists t', t' <> t /\ owners a1 = [t'] /\
                      Mutex.isLocked (mutex a1) = true /\
                      Mutex.waitingQueue (mutex a)
                      = t' :: Mutex.waitingQueue (mutex a1)))) /\
      forall es a2, run es a1 = Some a2 ->
        exists pc', tasks a2 !! t
                    = Some (SetDeviceValue dps value pc' (Some (Fulfilled tt)))).
Proof.
  intros Hx. split; [| split].
  - destruct (SendTimeout_pending a t dps value pc Hx) as (a1 & Hstep & Hx1).
    exists a1. split; [exact Hstep |]. intros es a2 Hrun.
    eapply run_caller_final; eassumption.
  - intros -> e.
    destruct (SendConnected_rejected a t dps value e Hx)
      as (a1 & Hstep & Hx1 & Hw & Hm & Ho).
    exists a1. do 4 (split; [assumption |]). split.
    + intros es0 Hrun.
      pose proof (run_consistent es0 _ _ constructed_consistent Hrun) as Hc.
      exact (release_in_critical_section a a1 t _ Hc Hx I Hm Ho).
    + intros es a2 Hrun. eapply run_caller_final; eassumption.
  - intros -> e.
    destruct (SendWritten_rejected a t dps value e Hx)
      as (a1 & Hstep & Hx1 & Hw & Hm & Ho).
    exists a1. do 4 (split; [assumption |]). split.
    + intros es0 Hrun.
      pose proof (run_consistent es0 _ _ constructed_consistent Hrun) as Hc.
      exact (release_in_critical_section a a1 t _ Hc Hx I Hm Ho).
    + intros es a2 Hrun. eapply run_caller_final; eassumption.
Qed.

(** Witness of C2: the call [setDeviceValueWithTimeout(62, 3)] on the new
    accessory, waiting for [connect()].  When the timer fires the promise
    is rejected; when [connect()] is rejected instead, the connection is
    disconnected and the mutex is free again. *)
Lemma setDeviceValueWithTimeout_signals_timeout_only_witness :
  tasks sending !! 0 = Some (SetDeviceValue 62 (VNumber 3) SendConnect None) /\
  (exists a1,
    step (SendTimeout 0) sending = Some a1 /\
    forall es a2, run es a1 = Some a2 ->
      exists pc', tasks a2 !! 0
                  = Some (SetDeviceValue 62 (VNumber 3) pc'
                            (Some (RejectedWith
                                     (HapStatusError SERVICE_COMMUNICATION_FAILURE))))) /\
  (exists a1,
    step (SendConnected 0 (RejectedWith TransportError)) sending = Some a1 /\
    wire a1 = [(0, Connect); (0, Disconnect)] /\
    mutex a1 = Mutex.new /\
    owners a1 = []).
Proof.
  destruct (setDeviceValueWithTimeout_signals_timeout_only
              sending 0 62%Z (VNumber 3) SendConnect eq_refl)
    as (Htimer & Hconnect & _).
  split; [reflexivity | split; [exact Htimer |]].
  destruct (Hconnect eq_refl TransportError) as (a1 & Hstep & Hw & Hm & Ho & _).
  exists a1. split; [exact Hstep |]. split; [exact Hw |].
  split; [exact Hm | exact Ho].
Defined.

(** C2 as stated fails: [connect()] is rejected before the timer fires, and
    the promise of [setDeviceValueWithTimeout] is fulfilled, not rejected
    with the HAP status error. *)
Lemma connect_failure_is_not_signalled :
  exists a,
    run [Dispatch 62 (VNumber 3); Granted 0;
         SendConnected 0 (RejectedWith TransportError)] constructed = Some a /\
    tasks a !! 0 = Some (SetDeviceValue 62 (VNumber 3) SendDone (Some (Fulfilled tt))) /\
    tasks a !! 0 <> Some (SetDeviceValue 62 (VNumber 3) SendDone
                            (Some (RejectedWith
                                     (HapStatusError SERVICE_COMMUNICATION_FAILURE)))).
Proof.
  eexists. split; [vm_compute; reflexivity |].
  split; [reflexivity | discriminate].
Qed.

(** ** The get handlers *)

(** The value [fanRotationSpeedValueToCharacteristicValue] reads from
    [fanRotationSpeedNormalized], for every number in the cache. *)
Lemma fanRotationSpeed_table (st : DeviceState) :
  fanRotationSpeedValueToCharacteristicValue st
  = if (fanSpeed st =? 1)%Z then CNumber (Num 10)
    else if (fanSpeed st =? 2)%Z then CNumber (Num 30)
    else if (fanSpeed st =? 3)%Z then CNumber (Num 50)
    else if (fanSpeed st =? 4)%Z then CNumber (Num 70)
    else if (fanSpeed st =? 5)%Z then CNumber (Num 90)
    else if (fanSpeed st =? 6)%Z then CNumber (Num 100)
    else CUndefined.
Proof.
  unfold fanRotationSpeedValueToCharacteristicValue.
  destruct (Z.eqb_spec (fanSpeed st) 1) as [-> | ?]; [reflexivity |].
  destruct (Z.eqb_spec (fanSpeed st) 2) as [-> | ?]; [reflexivity |].
  destruct (Z.eqb_spec (fanSpeed st) 3) as [-> | ?]; [reflexivity |].
  destruct (Z.eqb_spec (fanSpeed st) 4) as [-> | ?]; [reflexivity |].
  destruct (Z.eqb_spec (fanSpeed st) 5) as [-> | ?]; [reflexivity |].
  destruct (Z.eqb_spec (fanSpeed st) 6) as [-> | ?]; [reflexivity |].
  destruct (Z.ltb_spec (fanSpeed st - 1) 0) as [Hneg | Hpos]; [reflexivity |].
  assert (Hlen : (6 <= Z.to_nat (fanSpeed st - 1))%nat) by lia.
  replace (nth_error fanRotationSpeedNormalized (Z.to_nat (fanSpeed st - 1)))
    with (@None number); [reflexivity |].
  symmetry. apply nth_error_None. exact Hlen.
Qed.

(** C7. Every get handler triggers [getDeviceStatus()] without waiting for
    it (the handler's state is the state after the first turn of
    [getDeviceStatus], which leaves the cache alone and at most starts a
    call that waits for the mutex); it then fails with the HAP status
    SERVICE_COMMUNICATION_FAILURE when the cache is invalid.  When the
    cache is valid it returns: for Active, ACTIVE when [fanOn] and INACTIVE
    otherwise; for RotationSpeed, 10, 30, 50, 70, 90 or 100 for the device
    speed 1 to 6 and [undefined] for any other number; for
    RotationDirection, CLOCKWISE when [fanRotationClockwise] and
    COUNTER_CLOCKWISE otherwise; for On, the boolean [lightOn].  A poll
    that fails, at [connect()] or at [get()], leaves the cache invalid; a
    poll that reads leaves it valid. *)
Theorem getters_reject_invalid_cache (g : getter) (a : Accessory) :
  snd (handleGet g a)
  = (if isValid (state a) then
       Fulfilled
         match g with
         | FanActive => if fanOn (state a) then ACTIVE else INACTIVE
         | FanRotationSpeed =>
             if (fanSpeed (state a) =? 1)%Z then CNumber (Num 10)
             else if (fanSpeed (state a) =? 2)%Z then CNumber (Num 30)
             else if (fanSpeed (state a) =? 3)%Z then CNumber (Num 50)
             else if (fanSpeed (state a) =? 4)%Z then CNumber (Num 70)
             else if (fanSpeed (state a) =? 5)%Z then CNumber (Num 90)
             else if (fanSpeed (state a) =? 6)%Z then CNumber (Num 100)
             else CUndefined
         | FanRotationDirection =>
             if fanRotationClockwise (state a) then CLOCKWISE else COUNTER_CLOCKWISE
         | LightOn => CBoolean (lightOn (state a))
         end
     else RejectedWith (HapStatusError SERVICE_COMMUNICATION_FAILURE)) /\
  fst (handleGet g a) = getDeviceStatus a /\
  state (getDeviceStatus a) = state a /\
  tasks (getDeviceStatus a)
  = tasks a ++ (if isGetStatusInProgress a then [] else [GetDeviceStatus PollLock]) /\
  (forall t r,
      isValid (state (getDeviceStatus_connected t r a))
      = match waitForPromiseWithTimeout r getDeviceStatusConnectTimeout with
        | Fulfilled _ => isValid (state a)
        | RejectedWith _ => false
        end) /\
  (forall t r,
      isValid (state (getDeviceStatus_read t r a))
      = match waitForPromiseWithTimeout r getDeviceStatusReadTimeout with
        | Fulfilled _ => true
        | RejectedWith _ => false
        end).
Proof.
  split; [| split; [apply handleGet_state | split; [apply getDeviceStatus_state |
          split; [apply getDeviceStatus_tasks | split]]]].
  - destruct g; cbn;
      unfold handleFanActiveStateGet, handleFanRotationSpeedGet,
        handleFanRotationDirectionGet, handleLightOnGet,
        throwErrorIfDeviceUnresponsive;
      rewrite getDeviceStatus_state; destruct (isValid (state a)); try reflexivity.
    rewrite <- fanRotationSpeed_table. reflexivity.
  - intros t r. unfold getDeviceStatus_connected.
    destruct (waitForPromiseWithTimeout r _); reflexivity.
  - intros t r. unfold getDeviceStatus_read.
    destruct (waitForPromiseWithTimeout r _); reflexivity.
Qed.

(** ** The status poller *)

Section Poller.

Lemma abandon_timers {A : Type} (r : raced A) (a : Accessory) :
  timers (abandon r a) = timers a /\ nextTimer (abandon r a) = nextTimer a /\
  getDeviceStatusTimer (abandon r a) = getDeviceStatusTimer a.
Proof. destruct r; cbn; auto. Qed.

Lemma scheduled_fires (ms : N) (a a' : Accessory) :
  scheduled ms a a' ->
  exists a'', step (TimerFires (getDeviceStatusTimer a')) a' = Some a''.
Proof.
  intros [Hts Hh]. cbn. rewrite bool_decide_eq_true_2; [eauto |].
  rewrite Hts, Hh, map_app. apply elem_of_app. right. left.
Qed.

Lemma getDeviceStatus_catch_scheduled (t : nat) (a : Accessory) :
  scheduled getDeviceStatusFastRetryPeriod a (getDeviceStatus_catch t a) /\
  isValid (state (getDeviceStatus_catch t a)) = false.
Proof. split; [split |]; reflexivity. Qed.

(** A call of [getDeviceStatus] while a read is in progress starts
    nothing. *)
Lemma getDeviceStatus_skip (a : Accessory) :
  isGetStatusInProgress a = true ->
  tasks (getDeviceStatus a) = tasks a /\
  wire (getDeviceStatus a) = wire a /\
  mutex (getDeviceStatus a) = mutex a /\
  owners (getDeviceStatus a) = owners a /\
  state (getDeviceStatus a) = state a /\
  isGetStatusInProgress (getDeviceStatus a) = true.
Proof.
  intros Hflag. unfold getDeviceStatus.
  change (isGetStatusInProgress (clearTimeout _ a)) with (isGetStatusInProgress a).
  rewrite Hflag. cbn. auto 10.
Qed.

End Poller.

(** C8. A turn that ends a poll attempt always sets the next poll timer,
    and stores its handle: with the fast-retry period of 1000 ms when the
    attempt ended with a communication error, the cache then being
    invalid, and with the normal period of 10000 ms when it read the
    status, the cache then being valid.  The timer set is pending, so the
    next poll can start. *)
Theorem next_poll_is_scheduled (e : event) (a : Accessory) (failed : bool) :
  completes_poll e a = Some failed ->
  exists a',
    step e a = Some a' /\
    scheduled (if failed then 1000%N else 10000%N) a a' /\
    getDeviceStatusFastRetryPeriod = 1000%N /\
    getDeviceStatusPeriod = 10000%N /\
    isValid (state a') = negb failed /\
    exists a'', step (TimerFires (getDeviceStatusTimer a')) a' = Some a''.
Proof.
  intros Hdone.
  assert (Hstep : exists a',
             step e a = Some a' /\
             scheduled (if failed then 1000%N else 10000%N) a a' /\
             isValid (state a') = negb failed).
  { destruct e; try discriminate; cbn in Hdone |- *;
      destruct (tasks a !! t) as [[[] | ] |]; try discriminate.
    - unfold getDeviceStatus_connected.
      destruct (waitForPromiseWithTimeout r _); [discriminate |].
      injection Hdone as <-. eexists. split; [reflexivity |].
      destruct (getDeviceStatus_catch_scheduled t (abandon r a)) as [[Hts Hh] Hv].
      destruct (abandon_timers r a) as (E1 & E2 & _). rewrite E1, E2 in *.
      split; [split |]; assumption.
    - unfold getDeviceStatus_read.
      destruct (waitForPromiseWithTimeout r _); injection Hdone as <-.
      + eexists. split; [reflexivity |]. split; [split |]; reflexivity.
      + eexists. split; [reflexivity |].
        destruct (getDeviceStatus_catch_scheduled t (abandon r a)) as [[Hts Hh] Hv].
        destruct (abandon_timers r a) as (E1 & E2 & _). rewrite E1, E2 in *.
        split; [split |]; assumption. }
  destruct Hstep as (a' & Hstep & Hsched & Hvalid).
  exists a'. repeat (split; [first [assumption | reflexivity] |]).
  eapply scheduled_fires, Hsched.
Qed.

(** Witness of C8: the first poll of the new accessory times out at
    [connect()]; the next poll is set 1000 ms ahead. *)
Lemma next_poll_is_scheduled_witness :
  exists a',
    step (Connected 0 TimerFirst) polling_connect = Some a' /\
    scheduled 1000%N polling_connect a' /\
    getDeviceStatusFastRetryPeriod = 1000%N /\
    getDeviceStatusPeriod = 10000%N /\
    isValid (state a') = negb true /\
    exists a'', step (TimerFires (getDeviceStatusTimer a')) a' = Some a''.
Proof.
  apply (next_poll_is_scheduled (Connected 0 TimerFirst) polling_connect true).
  reflexivity.
Defined.

(** What a get handler returns when the cache is valid, field by field. *)
Lemma handleGet_valid (g : getter) (a : Accessory)
      (on : bool) (speed : Z) (clockwise light : bool) :
  isValid (state a) = true ->
  fanOn (state a) = on -> fanSpeed (state a) = speed ->
  fanRotationClockwise (state a) = clockwise -> lightOn (state a) = light ->
  snd (handleGet g a)
  = Fulfilled
      match g with
      | FanActive => if on then ACTIVE else INACTIVE
      | FanRotationSpeed =>
          if (speed =? 1)%Z then CNumber (Num 10)
          else if (speed =? 2)%Z then CNumber (Num 30)
          else if (speed =? 3)%Z then CNumber (Num 50)
          else if (speed =? 4)%Z then CNumber (Num 70)
          else if (speed =? 5)%Z then CNumber (Num 90)
          else if (speed =? 6)%Z then CNumber (Num 100)
          else CUndefined
      | FanRotationDirection => if clockwise then CLOCKWISE else COUNTER_CLOCKWISE
      | LightOn => CBoolean light
      end.
Proof.
  intros Hv <- <- <- <-.
  destruct g; cbn;
    unfold handleFanActiveStateGet, handleFanRotationSpeedGet,
      handleFanRotationDirectionGet, handleLightOnGet,
      throwErrorIfDeviceUnresponsive;
    rewrite getDeviceStatus_state, Hv; try reflexivity.
  rewrite <- fanRotationSpeed_table. reflexivity.
Qed.

(** C4. In every reachable state at most one call of [getDeviceStatus] is
    between its [lock()] and its [finally].  When the flag
    [isGetStatusInProgress] is set there is such a call, and a further
    call of [getDeviceStatus], from the timer or from any get handler,
    starts nothing: no new call, no request to the device, no [lock()], no
    change of the cache; the call in progress stays as it is.  When the
    call in progress reads the status, it writes it to the cache all
    callers share: [fanOn] is data point 60, [fanSpeed] data point 62,
    [fanRotationClockwise] is false exactly when data point 63 is the
    string forward, [lightOn] is data point 20; it marks the cache valid
    and clears the flag, and from then on every get handler returns the
    value of the status read. *)
Theorem single_flight_polling (es : list event) (a : Accessory) :
  run es constructed = Some a ->
  (forall t1 t2 x1 x2,
      tasks a !! t1 = Some x1 -> polling x1 ->
      tasks a !! t2 = Some x2 -> polling x2 -> t1 = t2) /\
  (isGetStatusInProgress a = true ->
   (exists t x, tasks a !! t = Some x /\ polling x /\
                tasks (getDeviceStatus a) !! t = Some x) /\
   tasks (getDeviceStatus a) = tasks a /\
   wire (getDeviceStatus a) = wire a /\
   mutex (getDeviceStatus a) = mutex a /\
   owners (getDeviceStatus a) = owners a /\
   state (getDeviceStatus a) = state a /\
   isGetStatusInProgress (getDeviceStatus a) = true /\
   forall g, fst (handleGet g a) = getDeviceStatus a) /\
  (forall t status,
      tasks a !! t = Some (GetDeviceStatus PollRead) ->
      exists a',
        step (Read t (PromiseFirst (Fulfilled status))) a = Some a' /\
        fanOn (state a') = dps60 status /\
        fanSpeed (state a') = dps62 status /\
        fanRotationClockwise (state a')
        = (if String.eqb (dps63 status) "forward" then false else true) /\
        lightOn (state a') = dps20 status /\
        isValid (state a') = true /\
        isGetStatusInProgress a' = false /\
        tasks a' !! t = Some (GetDeviceStatus PollDone) /\
        forall g, snd (handleGet g a')
                  = Fulfilled
                      match g with
                      | FanActive => if dps60 status then ACTIVE else INACTIVE
                      | FanRotationSpeed =>
                          if (dps62 status =? 1)%Z then CNumber (Num 10)
                          else if (dps62 status =? 2)%Z then CNumber (Num 30)
                          else if (dps62 status =? 3)%Z then CNumber (Num 50)
                          else if (dps62 status =? 4)%Z then CNumber (Num 70)
                          else if (dps62 status =? 5)%Z then CNumber (Num 90)
                          else if (dps62 status =? 6)%Z then CNumber (Num 100)
                          else CUndefined
                      | FanRotationDirection =>
                          if String.eqb (dps63 status) "forward"
                          then COUNTER_CLOCKWISE else CLOCKWISE
                      | LightOn => CBoolean (dps20 status)
                      end).
Proof.
  intros Hrun.
  pose proof (run_consistent es _ _ constructed_consistent Hrun) as Hc.
  split; [exact (one_poll a Hc) | split].
  - intros Hflag.
    destruct (getDeviceStatus_skip a Hflag) as (Ht & Hw & Hm & Ho & Hs & Hf).
    split; [| auto 10 using handleGet_state].
    destruct (flag_set a Hc Hflag) as (t & x & Hx & Hp).
    exists t, x. rewrite Ht. auto.
  - intros t status Hx. cbn [step]. rewrite Hx. eexists. split; [reflexivity |].
    unfold getDeviceStatus_read. cbn.
    do 6 (split; [reflexivity |]).
    split; [apply list_lookup_insert_eq; eapply lookup_lt_Some, Hx |].
    intros g.
    rewrite (handleGet_valid g _ (dps60 status) (dps62 status)
               (if String.eqb (dps63 status) "forward" then false else true)
               (dps20 status)) by reflexivity.
    destruct g; try reflexivity.
    destruct (String.eqb _ _); reflexivity.
Qed.

(** Witness of C4: the poll timer has fired, the call has the mutex and
    waits for [connect()], and a get handler comes in: nothing is started.
    Then [connect()] goes through and [get()] reads speed 3, light on, fan
    on, direction forward: the cache holds them and the rotation-speed get
    handler returns 50. *)
Lemma single_flight_polling_witness :
  (isGetStatusInProgress polling_connect = true /\
   tasks (fst (handleGet FanActive polling_connect)) = tasks polling_connect /\
   wire (fst (handleGet FanActive polling_connect)) = wire polling_connect) /\
  (exists a',
      step (Read 0 (PromiseFirst (Fulfilled (mkDPS true true 3 "forward"))))
           polling_read = Some a' /\
      fanOn (state a') = true /\ fanSpeed (state a') = 3%Z /\
      fanRotationClockwise (state a') = false /\ lightOn (state a') = true /\
      isValid (state a') = true /\
      snd (handleGet FanRotationSpeed a') = Fulfilled (CNumber (Num 50))).
Proof.
  split.
  - destruct (single_flight_polling [TimerFires 0; Granted 0] polling_connect eq_refl)
      as (_ & Hskip & _).
    destruct (Hskip eq_refl) as (_ & Ht & Hw & _ & _ & _ & _ & Hg).
    rewrite (Hg FanActive). auto.
  - destruct (single_flight_polling
                [TimerFires 0; Granted 0; Connected 0 (PromiseFirst (Fulfilled tt))]
                polling_read eq_refl)
      as (_ & _ & Hread).
    destruct (Hread 0 (mkDPS true true 3 "forward") eq_refl)
      as (a' & Hstep & Hon & Hspeed & Hdir & Hlight & Hvalid & _ & _ & Hget).
    exists a'. split; [exact Hstep |].
    split; [exact Hon |]. split; [exact Hspeed |]. split; [exact Hdir |].
    split; [exact Hlight |]. split; [exact Hvalid |].
    exact (Hget FanRotationSpeed).
Defined.

(** ** Late completions *)

Section OutOfBand.

(** No turn of a [setDeviceValue] call, and no late settlement, writes
    the cache. *)
Lemma out_of_band_state (e : event) (a a' : Accessory) :
  out_of_band a e -> step e a = Some a' -> state a' = state a.
Proof.
  intros Hoob Hstep. destruct e; cbn in Hoob; try contradiction; cbn in Hstep.
  - destruct Hoob as (dps & value & pc & _ & Hx). rewrite Hx in Hstep.
    destruct (bool_decide _); [| discriminate].
    destruct pc; try discriminate; injection Hstep as <-; reflexivity.
  - destruct (tasks a !! t) as [[| ? ? [] ?] |]; try discriminate.
    injection Hstep as <-. destruct r; reflexivity.
  - destruct (tasks a !! t) as [[| ? ? [] ?] |]; try discriminate.
    injection Hstep as <-. destruct r; reflexivity.
  - destruct (bool_decide _); [| discriminate]. injection Hstep as <-.
    reflexivity.
Qed.

(** The turn in which [setDeviceValue] returns is the turn in which it
    calls [releaseMutex()]. *)
Lemma returns_releases (e : event) (a a' : Accessory) (t : nat) :
  returns a e t -> step e a = Some a' ->
  mutex a' = fst (Mutex.unlock (mutex a)) /\
  owners a' = filter (fun i => i <> t) (owners a)
                ++ Mutex.resolved (snd (Mutex.unlock (mutex a))) /\
  exists dps value caller,
    tasks a' !! t = Some (SetDeviceValue dps value SendDone caller).
Proof.
  intros Hret Hstep.
  destruct e as [| | | | | | t' [] | t' r | |]; cbn in Hret; try contradiction;
    destruct Hret as (-> & dps & value & caller & Hx);
    cbn in Hstep; rewrite Hx in Hstep; injection Hstep as <-.
  - cbn. split; [reflexivity | split; [reflexivity |]].
    do 3 eexists. apply list_lookup_insert_eq. eapply lookup_lt_Some, Hx.
  - destruct r; cbn; (split; [reflexivity | split; [reflexivity |]]);
      do 3 eexists; apply list_lookup_insert_eq; eapply lookup_lt_Some, Hx.
Qed.

Lemma returned_in_critical_section (e : event) (a : Accessory) (t : nat) :
  returns a e t -> exists x, tasks a !! t = Some x /\ in_critical_section x.
Proof.
  destruct e as [| | | | | | t' [] | t' r | |]; cbn; try contradiction;
    intros (-> & dps & value & caller & Hx); eexists; (split; [exact Hx | exact I]).
Qed.

End OutOfBand.



(* ================================================================== *)
(** * Part III: further properties of the code *)
(* ================================================================== *)

(** ** Sessions with the device *)

Section Sessions.

Lemma step_transition (e : event) (a a' : Accessory) :
  step e a = Some a' -> transition a a'.
Proof.
  intros Hstep.
  assert (Hget : transition a (getDeviceStatus a) /\
                 forall h, transition a (getDeviceStatus (clearTimeout h a))).
  { unfold getDeviceStatus.
    change (isGetStatusInProgress (clearTimeout _ a)) with (isGetStatusInProgress a).
    split; [| intros h;
      change (isGetStatusInProgress (clearTimeout _ (clearTimeout h a)))
        with (isGetStatusInProgress a)];
      destruct (isGetStatusInProgress a); cbn [negb];
      first [ apply trans_frame; reflexivity
            | apply (trans_spawn _ _ (GetDeviceStatus PollLock));
              [exact I | reflexivity ..] ]. }
  destruct Hget as [Hget Hfire].
  destruct e; cbn in Hstep.
  - destruct (bool_decide _); [| discriminate]. injection Hstep as <-. apply Hfire.
  - injection Hstep as <-. rewrite handleGet_state. exact Hget.
  - injection Hstep as <-.
    apply (trans_spawn _ _ (SetDeviceValue dps value SendLock None));
      [exact I | reflexivity ..].
  - destruct (bool_decide _); [| discriminate].
    destruct (tasks a !! t) as [[[] | d v [] c] |] eqn:Hx; try discriminate;
      injection Hstep as <-;
      (eapply trans_update; [exact Hx | reflexivity .. | cbn; tauto]).
  - destruct (tasks a !! t) as [[[] | ] |] eqn:Hx; try discriminate.
    injection Hstep as <-. unfold getDeviceStatus_connected.
    destruct (waitForPromiseWithTimeout r _).
    + eapply trans_update; [exact Hx | reflexivity .. | cbn; tauto].
    + destruct (abandon_frame r a) as (Ht & Ho & Hm & _).
      eapply (trans_finish _ _ t _ (GetDeviceStatus PollDone));
        [exact Hx | exact I | cbn; tauto | cbn; rewrite Ht; reflexivity
        | cbn; rewrite Hm; reflexivity | cbn; rewrite Ho, Hm; reflexivity].
  - destruct (tasks a !! t) as [[[] | ] |] eqn:Hx; try discriminate.
    injection Hstep as <-. unfold getDeviceStatus_read.
    destruct (waitForPromiseWithTimeout r _).
    + eapply (trans_finish _ _ t _ (GetDeviceStatus PollDone));
        [exact Hx | exact I | cbn; tauto | reflexivity ..].
    + destruct (abandon_frame r a) as (Ht & Ho & Hm & _).
      eapply (trans_finish _ _ t _ (GetDeviceStatus PollDone));
        [exact Hx | exact I | cbn; tauto | cbn; rewrite Ht; reflexivity
        | cbn; rewrite Hm; reflexivity | cbn; rewrite Ho, Hm; reflexivity].
  - destruct (tasks a !! t) as [[| d v [] c] |] eqn:Hx; try discriminate.
    injection Hstep as <-. destruct r.
    + eapply trans_update; [exact Hx | reflexivity .. | cbn; tauto].
    + eapply (trans_finish _ _ t _ (SetDeviceValue d v SendDone _));
        [exact Hx | exact I | cbn; tauto | reflexivity ..].
  - destruct (tasks a !! t) as [[| d v [] c] |] eqn:Hx; try discriminate.
    injection Hstep as <-.
    destruct r;
      (eapply (trans_finish _ _ t _ (SetDeviceValue d v SendDone _));
       [exact Hx | exact I | cbn; tauto | reflexivity ..]).
  - destruct (tasks a !! t) as [[| d v pc c] |] eqn:Hx; try discriminate.
    injection Hstep as <-.
    eapply trans_update; [exact Hx | reflexivity .. |].
    destruct pc; cbn; tauto.
  - destruct (bool_decide _); [| discriminate]. injection Hstep as <-.
    apply trans_frame; reflexivity.
Qed.

Lemma critical_unique (a : Accessory) (t1 t2 : nat) (x1 x2 : task) :
  consistent a ->
  tasks a !! t1 = Some x1 -> in_critical_section x1 ->
  tasks a !! t2 = Some x2 -> in_critical_section x2 -> t1 = t2.
Proof.
  intros Hc L1 C1 L2 C2.
  pose proof (critical_owner a Hc t1 x1 L1 C1) as O1.
  pose proof (critical_owner a Hc t2 x2 L2 C2) as O2.
  destruct (one_owner a Hc) as [Hnil | [t Hone]]; rewrite ?Hnil, ?Hone in O1, O2.
  - inversion O1.
  - apply list_elem_of_singleton in O1, O2. congruence.
Qed.

End Sessions.

(** X1. In every reachable state at most one call, of [getDeviceStatus] or
    of [setDeviceValue], is between the grant of the mutex and its
    [finally]; while there is one, the mutex is locked and that call is its
    only owner. *)
Theorem one_session_at_a_time (es : list event) (a : Accessory) :
  run es constructed = Some a ->
  (forall t1 t2 x1 x2,
      tasks a !! t1 = Some x1 -> in_critical_section x1 ->
      tasks a !! t2 = Some x2 -> in_critical_section x2 -> t1 = t2) /\
  (forall t x,
      tasks a !! t = Some x -> in_critical_section x ->
      Mutex.isLocked (mutex a) = true /\ owners a = [t]).
Proof.
  intros Hrun.
  pose proof (run_consistent es _ _ constructed_consistent Hrun) as Hc.
  split; [intros; eapply critical_unique; eassumption |].
  intros t x Hx Hcs.
  pose proof (critical_owner a Hc t x Hx Hcs) as Hown.
  assert (Hone : owners a = [t]).
  { destruct (one_owner a Hc) as [Hnil | [t0 Hone]]; rewrite ?Hnil, ?Hone in Hown.
    - inversion Hown.
    - apply list_elem_of_singleton in Hown. congruence. }
  split; [| exact Hone].
  rewrite (locked_owner a Hc), Hone. reflexivity.
Qed.

(** Witness of X1: a dispatch arrives while the first poll waits for
    [connect()]. *)
Lemma one_session_at_a_time_witness :
  Mutex.isLocked (mutex (setDeviceValueWithTimeout 60 (VBool true) polling_connect))
  = true /\
  owners (setDeviceValueWithTimeout 60 (VBool true) polling_connect) = [0].
Proof.
  destruct (one_session_at_a_time
              [TimerFires 0; Granted 0; Dispatch 60 (VBool true)]
              (setDeviceValueWithTimeout 60 (VBool true) polling_connect)
              eq_refl) as [_ H].
  apply (H 0 (GetDeviceStatus PollConnect)); [reflexivity | exact I].
Defined.

(** ** No call waits in vain *)

Section Fairness.

Lemma StronglySorted_snoc (l : list nat) (t : nat) :
  StronglySorted Nat.lt l -> Forall (fun i => i < t) l -> StronglySorted Nat.lt (l ++ [t]).
Proof.
  induction 1 as [| i l Hl IH Hi]; intros Hlt; cbn.
  - repeat constructor.
  - inversion Hlt as [| ? ? Hit Hrest]; subst. constructor.
    + apply IH, Hrest.
    + apply Forall_app. split; [exact Hi | repeat constructor; exact Hit].
Qed.

Lemma constructed_fair : fair constructed.
Proof.
  split; cbn.
  - intros t x H. inversion H.
  - constructor.
Qed.

Lemma transition_fair (a a' : Accessory) :
  consistent a -> fair a -> transition a a' -> fair a'.
Proof.
  intros Hc [Hknown Horder] Htrans.
  destruct Htrans as [Ht Ho Hm | t x x' Hx Ht Ho Hm Hw
                      | x Hw Ht Hm Ho | t x x' Hx Hcs Hdead Ht Hm Ho].
  - split; rewrite ?Ht, ?Ho, ?Hm; assumption.
  - split; rewrite ?Ht, ?Ho, ?Hm; [| assumption].
    intros i y L W.
    destruct (lookup_update_old _ _ _ _ _ _ Hx L) as [[-> ->] | [N O]].
    + apply (Hknown t x Hx (Hw W)).
    + apply (Hknown i y O W).
  - assert (Hbelow : Forall (fun i => i < length (tasks a))
                            (owners a ++ Mutex.waitingQueue (mutex a))).
    { apply Forall_app. split; apply Forall_forall; intros i Hi.
      - destruct (owner_live a Hc i Hi) as (y & L & _).
        eapply lookup_lt_Some, L.
      - destruct (queue_waits a Hc i Hi) as [(y & L & _) _].
        eapply lookup_lt_Some, L. }
    destruct (Mutex_lock_cases (length (tasks a)) (mutex a)) as [[Hf E] | [Hl E]];
      rewrite E in Hm, Ho; cbn in Hm, Ho.
    + rewrite (free_no_owner a Hc Hf) in Ho. cbn in Ho.
      pose proof (free_no_waiter a Hc Hf) as Hq.
      split; rewrite ?Ht, ?Ho, ?Hm; cbn.
      * intros i y L W.
        destruct (lookup_snoc_old _ _ _ _ L) as [[_ O] | [-> ->]]; [| left; left].
        destruct (Hknown i y O W) as [Hin | Hin].
        -- rewrite (free_no_owner a Hc Hf) in Hin. inversion Hin.
        -- rewrite Hq in Hin. inversion Hin.
      * rewrite Hq. repeat constructor.
    + rewrite app_nil_r in Ho.
      split; rewrite ?Ht, ?Ho, ?Hm; cbn.
      * intros i y L W.
        destruct (lookup_snoc_old _ _ _ _ L) as [[_ O] | [-> ->]].
        -- destruct (Hknown i y O W) as [Hin | Hin]; [left; exact Hin | right].
           apply elem_of_app. left. exact Hin.
        -- right. apply elem_of_app. right. left.
      * rewrite app_assoc. apply StronglySorted_snoc; assumption.
  - assert (Hown : owners a = [t]).
    { pose proof (critical_owner a Hc t x Hx Hcs) as Hin.
      destruct (one_owner a Hc) as [Hnil | [t0 Hone]]; rewrite ?Hnil, ?Hone in Hin.
      - inversion Hin.
      - apply list_elem_of_singleton in Hin. congruence. }
    rewrite Hown in Ho, Horder. cbn in Ho.
    destruct (decide (t <> t)) as [Hne | _]; [congruence |]. cbn in Ho.
    assert (Hnw' : ~ awaiting_lock x')
      by (destruct x' as [[]|? ? []]; cbn in *; tauto).
    assert (Hold : forall i y, <[t := x']> (tasks a) !! i = Some y -> awaiting_lock y ->
                               i ∈ Mutex.waitingQueue (mutex a)).
    { intros i y L W.
      destruct (lookup_update_old _ _ _ _ _ _ Hx L) as [[-> ->] | [N O]];
        [contradiction |].
      destruct (Hknown i y O W) as [Hin | Hin]; [| exact Hin].
      rewrite Hown in Hin. apply list_elem_of_singleton in Hin. contradiction. }
    destruct (Mutex_unlock_cases (mutex a)) as [[Hq E] | (n & rest & Hq & E)];
      rewrite E in Hm, Ho; cbn in Hm, Ho; rewrite Hq in *;
      split; rewrite ?Ht, ?Ho, ?Hm; cbn.
    + intros i y L W. pose proof (Hold i y L W) as Hin. inversion Hin.
    + constructor.
    + intros i y L W. pose proof (Hold i y L W) as Hin.
      apply elem_of_cons in Hin. destruct Hin as [-> | Hin]; [left; left | right; exact Hin].
    + cbn in Horder. inversion Horder; assumption.
Qed.

Lemma run_fair (es : list event) :
  forall a a', consistent a -> fair a -> run es a = Some a' -> fair a'.
Proof.
  induction es as [| e es IH]; intros a a' Hc Hf Hrun; cbn in Hrun.
  - injection Hrun as <-. exact Hf.
  - destruct (step e a) as [a1 |] eqn:He; [| discriminate].
    apply (IH a1 a'); [eapply step_consistent; eassumption | | exact Hrun].
    eapply transition_fair; [exact Hc | exact Hf | eapply step_transition, He].
Qed.

End Fairness.

(** X2. In every reachable state a call that waits for the mutex, be it a
    poll or a dispatch, is either the call the mutex has just been handed
    to or is in the waiting queue, and the mutex is locked: no call waits
    on a free mutex.  The owner and the queue are in the order in which
    the calls called [lock()], so polls and dispatches get the device in
    call order. *)
Theorem no_lost_wakeup (es : list event) (a : Accessory) :
  run es constructed = Some a ->
  (forall t x,
      tasks a !! t = Some x -> awaiting_lock x ->
      ((t ∈ owners a) \/ (t ∈ Mutex.waitingQueue (mutex a))) /\
      Mutex.isLocked (mutex a) = true) /\
  StronglySorted Nat.lt (owners a ++ Mutex.waitingQueue (mutex a)).
Proof.
  intros Hrun.
  pose proof (run_consistent es _ _ constructed_consistent Hrun) as Hc.
  destruct (run_fair es _ _ constructed_consistent constructed_fair Hrun)
    as [Hknown Horder].
  split; [| exact Horder].
  intros t x Hx Hw. pose proof (Hknown t x Hx Hw) as Hin.
  split; [exact Hin |].
  destruct (Mutex.isLocked (mutex a)) eqn:Hl; [reflexivity | exfalso].
  destruct Hin as [Hin | Hin].
  - rewrite (free_no_owner a Hc Hl) in Hin. inversion Hin.
  - rewrite (free_no_waiter a Hc Hl) in Hin. inversion Hin.
Qed.

(** Witness of X2: the first poll holds the mutex, then three dispatches
    are made; they queue up in the order of the calls. *)
Lemma no_lost_wakeup_witness :
  StronglySorted Nat.lt
    (owners queued_dispatches ++ Mutex.waitingQueue (mutex queued_dispatches)).
Proof.
  destruct (no_lost_wakeup
              [TimerFires 0; Granted 0; Dispatch 60 (VBool true);
               Dispatch 20 (VBool false); Dispatch 62 (VNumber 2)]
              queued_dispatches eq_refl) as [_ H].
  exact H.
Defined.


(** ** The cache has one writer *)

(** X3. The device state cache is written only by the turn that ends a
    poll attempt.  Every other turn, in any state, leaves all its fields
    as they are: a timer firing, a get handler, the start and every turn of
    a dispatch (also its time-out), the grant of the mutex, a [connect()]
    of the poller that succeeds, and a late settlement. *)
Theorem cache_written_by_poll_only (e : event) (a a' : Accessory) :
  completes_poll e a = None ->
  step e a = Some a' ->
  state a' = state a.
Proof.
  intros Hnone Hstep. destruct e; cbn in Hstep, Hnone.
  - destruct (bool_decide _); [| discriminate]. injection Hstep as <-.
    rewrite getDeviceStatus_state. reflexivity.
  - injection Hstep as <-. rewrite handleGet_state. apply getDeviceStatus_state.
  - injection Hstep as <-. reflexivity.
  - destruct (bool_decide _); [| discriminate].
    destruct (tasks a !! t) as [[[] | d v [] c] |]; try discriminate;
      injection Hstep as <-; reflexivity.
  - destruct (tasks a !! t) as [[[] | ] |]; try discriminate.
    injection Hstep as <-. unfold getDeviceStatus_connected.
    destruct (waitForPromiseWithTimeout r _); [reflexivity | discriminate].
  - destruct (tasks a !! t) as [[[] | ] |]; try discriminate.
    destruct (waitForPromiseWithTimeout r _); discriminate.
  - destruct (tasks a !! t) as [[| d v [] c] |]; try discriminate.
    injection Hstep as <-. destruct r; reflexivity.
  - destruct (tasks a !! t) as [[| d v [] c] |]; try discriminate.
    injection Hstep as <-. destruct r; reflexivity.
  - destruct (tasks a !! t) as [[| d v pc c] |]; try discriminate.
    injection Hstep as <-. reflexivity.
  - destruct (bool_decide _); [| discriminate]. injection Hstep as <-.
    reflexivity.
Qed.

(** Witness of X3: a dispatched write of the fan speed goes through
    without the cache changing. *)
Lemma cache_written_by_poll_only_witness :
  state (setDeviceValue_connected 0 62 (VNumber 3) None (Fulfilled tt) sending)
  = state sending.
Proof.
  apply (cache_written_by_poll_only (SendConnected 0 (Fulfilled tt)) sending);
    reflexivity.
Defined.

(** ** The poll loop *)

Section PollLoop.

Lemma step_timer_pending (e : event) (a a' : Accessory) :
  (isGetStatusInProgress a = false -> getDeviceStatusTimer a ∈ map fst (timers a)) ->
  step e a = Some a' ->
  isGetStatusInProgress a' = false -> getDeviceStatusTimer a' ∈ map fst (timers a').
Proof.
  intros Hinv Hstep.
  assert (Hsnoc : forall (ts : list (nat * N)) h ms, h ∈ map fst (ts ++ [(h, ms)])).
  { intros ts h ms. rewrite map_app. apply elem_of_app. right. left. }
  assert (Hget : forall a0, isGetStatusInProgress (getDeviceStatus a0) = false ->
                            getDeviceStatusTimer (getDeviceStatus a0)
                              ∈ map fst (timers (getDeviceStatus a0))).
  { intros a0. unfold getDeviceStatus.
    change (isGetStatusInProgress (clearTimeout _ a0)) with (isGetStatusInProgress a0).
    destruct (isGetStatusInProgress a0); cbn; [intros _; apply Hsnoc | discriminate]. }
  destruct e; cbn in Hstep.
  - destruct (bool_decide _); [| discriminate]. injection Hstep as <-. apply Hget.
  - injection Hstep as <-. rewrite handleGet_state. apply Hget.
  - injection Hstep as <-. exact Hinv.
  - destruct (bool_decide _); [| discriminate].
    destruct (tasks a !! t) as [[[] | d v [] c] |]; try discriminate;
      injection Hstep as <-; exact Hinv.
  - destruct (tasks a !! t) as [[[] | ] |]; try discriminate.
    injection Hstep as <-. unfold getDeviceStatus_connected.
    destruct (waitForPromiseWithTimeout r _); [exact Hinv |].
    intros _. cbn. apply Hsnoc.
  - destruct (tasks a !! t) as [[[] | ] |]; try discriminate.
    injection Hstep as <-. unfold getDeviceStatus_read.
    destruct (waitForPromiseWithTimeout r _); intros _; cbn; apply Hsnoc.
  - destruct (tasks a !! t) as [[| d v [] c] |]; try discriminate.
    injection Hstep as <-. destruct r; exact Hinv.
  - destruct (tasks a !! t) as [[| d v [] c] |]; try discriminate.
    injection Hstep as <-. destruct r; exact Hinv.
  - destruct (tasks a !! t) as [[| d v pc c] |]; try discriminate.
    injection Hstep as <-. exact Hinv.
  - destruct (bool_decide _); [| discriminate]. injection Hstep as <-. exact Hinv.
Qed.

Lemma run_timer_pending (es : list event) :
  forall a a',
    (isGetStatusInProgress a = false -> getDeviceStatusTimer a ∈ map fst (timers a)) ->
    run es a = Some a' ->
    isGetStatusInProgress a' = false -> getDeviceStatusTimer a' ∈ map fst (timers a').
Proof.
  induction es as [| e es IH]; intros a a' Hinv Hrun; cbn in Hrun.
  - injection Hrun as <-. exact Hinv.
  - destruct (step e a) as [a1 |] eqn:He; [| discriminate].
    apply (IH a1 a'); [eapply step_timer_pending; eassumption | exact Hrun].
Qed.

End PollLoop.

(** X4. The poll loop never stops by itself: in every reachable state in
    which no status read is in progress, the timer whose handle is stored
    in [getDeviceStatusTimer] is pending, and when it fires a new poll
    attempt starts, which sets the flag and calls [lock()]. *)
Theorem poll_loop_never_dropped (es : list event) (a : Accessory) :
  run es constructed = Some a ->
  isGetStatusInProgress a = false ->
  (getDeviceStatusTimer a ∈ map fst (timers a)) /\
  exists a',
    step (TimerFires (getDeviceStatusTimer a)) a = Some a' /\
    isGetStatusInProgress a' = true /\
    tasks a' = tasks a ++ [GetDeviceStatus PollLock].
Proof.
  intros Hrun Hflag.
  assert (Hpending : getDeviceStatusTimer a ∈ map fst (timers a)).
  { apply (run_timer_pending es constructed a); [| exact Hrun | exact Hflag].
    intros _. cbn. left. }
  split; [exact Hpending |].
  cbn. rewrite (bool_decide_eq_true_2 _ Hpending).
  eexists. split; [reflexivity |].
  rewrite getDeviceStatus_tasks. unfold getDeviceStatus.
  change (isGetStatusInProgress (clearTimeout _ (clearTimeout _ a)))
    with (isGetStatusInProgress a).
  change (tasks (clearTimeout (getDeviceStatusTimer a) a)) with (tasks a).
  change (isGetStatusInProgress (clearTimeout (getDeviceStatusTimer a) a))
    with (isGetStatusInProgress a).
  rewrite Hflag. cbn. auto.
Qed.

(** Witness of X4: after the first poll has timed out at [connect()]. *)
Lemma poll_loop_never_dropped_witness :
  (getDeviceStatusTimer (getDeviceStatus_connected 0 TimerFirst polling_connect)
     ∈ map fst (timers (getDeviceStatus_connected 0 TimerFirst polling_connect))) /\
  exists a',
    step (TimerFires (getDeviceStatusTimer
                        (getDeviceStatus_connected 0 TimerFirst polling_connect)))
         (getDeviceStatus_connected 0 TimerFirst polling_connect) = Some a' /\
    isGetStatusInProgress a' = true /\
    tasks a' = tasks (getDeviceStatus_connected 0 TimerFirst polling_connect)
                 ++ [GetDeviceStatus PollLock].
Proof.
  apply (poll_loop_never_dropped
           [TimerFires 0; Granted 0; Connected 0 TimerFirst]
           (getDeviceStatus_connected 0 TimerFirst polling_connect));
    vm_compute; reflexivity.
Defined.

(** ** Requests on the wire *)

Section Wire.

Lemma well_sequenced_snoc_other (w : list (nat * request)) (c : nat) (r : request) :
  well_sequenced w -> ~ is_operation r -> well_sequenced (w ++ [(c, r)]).
Proof.
  intros Hw Hr i c0 r0 L Hop.
  apply lookup_snoc_Some in L. destruct L as [[Hlt L] | [-> E]].
  - destruct (Hw i c0 r0 L Hop) as (j & -> & Lj).
    exists j. split; [reflexivity | apply lookup_app_l_Some, Lj].
  - injection E as <- <-. contradiction.
Qed.

Lemma well_sequenced_snoc_operation (w : list (nat * request)) (c : nat) (r : request) :
  well_sequenced (w ++ [(c, Connect)]) ->
  well_sequenced ((w ++ [(c, Connect)]) ++ [(c, r)]).
Proof.
  intros Hw i c0 r0 L Hop.
  apply lookup_snoc_Some in L. destruct L as [[Hlt L] | [-> E]].
  - destruct (Hw i c0 r0 L Hop) as (j & -> & Lj).
    exists j. split; [reflexivity | apply lookup_app_l_Some, Lj].
  - injection E as <- <-. exists (length w). split.
    + rewrite length_app. cbn. lia.
    + apply lookup_app_l_Some. apply list_lookup_middle. reflexivity.
Qed.

Lemma abandon_wire {A : Type} (r : raced A) (a : Accessory) :
  wire (abandon r a) = wire a.
Proof. destruct r; reflexivity. Qed.

Lemma getDeviceStatus_wire (a : Accessory) :
  wire (getDeviceStatus a) = wire a /\
  deviceCommunicator (getDeviceStatus a) = deviceCommunicator a.
Proof. unfold getDeviceStatus. destruct (negb _); split; reflexivity. Qed.

Lemma at_connect_critical (x : task) : at_connect x -> in_critical_section x.
Proof. destruct x as [[] | ? ? [] ?]; cbn; tauto. Qed.

(** Once the call of the critical section has moved past its [connect()],
    no call waits for a [connect()]. *)
Lemma nobody_connecting (a : Accessory) (t : nat) (x x' : task) :
  consistent a ->
  tasks a !! t = Some x -> in_critical_section x -> ~ at_connect x' ->
  forall i y, <[t := x']> (tasks a) !! i = Some y -> ~ at_connect y.
Proof.
  intros Hc Hx Hcs Hx' i y L Hy.
  destruct (lookup_update_old _ _ _ _ _ _ Hx L) as [[-> ->] | [N O]];
    [contradiction |].
  apply N. eapply (critical_unique a i t y x Hc O); auto using at_connect_critical.
Qed.

Lemma wired_frame (a a' : Accessory) :
  wire a' = wire a -> deviceCommunicator a' = deviceCommunicator a ->
  (forall i y, tasks a' !! i = Some y -> at_connect y ->
               exists j z, tasks a !! j = Some z /\ at_connect z) ->
  wired a -> wired a'.
Proof.
  intros Hw Hd Ht [Hseq Hconn]. split; rewrite Hw, ?Hd; [exact Hseq |].
  intros i y L Hy. destruct (Ht i y L Hy) as (j & z & Lz & Hz). eauto.
Qed.

Lemma wired_snoc_other (a a' : Accessory) (r : request) :
  wire a' = wire a ++ [(deviceCommunicator a, r)] ->
  deviceCommunicator a' = deviceCommunicator a ->
  ~ is_operation r ->
  (forall i y, tasks a' !! i = Some y -> at_connect y -> r = Connect) ->
  wired a -> wired a'.
Proof.
  intros Hw Hd Hr Ht [Hseq Hconn]. split; rewrite Hw, ?Hd.
  - apply well_sequenced_snoc_other; assumption.
  - intros i y L Hy. rewrite (Ht i y L Hy). eauto.
Qed.

Lemma wired_snoc_operation (a a' : Accessory) (t : nat) (x : task) (r : request) :
  tasks a !! t = Some x -> at_connect x ->
  wire a' = wire a ++ [(deviceCommunicator a, r)] ->
  deviceCommunicator a' = deviceCommunicator a ->
  (forall i y, tasks a' !! i = Some y -> ~ at_connect y) ->
  wired a -> wired a'.
Proof.
  intros Hx Hcon Hw Hd Ht [Hseq Hconn]. split; rewrite Hw, ?Hd.
  - destruct (Hconn t x Hx Hcon) as [w Hwire]. rewrite Hwire in *.
    apply well_sequenced_snoc_operation, Hseq.
  - intros i y L Hy. destruct (Ht i y L Hy).
Qed.

Lemma constructed_wired : wired constructed.
Proof.
  split; cbn.
  - intros i c r H. inversion H.
  - intros t x H. inversion H.
Qed.

Lemma step_wired (e : event) (a a' : Accessory) :
  consistent a -> wired a -> step e a = Some a' -> wired a'.
Proof.
  intros Hc Hw Hstep.
  assert (Hget : forall a0, wire a0 = wire a ->
                   deviceCommunicator a0 = deviceCommunicator a ->
                   tasks a0 = tasks a ->
                   isGetStatusInProgress a0 = isGetStatusInProgress a ->
                   wired (getDeviceStatus a0)).
  { intros a0 E1 E2 E3 E4.
    destruct (getDeviceStatus_wire a0) as [W D].
    apply (wired_frame a); [congruence | congruence | | exact Hw].
    intros i y L Hy. rewrite getDeviceStatus_tasks, E3 in L.
    destruct (isGetStatusInProgress a0).
    - rewrite app_nil_r in L. eauto.
    - apply lookup_snoc_Some in L. destruct L as [[_ L] | [_ <-]]; [eauto |].
      destruct Hy. }
  destruct e; cbn in Hstep.
  - destruct (bool_decide _); [| discriminate]. injection Hstep as <-.
    apply Hget; reflexivity.
  - injection Hstep as <-. rewrite handleGet_state. apply Hget; reflexivity.
  - injection Hstep as <-.
    apply (wired_frame a); [reflexivity | reflexivity | | exact Hw].
    intros i y L Hy. cbn in L.
    apply lookup_snoc_Some in L. destruct L as [[_ L] | [_ <-]]; [eauto |].
    destruct Hy.
  - destruct (bool_decide _); [| discriminate].
    destruct (tasks a !! t) as [[[] | d v [] c] |] eqn:Hx; try discriminate;
      injection Hstep as <-;
      (apply (wired_snoc_other a _ Connect);
       [reflexivity | reflexivity | cbn; tauto | reflexivity | exact Hw]).
  - destruct (tasks a !! t) as [[[] | ] |] eqn:Hx; try discriminate.
    injection Hstep as <-. unfold getDeviceStatus_connected.
    destruct (waitForPromiseWithTimeout r _).
    + apply (wired_snoc_operation a _ t _ Get Hx I);
        [reflexivity | reflexivity | | exact Hw].
      apply (nobody_connecting a t _ _ Hc Hx I). cbn. tauto.
    + destruct (abandon_frame r a) as (Ht & _ & _ & _ & _ & Hd).
      apply (wired_snoc_other a _ Disconnect);
        [cbn; rewrite abandon_wire, Hd; reflexivity | cbn; exact Hd | cbn; tauto
        | | exact Hw].
      intros i y L Hy. exfalso. cbn in L. rewrite Ht in L.
      apply (nobody_connecting a t _ (GetDeviceStatus PollDone) Hc Hx I
               (fun H => H) i y L Hy).
  - destruct (tasks a !! t) as [[[] | ] |] eqn:Hx; try discriminate.
    injection Hstep as <-. unfold getDeviceStatus_read.
    destruct (waitForPromiseWithTimeout r _).
    + apply (wired_frame a); [reflexivity | reflexivity | | exact Hw].
      intros i y L Hy. exfalso. cbn in L.
      apply (nobody_connecting a t _ (GetDeviceStatus PollDone) Hc Hx I
               (fun H => H) i y L Hy).
    + destruct (abandon_frame r a) as (Ht & _ & _ & _ & _ & Hd).
      apply (wired_snoc_other a _ Disconnect);
        [cbn; rewrite abandon_wire, Hd; reflexivity | cbn; exact Hd | cbn; tauto
        | | exact Hw].
      intros i y L Hy. exfalso. cbn in L. rewrite Ht in L.
      apply (nobody_connecting a t _ (GetDeviceStatus PollDone) Hc Hx I
               (fun H => H) i y L Hy).
  - destruct (tasks a !! t) as [[| d v [] c] |] eqn:Hx; try discriminate.
    injection Hstep as <-. destruct r.
    + apply (wired_snoc_operation a _ t _ (Set_ d v) Hx I);
        [reflexivity | reflexivity | | exact Hw].
      apply (nobody_connecting a t _ _ Hc Hx I). cbn. tauto.
    + apply (wired_snoc_other a _ Disconnect);
        [reflexivity | reflexivity | cbn; tauto | | exact Hw].
      intros i y L Hy. exfalso. cbn in L.
      refine (nobody_connecting a t _ _ Hc Hx I _ i y L Hy). cbn. tauto.
  - destruct (tasks a !! t) as [[| d v [] c] |] eqn:Hx; try discriminate.
    injection Hstep as <-. destruct r.
    + apply (wired_frame a); [reflexivity | reflexivity | | exact Hw].
      intros i y L Hy. exfalso. cbn in L.
      refine (nobody_connecting a t _ _ Hc Hx I _ i y L Hy). cbn. tauto.
    + apply (wired_snoc_other a _ Disconnect);
        [reflexivity | reflexivity | cbn; tauto | | exact Hw].
      intros i y L Hy. exfalso. cbn in L.
      refine (nobody_connecting a t _ _ Hc Hx I _ i y L Hy). cbn. tauto.
  - destruct (tasks a !! t) as [[| d v pc c] |] eqn:Hx; try discriminate.
    injection Hstep as <-.
    apply (wired_frame a); [reflexivity | reflexivity | | exact Hw].
    intros i y L Hy. cbn in L.
    destruct (lookup_update_old _ _ _ _ _ _ Hx L) as [[-> ->] | [N O]]; [| eauto].
    exists t, (SetDeviceValue d v pc c). split; [exact Hx |].
    destruct pc; cbn in *; tauto.
  - destruct (bool_decide _); [| discriminate]. injection Hstep as <-.
    apply (wired_frame a); [reflexivity | reflexivity | | exact Hw].
    intros i y L Hy. eauto.
Qed.

Lemma run_wired (es : list event) :
  forall a a', consistent a -> wired a -> run es a = Some a' -> wired a'.
Proof.
  induction es as [| e es IH]; intros a a' Hc Hw Hrun; cbn in Hrun.
  - injection Hrun as <-. exact Hw.
  - destruct (step e a) as [a1 |] eqn:He; [| discriminate].
    apply (IH a1 a'); [eapply step_consistent; eassumption | | exact Hrun].
    eapply step_wired; eassumption.
Qed.

End Wire.

(** X5. In every reachable state, every [get] and every [set] request made
    to the device comes directly after a [connect()] on the same
    connection object: polls and dispatches never interleave their
    requests, and none reads or writes without connecting first.  The
    first request ever made is not a [get] or a [set]. *)
Theorem requests_follow_connect
  (es : list event) (a : Accessory) (i c : nat) (r : request) :
  run es constructed = Some a ->
  wire a !! i = Some (c, r) ->
  is_operation r ->
  exists j, i = S j /\ wire a !! j = Some (c, Connect).
Proof.
  intros Hrun L Hop.
  destruct (run_wired es _ _ constructed_consistent constructed_wired Hrun)
    as [Hseq _].
  exact (Hseq i c r L Hop).
Qed.

(** Witness of X5: a poll that reads, with a dispatch queued meanwhile that
    then writes. *)
Lemma requests_follow_connect_witness :
  exists j, 3 = S j /\
            wire written_after_poll !! j = Some (0, Connect).
Proof.
  apply (requests_follow_connect
           [TimerFires 0; Granted 0; Dispatch 60 (VBool true);
            Connected 0 (PromiseFirst (Fulfilled tt));
            Read 0 (PromiseFirst (Fulfilled (mkDPS false true 3 "forward")));
            Granted 1; SendConnected 1 (Fulfilled tt)]
           written_after_poll 3 0 (Set_ 60 (VBool true)));
    [vm_compute; reflexivity | reflexivity | exact I].
Defined.

(** ** More on the slider quantisation *)

Section Quantisation.

Lemma levels_normalized : fanRotationSpeedNormalized = map Num levels.
Proof. reflexivity. Qed.

Lemma Qle_bool_false (x y : Q) : Qle_bool x y = false -> (y < x)%Q.
Proof.
  intros H. apply Qnot_le_lt. intros Hle. apply Qle_bool_iff in Hle. congruence.
Qed.

(** The branch [adjustInputRotationSpeed] takes on a finite input other
    than 0. *)
Lemma adjustInputRotationSpeed_cases (q : Q) :
  ~ (q == 0)%Q ->
  ((q < 20)%Q /\ adjustInputRotationSpeed (Num q) = Num 10) \/
  ((20 <= q)%Q /\ (q < 40)%Q /\ adjustInputRotationSpeed (Num q) = Num 30) \/
  ((40 <= q)%Q /\ (q < 60)%Q /\ adjustInputRotationSpeed (Num q) = Num 50) \/
  ((60 <= q)%Q /\ (q < 80)%Q /\ adjustInputRotationSpeed (Num q) = Num 70) \/
  ((80 <= q)%Q /\ (q < 95)%Q /\ adjustInputRotationSpeed (Num q) = Num 90) \/
  ((95 <= q)%Q /\ adjustInputRotationSpeed (Num q) = Num 100).
Proof.
  intros Hq.
  assert (Hz : strict_eq (Num q) (Num 0) = false).
  { cbn. destruct (Qeq_bool q 0) eqn:E; [| reflexivity].
    apply Qeq_bool_iff in E. contradiction. }
  unfold adjustInputRotationSpeed. rewrite Hz.
  cbn [lt]. unfold Qlt_bool.
  destruct (Qle_bool 20 q) eqn:E20; cbn [negb];
    [apply Qle_bool_iff in E20 | apply Qle_bool_false in E20; left; auto].
  destruct (Qle_bool 40 q) eqn:E40; cbn [negb];
    [apply Qle_bool_iff in E40 | apply Qle_bool_false in E40; right; left; auto].
  destruct (Qle_bool 60 q) eqn:E60; cbn [negb];
    [apply Qle_bool_iff in E60
    | apply Qle_bool_false in E60; right; right; left; auto].
  destruct (Qle_bool 80 q) eqn:E80; cbn [negb];
    [apply Qle_bool_iff in E80
    | apply Qle_bool_false in E80; right; right; right; left; auto].
  destruct (Qle_bool 95 q) eqn:E95; cbn [negb];
    [apply Qle_bool_iff in E95
    | apply Qle_bool_false in E95; right; right; right; right; left; auto].
  right; right; right; right; right. auto.
Qed.

End Quantisation.

(** X6. For every finite slider input other than 0, also a fraction, a
    negative one or one above 100, [adjustInputRotationSpeed] returns a
    level of the table that is nearest to the input: no other level is
    closer. *)
Theorem adjustInputRotationSpeed_nearest (q : Q) :
  ~ (q == 0)%Q ->
  exists y : Q,
    adjustInputRotationSpeed (Num q) = Num y /\
    In y levels /\
    Forall (fun x => (Qabs (y - q) <= Qabs (x - q))%Q) levels.
Proof.
  intros Hq.
  destruct (adjustInputRotationSpeed_cases q Hq)
    as [(H1 & E) | [(H1 & H2 & E) | [(H1 & H2 & E) | [(H1 & H2 & E)
       | [(H1 & H2 & E) | (H1 & E)]]]]];
    rewrite E; eexists; (split; [reflexivity |]); (split; [cbn; tauto |]);
    unfold levels;
    repeat match goal with
           | |- Forall _ (_ :: _) => constructor
           | |- Forall _ [] => constructor
           end;
    first [ apply Qle_refl
          | apply Qabs_case; intros; apply Qabs_case; intros; lra ].
Qed.

(** Witness of X6: the input 94.5. *)
Lemma adjustInputRotationSpeed_nearest_witness :
  exists y : Q,
    adjustInputRotationSpeed (Num 94.5) = Num y /\
    In y levels /\
    Forall (fun x => (Qabs (y - 94.5) <= Qabs (x - 94.5))%Q) levels.
Proof.
  apply (adjustInputRotationSpeed_nearest 94.5%Q).
  intros H. discriminate H.
Defined.

(** X7. On positive finite inputs [adjustInputRotationSpeed] is monotone: a
    higher slider position never gives a lower level. *)
Theorem adjustInputRotationSpeed_monotone (p q : Q) :
  (0 < p)%Q -> (p <= q)%Q ->
  exists y1 y2 : Q,
    adjustInputRotationSpeed (Num p) = Num y1 /\
    adjustInputRotationSpeed (Num q) = Num y2 /\
    (y1 <= y2)%Q.
Proof.
  intros Hp Hpq.
  assert (Hp0 : ~ (p == 0)%Q) by (intros E; rewrite E in Hp; lra).
  assert (Hq0 : ~ (q == 0)%Q) by (intros E; rewrite E in Hpq; lra).
  destruct (adjustInputRotationSpeed_cases p Hp0)
    as [(P1 & E1) | [(P1 & P2 & E1) | [(P1 & P2 & E1) | [(P1 & P2 & E1)
       | [(P1 & P2 & E1) | (P1 & E1)]]]]];
    destruct (adjustInputRotationSpeed_cases q Hq0)
      as [(Q1 & E2) | [(Q1 & Q2 & E2) | [(Q1 & Q2 & E2) | [(Q1 & Q2 & E2)
         | [(Q1 & Q2 & E2) | (Q1 & E2)]]]]];
    rewrite E1, E2; do 2 eexists; (split; [reflexivity |]);
    (split; [reflexivity |]); lra.
Qed.

(** Witness of X7: the inputs 39 and 40. *)
Lemma adjustInputRotationSpeed_monotone_witness :
  exists y1 y2 : Q,
    adjustInputRotationSpeed (Num 39) = Num y1 /\
    adjustInputRotationSpeed (Num 40) = Num y2 /\
    (y1 <= y2)%Q.
Proof.
  apply (adjustInputRotationSpeed_monotone 39%Q 40%Q); reflexivity || discriminate.
Defined.

(** X8. A device speed between 1 and 6 in the cache is shown as a level of
    the table; that level is a fixed point of the quantisation and gives
    the same device speed back when the set handler sends it.  A device
    speed outside 1 .. 6 is shown as [undefined]. *)
Theorem device_speed_projection (st : DeviceState) :
  ((1 <= fanSpeed st <= 6)%Z ->
   exists n,
     fanRotationSpeedValueToCharacteristicValue st = CNumber n /\
     In n fanRotationSpeedNormalized /\
     adjustInputRotationSpeed n = n /\
     dpsRotationSpeed n = fanSpeed st) /\
  ((fanSpeed st < 1 \/ 6 < fanSpeed st)%Z ->
   fanRotationSpeedValueToCharacteristicValue st = CUndefined).
Proof.
  unfold fanRotationSpeedValueToCharacteristicValue. split.
  - intros Hs.
    assert (Hcases : (fanSpeed st = 1 \/ fanSpeed st = 2 \/ fanSpeed st = 3 \/
                      fanSpeed st = 4 \/ fanSpeed st = 5 \/ fanSpeed st = 6)%Z)
      by lia.
    destruct Hcases as [E | [E | [E | [E | [E | E]]]]]; rewrite E;
      eexists; (split; [reflexivity |]); cbn; auto 10.
  - intros Hs. destruct (Z.ltb_spec (fanSpeed st - 1) 0); [reflexivity |].
    destruct Hs as [Hs | Hs]; [lia |].
    destruct (nth_error fanRotationSpeedNormalized (Z.to_nat (fanSpeed st - 1)))
      eqn:E; [| reflexivity].
    assert (Hlt : (Z.to_nat (fanSpeed st - 1) < length fanRotationSpeedNormalized)%nat)
      by (apply nth_error_Some; rewrite E; discriminate).
    cbn in Hlt. lia.
Qed.

(** Witness of X8: the state of the new accessory, with device speed 1. *)
Lemma device_speed_projection_witness :
  exists n,
    fanRotationSpeedValueToCharacteristicValue (state constructed) = CNumber n /\
    In n fanRotationSpeedNormalized /\
    adjustInputRotationSpeed n = n /\
    dpsRotationSpeed n = fanSpeed (state constructed).
Proof.
  apply (device_speed_projection (state constructed)). cbn. lia.
Defined.

(** X9. Round trip of the fan speed: when a slider input other than 0 has
    been quantised and its device speed has been written, and the device
    reports that speed in its status, the rotation speed shown to HomeKit
    is the quantised slider value again. *)
Theorem slider_speed_round_trip (value : number) (status : DPSObject) (st : DeviceState) :
  strict_eq (adjustInputRotationSpeed value) (Num 0) = false ->
  dps62 status = dpsRotationSpeed (adjustInputRotationSpeed value) ->
  fanRotationSpeedValueToCharacteristicValue (updateDeviceState status st)
  = CNumber (adjustInputRotationSpeed value) /\
  (1 <= dps62 status <= 6)%Z.
Proof.
  intros Hnz Hecho.
  unfold fanRotationSpeedValueToCharacteristicValue, updateDeviceState.
  cbn [fanSpeed]. rewrite Hecho.
  destruct (adjustInputRotationSpeed_range value) as [E | Hin].
  - rewrite E in Hnz. discriminate Hnz.
  - cbn in Hin.
    destruct Hin as [<- | [<- | [<- | [<- | [<- | [<- | []]]]]]];
      match goal with
      | |- context [dpsRotationSpeed ?n] =>
          let z := eval vm_compute in (dpsRotationSpeed n) in
          change (dpsRotationSpeed n) with z
      end;
      (split; [reflexivity | lia]).
Qed.

(** Witness of X9: the input 58 and a device that reports speed 3. *)
Lemma slider_speed_round_trip_witness :
  fanRotationSpeedValueToCharacteristicValue
    (updateDeviceState (mkDPS false true 3 "forward") (state constructed))
  = CNumber (adjustInputRotationSpeed (Num 58)) /\
  (1 <= dps62 (mkDPS false true 3 "forward") <= 6)%Z.
Proof.
  apply (slider_speed_round_trip (Num 58) (mkDPS false true 3 "forward")
           (state constructed)); reflexivity.
Defined.

(** ** What the debounce timer sends *)

Section DebounceSends.

Lemma normalized_speed (v : number) :
  In v fanRotationSpeedNormalized -> (1 <= dpsRotationSpeed v <= 6)%Z.
Proof.
  cbn. intros [<- | [<- | [<- | [<- | [<- | [<- | []]]]]]];
    match goal with
    | |- context [dpsRotationSpeed ?n] =>
        let z := eval vm_compute in (dpsRotationSpeed n) in
        change (dpsRotationSpeed n) with z
    end; lia.
Qed.

(** The passing of time, with no timer pending, sends nothing; with one
    timer pending it sends nothing or the command of that timer, and the
    timer is then gone. *)
Lemma advance_idle (dt : N) (s : Slider.t) :
  Slider.timeouts s = [] ->
  Slider.timeouts (Slider.advance dt s) = [] /\
  Slider.dispatched (Slider.advance dt s) = Slider.dispatched s.
Proof.
  intros Hnil. unfold Slider.advance. cbn. rewrite Hnil. cbn.
  split; [reflexivity | apply app_nil_r].
Qed.

Lemma advance_pending (dt : N) (s : Slider.t) (h : nat) (d : N) (v : number) :
  Slider.timeouts s = [(h, (d, v))] ->
  (Slider.timeouts (Slider.advance dt s) = [(h, (d, v))] /\
   Slider.dispatched (Slider.advance dt s) = Slider.dispatched s) \/
  (Slider.timeouts (Slider.advance dt s) = [] /\
   Slider.dispatched (Slider.advance dt s)
   = Slider.dispatched s ++ [(62%Z, VNumber (dpsRotationSpeed v))]).
Proof.
  intros Hts. unfold Slider.advance. cbn. rewrite Hts. cbn.
  destruct (Slider.due (Slider.clock s + dt) (h, (d, v))); cbn.
  - right. split; reflexivity.
  - left. split; [reflexivity | apply app_nil_r].
Qed.

End DebounceSends.

(** X10. Whatever inputs the rotation-speed set handler has received and
    whatever time has passed since the latest of them, the passing of more
    time dispatches either nothing or exactly one command, and that
    command is the write of data point 62 with the device speed of the
    quantised value of the latest input, a speed between 1 and 6: the
    debounce timer never sends speed 0, never a speed above 6, and never
    the speed of an earlier input.  Without any input it sends nothing. *)
Theorem debounce_sends_latest_input :
  (forall gap dt : N,
      Slider.dispatched (Slider.advance dt (Slider.advance gap Slider.init)) = []) /\
  (forall (xs : list (N * number)) (x : N * number) (gap dt : N),
      let v := adjustInputRotationSpeed (snd x) in
      let s := Slider.advance gap (Slider.burst (xs ++ [x]) Slider.init) in
      Slider.dispatched (Slider.advance dt s) = Slider.dispatched s \/
      (strict_eq v (Num 0) = false /\
       In v fanRotationSpeedNormalized /\
       (1 <= dpsRotationSpeed v <= 6)%Z /\
       Slider.dispatched (Slider.advance dt s)
       = Slider.dispatched s ++ [(62%Z, VNumber (dpsRotationSpeed v))])).
Proof.
  split; [reflexivity |].
  intros xs x gap dt v s.
  assert (Hwf0 : Slider.wf (Slider.advance (fst x) (Slider.burst xs Slider.init))).
  { apply advance_wf, burst_wf. left. reflexivity. }
  pose proof (handleFanRotationSpeedSet_armed (snd x) _ Hwf0) as [_ Harm].
  assert (Hs : s = Slider.advance gap
                     (Slider.handleFanRotationSpeedSet (snd x)
                        (Slider.advance (fst x) (Slider.burst xs Slider.init)))).
  { unfold s, Slider.burst. rewrite fold_left_app. reflexivity. }
  set (s1 := Slider.handleFanRotationSpeedSet (snd x)
               (Slider.advance (fst x) (Slider.burst xs Slider.init))) in *.
  clearbody s1 s. subst s.
  destruct Harm as [[_ Hnil] | [Hz (h & _ & Hts)]].
  - left. destruct (advance_idle gap s1 Hnil) as [Hnil' _].
    apply (advance_idle dt _ Hnil').
  - destruct (advance_pending gap s1 _ _ _ Hts) as [[Hts' _] | [Hnil' _]].
    + destruct (advance_pending dt _ _ _ _ Hts') as [[_ Hd] | [_ Hd]];
        [left; exact Hd | right].
      fold v in Hz, Hd.
      assert (Hin : In v fanRotationSpeedNormalized).
      { destruct (adjustInputRotationSpeed_range (snd x)) as [E0 | Hin];
          [| exact Hin].
        fold v in E0. rewrite E0 in Hz. discriminate Hz. }
      split; [exact Hz | split; [exact Hin | split; [| exact Hd]]].
      apply normalized_speed, Hin.
    + left. apply (advance_idle dt _ Hnil').
Qed.

(** ** Set handlers and get handlers agree *)

Section SetHandlers.

Lemma hapConstant_strict_eq (x y : Z) :
  js_strict_eq (hapConstant x) (hapConstant y) = (x =? y)%Z.
Proof.
  unfold hapConstant, js_strict_eq, strict_eq, Qeq_bool, inject_Z. cbn.
  rewrite !Z.mul_1_r. reflexivity.
Qed.

End SetHandlers.

(** X11. Round trip of the three switches, for any HAP constants with
    ACTIVE different from INACTIVE and CLOCKWISE different from
    COUNTER_CLOCKWISE.  The set handler for the fan's active state writes
    data point 60 with [true] for ACTIVE and [false] for INACTIVE; the one
    for the rotation direction writes data point 63 with "reverse" for
    CLOCKWISE and "forward" for COUNTER_CLOCKWISE; the one for the light
    writes data point 20 with the boolean.  When the device reports the
    written value in its status, the get handler's projection is the value
    that was set. *)
Theorem switches_round_trip
  (C : Characteristic) (a : Accessory) (status : DPSObject) (st : DeviceState) :
  Active_ACTIVE C <> Active_INACTIVE C ->
  RotationDirection_CLOCKWISE C <> RotationDirection_COUNTER_CLOCKWISE C ->
  (forall on : bool,
      tasks (handleFanActiveStateSet C
               (characteristicValue C (if on then ACTIVE else INACTIVE)) a)
      = tasks a ++ [SetDeviceValue 60 (VBool on) SendLock None] /\
      (dps60 status = on ->
       fanActiveValueToCharacteristicValue (updateDeviceState status st)
       = (if on then ACTIVE else INACTIVE))) /\
  (forall clockwise : bool,
      tasks (handleFanRotationDirectionSet C
               (characteristicValue C (if clockwise then CLOCKWISE
                                       else COUNTER_CLOCKWISE)) a)
      = tasks a ++ [SetDeviceValue 63 (VString (if clockwise then "reverse"
                                                else "forward")) SendLock None] /\
      (dps63 status = (if clockwise then "reverse" else "forward")%string ->
       fanRotationDirectionValueToCharacteristicValue (updateDeviceState status st)
       = (if clockwise then CLOCKWISE else COUNTER_CLOCKWISE))) /\
  (forall on : bool,
      tasks (handleLightOnSet on a)
      = tasks a ++ [SetDeviceValue 20 (VBool on) SendLock None] /\
      (dps20 status = on ->
       lightOnValueToCharacteristicValue (updateDeviceState status st)
       = CBoolean on)).
Proof.
  intros Hactive Hdir. split; [| split].
  - intros on. split.
    + unfold handleFanActiveStateSet.
      destruct on; cbn [characteristicValue]; rewrite hapConstant_strict_eq.
      * rewrite Z.eqb_refl. reflexivity.
      * destruct (Z.eqb_spec (Active_INACTIVE C) (Active_ACTIVE C));
          [congruence | reflexivity].
    + intros Hecho. unfold fanActiveValueToCharacteristicValue, updateDeviceState.
      cbn. rewrite Hecho. reflexivity.
  - intros clockwise. split.
    + unfold handleFanRotationDirectionSet.
      destruct clockwise; cbn [characteristicValue]; rewrite hapConstant_strict_eq.
      * destruct (Z.eqb_spec (RotationDirection_CLOCKWISE C)
                    (RotationDirection_COUNTER_CLOCKWISE C));
          [congruence | reflexivity].
      * rewrite Z.eqb_refl. reflexivity.
    + intros Hecho.
      unfold fanRotationDirectionValueToCharacteristicValue, updateDeviceState.
      cbn [fanRotationClockwise]. rewrite Hecho. destruct clockwise; reflexivity.
  - intros on. split; [reflexivity |].
    intros Hecho. unfold lightOnValueToCharacteristicValue, updateDeviceState.
    cbn. rewrite Hecho. reflexivity.
Qed.

(** Witness of X11: the sample constants and the new accessory. *)
Lemma switches_round_trip_witness :
  tasks (handleFanRotationDirectionSet sampleCharacteristic
           (characteristicValue sampleCharacteristic CLOCKWISE) constructed)
  = tasks constructed ++ [SetDeviceValue 63 (VString "reverse") SendLock None].
Proof.
  destruct (switches_round_trip sampleCharacteristic constructed
              (mkDPS false true 3 "reverse") (state constructed))
    as (_ & Hdir & _); [discriminate | discriminate |].
  exact (proj1 (Hdir true)).
Defined.

(** ** The mutex between gestures *)

(** X12. After any run of [lock()] calls and releases by holders, the mutex
    is free exactly when every call issued has been granted and has
    released; then nobody waits and nobody holds.  As long as the first
    holder has not released, it stays the only holder and every later call
    waits, in issue order. *)
Theorem mutex_free_iff_all_released (es : list Mutex.call) (s : Mutex.clients) :
  Mutex.run es Mutex.start = Some s ->
  (Mutex.isLocked (Mutex.mutex s) = false <-> Mutex.released s = Mutex.issued s) /\
  (Mutex.isLocked (Mutex.mutex s) = false ->
   Mutex.waitingQueue (Mutex.mutex s) = [] /\ Mutex.holders s = [] /\
   Mutex.granted s = seq 0 (Mutex.issued s)) /\
  (Mutex.released s = 0 -> 0 < Mutex.issued s ->
   Mutex.holders s = [0] /\ Mutex.granted s = [0] /\
   Mutex.waitingQueue (Mutex.mutex s) = seq 1 (Mutex.issued s - 1)).
Proof.
  intros Hrun.
  destruct (run_invariant es _ _ start_invariant Hrun) as [Hle Hlk Hq Hh Hg].
  assert (Hiff : Mutex.isLocked (Mutex.mutex s) = false
                 <-> Mutex.released s = Mutex.issued s).
  { rewrite Hlk. rewrite Nat.ltb_ge. lia. }
  split; [exact Hiff | split].
  - intros Hfree. apply Hiff in Hfree.
    rewrite Hq, Hh, Hg, Hfree.
    rewrite Nat.ltb_irrefl.
    replace (Mutex.issued s - S (Mutex.issued s)) with 0 by lia.
    replace (Nat.min (S (Mutex.issued s)) (Mutex.issued s)) with (Mutex.issued s)
      by lia.
    auto.
  - intros Hzero Hpos. rewrite Hq, Hh, Hg, Hzero.
    destruct (Nat.ltb_spec 0 (Mutex.issued s)); [| lia].
    replace (Nat.min 1 (Mutex.issued s)) with 1 by lia. auto.
Qed.

(** Witness of X12: two calls, one release by the first holder, one by
    the second. *)
Lemma mutex_free_iff_all_released_witness :
  Mutex.isLocked
    (Mutex.mutex (Mutex.mkClients Mutex.new 2 [] [0; 1] 2)) = false
  <-> Mutex.released (Mutex.mkClients Mutex.new 2 [] [0; 1] 2)
      = Mutex.issued (Mutex.mkClients Mutex.new 2 [] [0; 1] 2).
Proof.
  apply (mutex_free_iff_all_released
           [Mutex.Lock; Mutex.Lock; Mutex.Release 0; Mutex.Release 1]
           (Mutex.mkClients Mutex.new 2 [] [0; 1] 2)).
  vm_compute. reflexivity.
Defined.

(** ** The platform: restoring, registering and removing accessories *)

Section PlatformProperties.

Import Platform.

Variable generate : string -> string.

Lemma same_entry_weaken (s1 s2 : list string) (e e0 : string * PlatformAccessory) :
  (forall k, In k s1 -> In k s2) -> same_entry s1 e e0 -> same_entry s2 e e0.
Proof.
  intros Hincl (H1 & H2 & H3 & H4). repeat split; try assumption.
  intros Hno. apply H4. intros Hin. apply Hno, Hincl, Hin.
Qed.

Lemma same_entries_weaken (s1 s2 : list string)
      (m m0 : list (string * PlatformAccessory)) :
  (forall k, In k s1 -> In k s2) ->
  Forall2 (same_entry s1) m m0 -> Forall2 (same_entry s2) m m0.
Proof.
  intros Hincl H. induction H; constructor; eauto using same_entry_weaken.
Qed.

Lemma same_entries_refl (m : list (string * PlatformAccessory)) :
  Forall2 (same_entry []) m m.
Proof. induction m; constructor; [repeat split | assumption]. Qed.

Lemma get_same_entries (seen : list string) (k : string)
      (m m0 : list (string * PlatformAccessory)) :
  Forall2 (same_entry seen) m m0 ->
  match get k m0 with
  | Some v0 => exists v, get k m = Some v /\ UUID v = UUID v0 /\
                         displayName v = displayName v0
  | None => get k m = None
  end.
Proof.
  induction 1 as [| [k1 v1] [k0 v0] m m0 (Hk & Hu & Hd & _) Hrest IH]; cbn;
    [reflexivity |].
  cbn in Hk, Hu, Hd. subst k1.
  destruct (String.eqb k0 k); [eauto | exact IH].
Qed.

Lemma set_same_entries (seen : list string) (k : string) (v v' : PlatformAccessory)
      (m m0 : list (string * PlatformAccessory)) :
  Forall2 (same_entry seen) m m0 ->
  get k m = Some v -> UUID v' = UUID v -> displayName v' = displayName v ->
  Forall2 (same_entry (k :: seen)) (set k v' m) m0.
Proof.
  intros H Hget Hu Hd.
  induction H as [| [k1 v1] [k0 v0] m m0 Hhead Hrest IH]; cbn in *;
    [discriminate |].
  destruct (String.eqb_spec k1 k) as [-> | Hne].
  - injection Hget as <-. constructor.
    + destruct Hhead as (Hk & Hu1 & Hd1 & _). cbn in *. subst k0.
      repeat split; cbn; try congruence.
      intros Hno. exfalso. apply Hno. left. reflexivity.
    + eapply same_entries_weaken; [| exact Hrest]. intros; right; assumption.
  - constructor; [| apply IH, Hget].
    eapply same_entry_weaken; [| exact Hhead]. intros; right; assumption.
Qed.

(** One round of the first loop, told from the map as it was before the
    loop. *)
Lemma discoverDevice_plan (p : t) (seen : list string)
      (m0 : list (string * PlatformAccessory)) (d : Device) :
  Forall2 (same_entry seen) (accessories p) m0 ->
  Forall2 (same_entry (generate (device_id d) :: seen))
          (accessories (discoverDevice generate p d)) m0 /\
  discoveredCacheUUIDs (discoverDevice generate p d)
  = discoveredCacheUUIDs p ++ [generate (device_id d)] /\
  calls (discoverDevice generate p d) = calls p ++ plan generate m0 d.
Proof.
  intros Hsame.
  pose proof (get_same_entries seen (generate (device_id d)) _ _ Hsame) as Hget.
  unfold discoverDevice, plan.
  destruct (get (generate (device_id d)) m0) as [v0 |].
  - destruct Hget as (v & Hv & Hu & Hd). rewrite Hv. cbn.
    split; [| split; [reflexivity | rewrite Hu, Hd; reflexivity]].
    eapply set_same_entries; [exact Hsame | exact Hv | reflexivity | reflexivity].
  - rewrite Hget. cbn. split; [| split; reflexivity].
    eapply same_entries_weaken; [| exact Hsame]. intros; right; assumption.
Qed.

Lemma first_loop (devices : list Device) :
  forall (p : t) (seen : list string) (m0 : list (string * PlatformAccessory)),
    Forall2 (same_entry seen) (accessories p) m0 ->
    Forall2 (same_entry (seen ++ map (fun d => generate (device_id d)) devices))
            (accessories (fold_left (discoverDevice generate) devices p)) m0 /\
    discoveredCacheUUIDs (fold_left (discoverDevice generate) devices p)
    = discoveredCacheUUIDs p ++ map (fun d => generate (device_id d)) devices /\
    calls (fold_left (discoverDevice generate) devices p)
    = calls p ++ flat_map (plan generate m0) devices.
Proof.
  induction devices as [| d devices IH]; intros p seen m0 Hsame.
  - cbn. rewrite !app_nil_r. auto.
  - destruct (discoverDevice_plan p seen m0 d Hsame) as (H1 & H2 & H3).
    destruct (IH _ _ _ H1) as (I1 & I2 & I3).
    cbn [fold_left map flat_map]. rewrite I2, I3, H2, H3, <- !app_assoc.
    split; [| split; reflexivity].
    eapply same_entries_weaken; [| exact I1].
    intros k Hin. apply in_app_iff in Hin. apply in_app_iff.
    cbn in *. tauto.
Qed.

Lemma second_loop (discovered : list string) (m : list (string * PlatformAccessory)) :
  forall cs,
    fold_left (removeStale discovered) m cs
    = cs ++ map unregisterPlatformAccessories
              (map snd (List.filter (fun e => negb (includes discovered (fst e))) m)).
Proof.
  induction m as [| e m IH]; intros cs; cbn.
  - symmetry. apply app_nil_r.
  - rewrite IH. unfold removeStale.
    destruct (negb (includes discovered (fst e))); cbn;
      [rewrite <- app_assoc |]; reflexivity.
Qed.

Lemma includes_In (l : list string) (x : string) :
  includes l x = true <-> In x l.
Proof.
  unfold includes. rewrite existsb_exists. split.
  - intros (y & Hy & E). apply String.eqb_eq in E. subst. exact Hy.
  - intros H. exists x. split; [exact H | apply String.eqb_refl].
Qed.

Lemma stale_same_entries (seen discovered : list string)
      (m m0 : list (string * PlatformAccessory)) :
  (forall k, In k seen -> In k discovered) ->
  Forall2 (same_entry seen) m m0 ->
  List.filter (fun e => negb (includes discovered (fst e))) m
  = List.filter (fun e => negb (includes discovered (fst e))) m0.
Proof.
  intros Hincl H.
  induction H as [| e e0 m m0 (Hk & _ & _ & Hsame) Hrest IH]; cbn; [reflexivity |].
  rewrite Hk, IH.
  destruct (includes discovered (fst e0)) eqn:E; cbn; [reflexivity |].
  rewrite Hsame; [reflexivity |].
  intros Hin. apply Hincl, includes_In in Hin. congruence.
Qed.

(** [discoverDevices] as a list of calls: the plan of every device, in the
    order of the configuration, then the removal of every accessory of
    the map that no device was found for. *)
Lemma discoverDevices_calls (devices : list Device) (p : t) :
  calls (discoverDevices generate devices p)
  = calls p
    ++ flat_map (plan generate (accessories p)) devices
    ++ map unregisterPlatformAccessories
         (map snd
            (List.filter
               (fun e => negb (includes
                                 (discoveredCacheUUIDs p
                                    ++ map (fun d => generate (device_id d)) devices)
                                 (fst e)))
               (accessories p))).
Proof.
  unfold discoverDevices.
  destruct (first_loop devices p [] (accessories p) (same_entries_refl _))
    as (H1 & H2 & H3).
  cbn [calls]. rewrite second_loop, H2, H3, <- app_assoc.
  do 4 f_equal. apply (stale_same_entries _ _ _ _ (fun k H => in_or_app _ _ k (or_intror H)) H1).
Qed.

Lemma set_keyed (acc : PlatformAccessory) (m : list (string * PlatformAccessory)) :
  keyed m -> keyed (set (UUID acc) acc m).
Proof.
  unfold keyed. induction 1 as [| [k v] m Hk Hrest IH]; cbn.
  - repeat constructor.
  - destruct (String.eqb_spec k (UUID acc)) as [-> | Hne]; constructor; auto.
Qed.

Lemma restored_keyed (cached : list PlatformAccessory) :
  forall p, keyed (accessories p) ->
            keyed (accessories (fold_left configureAccessory cached p)).
Proof.
  induction cached as [| acc cached IH]; intros p Hk; cbn; [exact Hk |].
  apply IH. cbn. apply set_keyed, Hk.
Qed.

Lemma new_keyed : keyed (accessories new).
Proof. constructor. Qed.

Lemma restored_calls (cached : list PlatformAccessory) :
  forall p, calls (fold_left configureAccessory cached p) = calls p /\
            discoveredCacheUUIDs (fold_left configureAccessory cached p)
            = discoveredCacheUUIDs p.
Proof.
  induction cached as [| acc cached IH]; intros p; cbn; [auto |].
  destruct (IH (configureAccessory p acc)) as [-> ->]. auto.
Qed.

Lemma get_keyed (k : string) (v : PlatformAccessory)
      (m : list (string * PlatformAccessory)) :
  keyed m -> get k m = Some v -> UUID v = k /\ In (k, v) m.
Proof.
  unfold keyed. induction 1 as [| [k1 v1] m Hk Hrest IH]; cbn; [discriminate |].
  destruct (String.eqb_spec k1 k) as [-> | Hne].
  - intros E. injection E as <-. auto.
  - intros E. destruct (IH E). auto.
Qed.

Lemma launch_calls (cached : list PlatformAccessory) (devices : list Device) :
  calls (launch generate cached devices)
  = flat_map (plan generate (accessories (fold_left configureAccessory cached new)))
             devices
    ++ map unregisterPlatformAccessories
         (map snd
            (List.filter
               (fun e => negb (includes (map (fun d => generate (device_id d)) devices)
                                        (fst e)))
               (accessories (fold_left configureAccessory cached new)))).
Proof.
  unfold launch. rewrite discoverDevices_calls.
  destruct (restored_calls cached new) as [-> ->]. reflexivity.
Qed.

Lemma handled_app (l1 l2 : list api_call) : handled (l1 ++ l2) = handled l1 ++ handled l2.
Proof. apply flat_map_app. Qed.
Lemma registered_app (l1 l2 : list api_call) :
  registered (l1 ++ l2) = registered l1 ++ registered l2.
Proof. apply flat_map_app. Qed.
Lemma unregistered_app (l1 l2 : list api_call) :
  unregistered (l1 ++ l2) = unregistered l1 ++ unregistered l2.
Proof. apply flat_map_app. Qed.
Lemma updated_app (l1 l2 : list api_call) : updated (l1 ++ l2) = updated l1 ++ updated l2.
Proof. apply flat_map_app. Qed.

Lemma removal_only_unregisters (l : list PlatformAccessory) :
  handled (map unregisterPlatformAccessories l) = [] /\
  registered (map unregisterPlatformAccessories l) = [] /\
  updated (map unregisterPlatformAccessories l) = [] /\
  unregistered (map unregisterPlatformAccessories l) = l.
Proof.
  induction l as [| x l (H1 & H2 & H3 & H4)]; cbn; [auto |].
  unfold handled, registered, updated, unregistered in *.
  rewrite H1, H2, H3, H4. auto.
Qed.

(** X13. At the start of the plugin every configured device gets exactly
    one accessory handler, in the order of the configuration, whether its
    accessory was restored from the cache or is new; the handler's
    accessory has the UUID generated from the device id and carries the
    device's current configuration as its context. *)
Theorem one_handler_per_device
  (cached : list PlatformAccessory) (devices : list Device) :
  map (fun x => (UUID x, context_device x))
      (handled (calls (launch generate cached devices)))
  = map (fun d => (generate (device_id d), d)) devices.
Proof.
  rewrite launch_calls, handled_app.
  rewrite (proj1 (removal_only_unregisters _)), app_nil_r.
  pose proof (restored_keyed cached new new_keyed) as Hk.
  induction devices as [| d devices IH]; [reflexivity |].
  cbn [flat_map map]. rewrite handled_app, map_app, IH. unfold plan.
  destruct (get (generate (device_id d)) _) as [v |] eqn:E; cbn; [| reflexivity].
  destruct (get_keyed _ _ _ Hk E) as [-> _]. reflexivity.
Qed.

(** X14. The accessories registered with Homebridge are the new ones made
    for the configured devices whose UUID is not in the restored cache, in
    configuration order, one per such device; no accessory is registered
    under a UUID that the cache holds. *)
Theorem registers_uncached_only
  (cached : list PlatformAccessory) (devices : list Device) :
  registered (calls (launch generate cached devices))
  = map (fun d => mkAccessory (generate (device_id d)) (device_name d) d)
        (List.filter
           (fun d => match get (generate (device_id d))
                               (accessories (fold_left configureAccessory cached new))
                     with Some _ => false | None => true end)
           devices) /\
  Forall (fun x => get (UUID x) (accessories (fold_left configureAccessory cached new))
                   = None)
         (registered (calls (launch generate cached devices))).
Proof.
  rewrite launch_calls, registered_app.
  rewrite (proj1 (proj2 (removal_only_unregisters _))), app_nil_r.
  induction devices as [| d devices [IH1 IH2]]; [split; [reflexivity | constructor] |].
  cbn [flat_map List.filter]. rewrite registered_app. unfold plan at 1 3.
  destruct (get (generate (device_id d)) _) as [v |] eqn:E; cbn.
  - split; assumption.
  - split; [rewrite IH1; reflexivity | constructor; assumption].
Qed.

(** X15. The accessories unregistered from Homebridge are exactly the
    cached accessories whose UUID no configured device generates, as they
    were restored and in the order of the cache, each once.  An accessory
    that a device was found for is updated, never unregistered: no UUID is
    both updated and unregistered. *)
Theorem unregisters_stale_only
  (cached : list PlatformAccessory) (devices : list Device) :
  unregistered (calls (launch generate cached devices))
  = map snd
      (List.filter
         (fun e => negb (includes (map (fun d => generate (device_id d)) devices)
                                  (fst e)))
         (accessories (fold_left configureAccessory cached new))) /\
  Forall (fun x => In (UUID x) (map (fun d => generate (device_id d)) devices))
         (updated (calls (launch generate cached devices))) /\
  Forall (fun y => ~ In (UUID y) (map (fun d => generate (device_id d)) devices))
         (unregistered (calls (launch generate cached devices))).
Proof.
  pose proof (restored_keyed cached new new_keyed) as Hk.
  rewrite launch_calls, unregistered_app, updated_app.
  destruct (removal_only_unregisters
              (map snd
                 (List.filter
                    (fun e => negb (includes
                                      (map (fun d => generate (device_id d)) devices)
                                      (fst e)))
                    (accessories (fold_left configureAccessory cached new)))))
    as (_ & _ & -> & ->).
  rewrite app_nil_r.
  assert (Hplan : forall ds,
             unregistered (flat_map (plan generate
                                       (accessories (fold_left configureAccessory cached new)))
                                    ds) = [] /\
             Forall (fun x => In (UUID x) (map (fun d => generate (device_id d)) ds))
                    (updated (flat_map (plan generate
                                          (accessories
                                             (fold_left configureAccessory cached new)))
                                       ds))).
  { induction ds as [| d ds [IH1 IH2]]; [split; [reflexivity | constructor] |].
    cbn [flat_map map]. rewrite unregistered_app, updated_app, IH1. unfold plan.
    destruct (get (generate (device_id d)) _) as [v |] eqn:E; cbn.
    - split; [reflexivity |]. constructor.
      + cbn. left. symmetry. apply (get_keyed _ _ _ Hk E).
      + eapply Forall_impl; [exact IH2 |]. cbn. intros; right; assumption.
    - split; [reflexivity |].
      eapply Forall_impl; [exact IH2 |]. cbn. intros; right; assumption. }
  destruct (Hplan devices) as [-> Hupd]. cbn [app].
  split; [reflexivity | split; [exact Hupd |]].
  apply Forall_forall. intros y Hy. apply list_elem_of_In in Hy.
  apply in_map_iff in Hy. destruct Hy as ([k v] & <- & Hin).
  apply List.filter_In in Hin. destruct Hin as [Hin Hstale]. cbn in *.
  unfold keyed in Hk. rewrite Forall_forall in Hk.
  pose proof (Hk (k, v) (proj2 (list_elem_of_In _ _) Hin)) as Hkey. cbn in Hkey.
  rewrite Hkey.
  intros Hdisc. apply includes_In in Hdisc. rewrite Hdisc in Hstale. discriminate.
Qed.

End PlatformProperties.

(** ** The light service *)

Section LightService.

Lemma js_strict_eq_boolean (v : jsvalue) (b : bool) :
  js_strict_eq v (JBoolean b) = true <-> v = JBoolean b.
Proof.
  destruct v as [n | b' | s |]; cbn; try (split; discriminate).
  destruct b', b; cbn; split; congruence.
Qed.

Lemma js_strict_eq_string (v : jsvalue) (s : string) :
  js_strict_eq v (JString s) = true <-> v = JString s.
Proof.
  destruct v as [n | b' | s' |]; cbn; try (split; discriminate).
  rewrite String.eqb_eq. split; congruence.
Qed.

Lemma light_configured_spec (hasLight : jsvalue) :
  js_strict_eq hasLight (JBoolean true) || js_strict_eq hasLight (JString "notDimmable")
  = true <-> light_configured hasLight.
Proof.
  unfold light_configured.
  rewrite orb_true_iff, js_strict_eq_boolean, js_strict_eq_string. reflexivity.
Qed.

Lemma light_disabled_spec (hasLight : jsvalue) :
  js_strict_eq hasLight (JBoolean false) || js_strict_eq hasLight (JString "no")
  = true <-> light_disabled hasLight.
Proof.
  unfold light_disabled.
  rewrite orb_true_iff, js_strict_eq_boolean, js_strict_eq_string. reflexivity.
Qed.

End LightService.


